(** * web-search-mcp: the Streamable-HTTP session engine and its rate governor

    A shallow embedding of [src/rateLimit.ts] (RateLimiter, BackoffManager)
    and [src/httpServer.ts] (MCPHttpServer), with the properties of the
    design document stated over it.

    Conventions.  JavaScript numbers that hold counters, timestamps and
    event ids are integers in the program and are modelled by [Z]; the one
    genuinely fractional quantity, the jittered sleep of [withBackoff], is a
    rational [Q].  A [Map<string, V>] is a [gmap string V].  Everything a
    handler reads from outside the process (the clock, [randomUUID],
    [Math.random], what a collaborator returns) is an explicit input. *)

From Stdlib Require Import ZArith QArith Qminmax Lqa String Ascii List Lia.
From stdpp Require Import gmap strings list pretty.

Set Warnings "-register-all".
Local Open Scope Z_scope.

(** ** JavaScript values *)

(** What [JSON.parse] produces.  Numbers are integers here: the program
    never inspects a number except to test it for falsiness. An object is
    its list of own properties. *)
Inductive json : Type :=
| JNull
| JBool (b : bool)
| JNum (n : Z)
| JStr (s : string)
| JArr (items : list json)
| JObj (props : list (string * json)).

Fixpoint assoc {A : Type} (k : string) (l : list (string * A)) : option A :=
  match l with
  | [] => None
  | (k', v) :: rest => if String.eqb k k' then Some v else assoc k rest
  end.

(** [v.k] for a non-null [v]; [None] is JavaScript's [undefined]. Only the
    properties [jsonrpc], [id], [method], [params], [name], [arguments] and
    [code] are ever read, none of which a primitive or an array carries. *)
Definition get_prop (v : json) (k : string) : option json :=
  match v with
  | JObj props => assoc k props
  | _ => None
  end.

(** Truthiness, as tested by [!x], [x && ...] and [x || ...]. *)
Definition truthy (v : option json) : bool :=
  match v with
  | None => false
  | Some JNull => false
  | Some (JBool b) => b
  | Some (JNum n) => negb (n =? 0)
  | Some (JStr s) => negb (String.eqb s "")
  | Some (JArr _) => true
  | Some (JObj _) => true
  end.

(** Truthiness of an optional header or string ([string | undefined]). *)
Definition truthy_str (s : option string) : bool :=
  match s with
  | Some s => negb (String.eqb s "")
  | None => false
  end.

(** [String(v)], also what a template literal [`${v}`] renders. *)
Fixpoint js_string (v : json) : string :=
  match v with
  | JNull => "null"
  | JBool true => "true"
  | JBool false => "false"
  | JNum n => pretty n
  | JStr s => s
  | JArr items =>
      (fix join (l : list json) : string :=
         match l with
         | [] => ""
         | x :: rest =>
             let here := match x with JNull => "" | _ => js_string x end in
             match rest with
             | [] => here
             | _ => here +:+ "," +:+ join rest
             end
         end) items
  | JObj _ => "[object Object]"
  end.

Definition js_string_opt (v : option json) : string :=
  match v with
  | Some v => js_string v
  | None => "undefined"
  end.

(** ** Thrown values and outcomes *)

(** A value that travels through [throw]/[catch].  The program tells three
    kinds apart: instances of [MCPErrorException], other [Error] instances
    (a [TypeError], [new Error(...)]; Node attaches a [code] to some), and
    plain values, among them the object literals the program throws and the
    plain objects [createMCPError] returns. *)
Inductive thrown : Type :=
| ThrownMCPErrorException (code message : string) (details : option json)
| ThrownError (name message : string) (code : option json)
| ThrownValue (v : option json).

(** How an awaited call ends. *)
Inductive outcome (T : Type) : Type :=
| Returned (v : T)
| Threw (e : thrown).
Arguments Returned {T} v.
Arguments Threw {T} e.

Definition is_returned {T : Type} (o : outcome T) : bool :=
  match o with Returned _ => true | Threw _ => false end.

(** [typeof error === "object" && error !== null] *)
Definition is_object (e : thrown) : bool :=
  match e with
  | ThrownMCPErrorException _ _ _ => true
  | ThrownError _ _ _ => true
  | ThrownValue (Some (JObj _)) => true
  | ThrownValue (Some (JArr _)) => true
  | ThrownValue _ => false
  end.

(** [error.code], when ["code" in error]. *)
Definition thrown_code (e : thrown) : option json :=
  match e with
  | ThrownMCPErrorException c _ _ => Some (JStr c)
  | ThrownError _ _ c => c
  | ThrownValue (Some v) => get_prop v "code"
  | ThrownValue None => None
  end.

(** [String(error)] *)
Definition thrown_string (e : thrown) : string :=
  match e with
  | ThrownMCPErrorException _ m _ =>
      if String.eqb m "" then "MCPErrorException" else "MCPErrorException: " +:+ m
  | ThrownError n m _ => if String.eqb m "" then n else n +:+ ": " +:+ m
  | ThrownValue v => js_string_opt v
  end.

(** errors.ts, [createMCPError]: a plain object, not an exception instance. *)
Definition createMCPError (code message : string) (details : option json) : json :=
  JObj ([("code", JStr code); ("message", JStr message)]
        ++ match details with Some d => [("details", d)] | None => [] end).

(** ** rateLimit.ts *)

Module RateLimit.

Record RateLimitEntry : Type := { count : Z; resetTime : Z }.

Record RateLimiter : Type := {
  limits : gmap string RateLimitEntry;
  windowMs : Z;
  maxRequests : Z
}.

Definition newRateLimiter (windowMs maxRequests : Z) : RateLimiter :=
  {| limits := ∅; windowMs := windowMs; maxRequests := maxRequests |}.

Definition with_limits (rl : RateLimiter) (m : gmap string RateLimitEntry) : RateLimiter :=
  {| limits := m; windowMs := windowMs rl; maxRequests := maxRequests rl |}.

(** The value thrown at line 36. *)
Definition rateLimitedError (retryAfterMs maxRequests windowMs : Z) : thrown :=
  ThrownValue (Some (createMCPError "RATE_LIMITED" "Rate limit exceeded"
    (Some (JObj [("retryAfterMs", JNum retryAfterMs);
                 ("maxRequests", JNum maxRequests);
                 ("windowMs", JNum windowMs)])))).

(** The entry the call works on after lines 26-32: the stored one while its
    window is running, a fresh one otherwise. *)
Definition currentEntry (clientId : string) (now : Z) (rl : RateLimiter) : RateLimitEntry :=
  match limits rl !! clientId with
  | Some entry =>
      if now >=? resetTime entry
      then {| count := 0; resetTime := now + windowMs rl |}
      else entry
  | None => {| count := 0; resetTime := now + windowMs rl |}
  end.

(** [checkLimit], with [Date.now()] passed in as [now]. *)
Definition checkLimit (clientId : string) (now : Z) (rl : RateLimiter)
  : RateLimiter * outcome unit :=
  let resetTime_ := now + windowMs rl in
  let '(entry, limits1) :=
    match limits rl !! clientId with
    | Some entry =>
        if now >=? resetTime entry
        then let fresh := {| count := 0; resetTime := resetTime_ |} in
             (fresh, <[clientId := fresh]> (limits rl))
        else (entry, limits rl)
    | None =>
        let fresh := {| count := 0; resetTime := resetTime_ |} in
        (fresh, <[clientId := fresh]> (limits rl))
    end in
  if count entry >=? maxRequests rl
  then (with_limits rl limits1,
        Threw (rateLimitedError (resetTime entry - now) (maxRequests rl) (windowMs rl)))
  else (with_limits rl
          (<[clientId := {| count := count entry + 1; resetTime := resetTime entry |}]> limits1),
        Returned tt).

(** The periodic [cleanup]. *)
Definition cleanup (now : Z) (rl : RateLimiter) : RateLimiter :=
  with_limits rl (filter (fun kv => ¬ (resetTime kv.2 <= now)) (limits rl)).

Definition reset (clientId : option string) (rl : RateLimiter) : RateLimiter :=
  if truthy_str clientId
  then with_limits rl (delete (default "" clientId) (limits rl))
  else with_limits rl ∅.

(** Successive calls for one client at the given clock readings. *)
Fixpoint checkLimits (clientId : string) (times : list Z) (rl : RateLimiter)
  : RateLimiter * list (outcome unit) :=
  match times with
  | [] => (rl, [])
  | now :: rest =>
      let '(rl1, r) := checkLimit clientId now rl in
      let '(rl2, rs) := checkLimits clientId rest rl1 in
      (rl2, r :: rs)
  end.

(** How many calls of a run were admitted. *)
Fixpoint admitted (rs : list (outcome unit)) : Z :=
  match rs with
  | [] => 0
  | r :: rest => (if is_returned r then 1 else 0) + admitted rest
  end.

(** No window is running for the client at [now]. *)
Definition windowClosed (clientId : string) (now : Z) (rl : RateLimiter) : Prop :=
  match limits rl !! clientId with
  | Some entry => resetTime entry <= now
  | None => True
  end.

End RateLimit.

(** What a handler does to the outside world, in program order. *)
Inductive effect : Type :=
| EffCheckLimit (clientId : string)    (* rateLimiter.checkLimit was consulted *)
| EffOperation (key : string)          (* the operation given to withBackoff ran *)
| EffSleep (ms : Q).                   (* this.sleep(ms) *)

Module Backoff.

Record BackoffManager : Type := { delays : gmap string Z }.

Definition newBackoffManager : BackoffManager := {| delays := ∅ |}.

Definition maxDelay : Z := 32000.
Definition baseDelay : Z := 1000.

(** The test of lines 77-82. *)
Definition isRateLimited (error : thrown) : bool :=
  is_object error &&
  match thrown_code error with
  | Some (JStr c) => String.eqb c "RATE_LIMITED"
  | _ => false
  end.

(** [this.delays.get(key) || this.baseDelay] *)
Definition currentDelayOf (key : string) (bm : BackoffManager) : Z :=
  match delays bm !! key with
  | Some d => if d =? 0 then baseDelay else d
  | None => baseDelay
  end.

(** Lines 88-89; [random] is the value of [Math.random()], in [0, 1). The
    arithmetic is exact here where the program rounds to a double. *)
Definition delayWithJitter (currentDelay : Z) (random : Q) : Q :=
  let jitter := (inject_Z currentDelay * (1 # 4) * (random * 2 - 1))%Q in
  Qmax 100 (inject_Z currentDelay + jitter).

(** [withBackoff(key, operation)]: [operation] is given by how its call
    ends.  Returns the manager, the effects in order, and how
    [withBackoff] itself ends. *)
Definition withBackoff {T : Type} (key : string) (operation : outcome T) (random : Q)
    (bm : BackoffManager) : BackoffManager * list effect * outcome T :=
  match operation with
  | Returned result =>
      ({| delays := delete key (delays bm) |}, [EffOperation key], Returned result)
  | Threw error =>
      if isRateLimited error then
        let currentDelay := currentDelayOf key bm in
        let nextDelay := Z.min (currentDelay * 2) maxDelay in
        ({| delays := <[key := nextDelay]> (delays bm) |},
         [EffOperation key; EffSleep (delayWithJitter currentDelay random)],
         Threw error)
      else (bm, [EffOperation key], Threw error)
  end.

Definition reset (key : option string) (bm : BackoffManager) : BackoffManager :=
  if truthy_str key
  then {| delays := delete (default "" key) (delays bm) |}
  else {| delays := ∅ |}.

(** One wrapped call: its key, how the operation ends, the random draw. *)
Record call (T : Type) : Type := { call_key : string; call_outcome : outcome T; call_random : Q }.
Arguments call_key {T} _.
Arguments call_outcome {T} _.
Arguments call_random {T} _.

(** The manager after a series of wrapped calls. *)
Fixpoint run {T : Type} (calls : list (call T)) (bm : BackoffManager) : BackoffManager :=
  match calls with
  | [] => bm
  | c :: rest => run rest (withBackoff (call_key c) (call_outcome c) (call_random c) bm).1.1
  end.

(** The sleeps among a list of effects. *)
Definition sleeps (effs : list effect) : list Q :=
  omap (fun e => match e with EffSleep ms => Some ms | _ => None end) effs.

End Backoff.

(** ** String helpers of the platform *)

(** [s.includes(sub)] *)
Fixpoint includes (s sub : string) : bool :=
  String.prefix sub s ||
  match s with
  | EmptyString => false
  | String _ rest => includes rest sub
  end.

Definition is_space (a : ascii) : bool :=
  let n := nat_of_ascii a in
  (Nat.eqb n 32 || (Nat.leb 9 n && Nat.leb n 13))%bool.

Fixpoint skip_spaces (s : string) : string :=
  match s with
  | String a rest => if is_space a then skip_spaces rest else s
  | EmptyString => s
  end.

Definition digit_of (a : ascii) : option Z :=
  let n := nat_of_ascii a in
  if (Nat.leb 48 n && Nat.leb n 57)%bool then Some (Z.of_nat n - 48) else None.

Fixpoint leading_digits (s : string) (acc : option Z) : option Z :=
  match s with
  | String a rest =>
      match digit_of a with
      | Some d => leading_digits rest (Some (10 * default 0 acc + d))
      | None => acc
      end
  | EmptyString => acc
  end.

(** [parseInt(s, 10)]; [None] is [NaN]. *)
Definition parseInt (s : string) : option Z :=
  match skip_spaces s with
  | String "-"%char rest => Z.opp <$> leading_digits rest None
  | String "+"%char rest => leading_digits rest None
  | s' => leading_digits s' None
  end.

(** [v === "s"] for a value read from a message. *)
Definition is_str (v : option json) (s : string) : bool :=
  match v with
  | Some (JStr s') => String.eqb s' s
  | _ => false
  end.

(** ** httpServer.ts *)

Module Server.

(** The identity of a [ServerResponse]; Node makes one per HTTP request.
    At most one [SSEStream] is built around each, so this also identifies
    the stream object. *)
Definition conn : Type := nat.

Record Session : Type := {
  id : string;
  createdAt : Z;
  lastAccessedAt : Z;
  initialized : bool
}.

Inductive rpc_result : Type :=
| InitializeResult             (* protocolVersion "2024-11-05", capabilities, serverInfo *)
| ToolsListResult              (* the catalogue of handleToolsList *)
| ToolCallResult (result : json)  (* content: [{type: "text", text: JSON.stringify(result, null, 2)}] *)
| PingResult.                  (* {} *)

Inductive rpc_error : Type :=
| ErrorMCP (message : string) (data : option json)  (* code -32603, mcpError.message, mcpError.details *)
| ErrorAsThrown (error : thrown)                    (* the caught object itself *)
| ErrorInternal (message : string).                 (* code -32603, String(error) *)

Inductive rpc_payload : Type :=
| RpcResult (result : rpc_result)
| RpcError (error : rpc_error).

(** [{ jsonrpc: "2.0", id, result }] or [{ jsonrpc: "2.0", id, error }] *)
Record rpc_response : Type := { rpc_id : option json; rpc_payload_of : rpc_payload }.

Record SSEStream : Type := {
  res : conn;
  sessionId : string;
  lastEventId : option Z;          (* [None] is NaN *)
  requestId : option json
}.

Record QueuedMessage : Type := {
  eventId : Z;
  data : rpc_response;
  streamKey : string
}.

Inductive body : Type :=
| BodyRpc (response : rpc_response)   (* JSON.stringify(response) *)
| BodyParseError (data : string)      (* jsonrpc "2.0", error: code -32700, "Parse error", data *)
| BodyError (error : string)          (* { error } *)
| BodyHealth (sessions : nat).        (* status "healthy", timestamp, sessions *)

(** A call on a [ServerResponse]. *)
Inductive output : Type :=
| WriteHead (status : Z) (headers : list (string * string))
| WriteEventId (id : Z)                  (* res.write(`id: ${id}\n`) *)
| WriteEventData (data : rpc_response)   (* res.write(`data: ${JSON.stringify(data)}\n\n`) *)
| WriteKeepalive                         (* res.write(": keepalive\n\n") *)
| End (body : option body).

Record Server : Type := {
  rateLimiter : RateLimit.RateLimiter;
  backoffManager : Backoff.BackoffManager;
  sessions : gmap string Session;
  sseStreams : gmap string (list conn);      (* the arrays hold references to stream objects *)
  streamObjects : gmap conn SSEStream;       (* the stream objects themselves *)
  messageQueues : gmap string (list QueuedMessage);
  globalEventId : Z;
  wire : list (conn * output)                (* every call made on a response, oldest first *)
}.

(** [new MCPHttpServer(config)] *)
Definition newServer (windowMs max : Z) : Server := {|
  rateLimiter := RateLimit.newRateLimiter windowMs max;
  backoffManager := Backoff.newBackoffManager;
  sessions := ∅;
  sseStreams := ∅;
  streamObjects := ∅;
  messageQueues := ∅;
  globalEventId := 0;
  wire := []
|}.

Definition set_rateLimiter (st : Server) (x : RateLimit.RateLimiter) : Server :=
  {| rateLimiter := x; backoffManager := backoffManager st; sessions := sessions st;
     sseStreams := sseStreams st; streamObjects := streamObjects st;
     messageQueues := messageQueues st; globalEventId := globalEventId st; wire := wire st |}.
Definition set_backoffManager (st : Server) (x : Backoff.BackoffManager) : Server :=
  {| rateLimiter := rateLimiter st; backoffManager := x; sessions := sessions st;
     sseStreams := sseStreams st; streamObjects := streamObjects st;
     messageQueues := messageQueues st; globalEventId := globalEventId st; wire := wire st |}.
Definition set_sessions (st : Server) (x : gmap string Session) : Server :=
  {| rateLimiter := rateLimiter st; backoffManager := backoffManager st; sessions := x;
     sseStreams := sseStreams st; streamObjects := streamObjects st;
     messageQueues := messageQueues st; globalEventId := globalEventId st; wire := wire st |}.
Definition set_sseStreams (st : Server) (x : gmap string (list conn)) : Server :=
  {| rateLimiter := rateLimiter st; backoffManager := backoffManager st; sessions := sessions st;
     sseStreams := x; streamObjects := streamObjects st;
     messageQueues := messageQueues st; globalEventId := globalEventId st; wire := wire st |}.
Definition set_streamObjects (st : Server) (x : gmap conn SSEStream) : Server :=
  {| rateLimiter := rateLimiter st; backoffManager := backoffManager st; sessions := sessions st;
     sseStreams := sseStreams st; streamObjects := x;
     messageQueues := messageQueues st; globalEventId := globalEventId st; wire := wire st |}.
Definition set_messageQueues (st : Server) (x : gmap string (list QueuedMessage)) : Server :=
  {| rateLimiter := rateLimiter st; backoffManager := backoffManager st; sessions := sessions st;
     sseStreams := sseStreams st; streamObjects := streamObjects st;
     messageQueues := x; globalEventId := globalEventId st; wire := wire st |}.
Definition set_globalEventId (st : Server) (x : Z) : Server :=
  {| rateLimiter := rateLimiter st; backoffManager := backoffManager st; sessions := sessions st;
     sseStreams := sseStreams st; streamObjects := streamObjects st;
     messageQueues := messageQueues st; globalEventId := x; wire := wire st |}.
Definition set_wire (st : Server) (x : list (conn * output)) : Server :=
  {| rateLimiter := rateLimiter st; backoffManager := backoffManager st; sessions := sessions st;
     sseStreams := sseStreams st; streamObjects := streamObjects st;
     messageQueues := messageQueues st; globalEventId := globalEventId st; wire := x |}.

(** What a request reads from outside the process while it is handled. *)
Record World : Type := {
  now : Z;                       (* Date.now(), new Date() *)
  uuid : string;                 (* randomUUID() *)
  random : Q;                    (* Math.random() *)
  hostname : outcome string;     (* evaluating new URL(input.url).hostname *)
  collaborator : outcome json    (* how the search or page-fetch call ends, if it is made *)
}.

Inductive http_method : Type := GET | POST | DELETE | OPTIONS | OtherMethod.

(** An [IncomingMessage]: method, url, the headers the server reads, and
    the body as [JSON.parse] sees it. *)
Record Request : Type := {
  method : http_method;
  url : string;
  origin : option string;
  mcp_session_id : option string;
  accept : option string;
  last_event_id : option string;
  parsed_body : outcome json
}.

Definition sessionTimeout : Z := 3600000.

(** [cleanupSessions], the hourly sweep. *)
Definition cleanupSessions (now : Z) (st : Server) : Server :=
  foldr (fun '(sessionId, session) st =>
           if now - lastAccessedAt session >? sessionTimeout
           then set_messageQueues
                  (set_sseStreams
                     (set_sessions st (delete sessionId (sessions st)))
                     (delete sessionId (sseStreams st)))
                  (delete sessionId (messageQueues st))
           else st)
        st (map_to_list (sessions st)).

Definition validateOrigin (req : Request) : bool :=
  match origin req with
  | Some o =>
      if (negb (String.eqb o "") &&
          (includes o "localhost" || includes o "127.0.0.1" || includes o "0.0.0.0"))%bool
      then true else true
  | None => true
  end.

Definition createSession (w : World) : Session :=
  {| id := uuid w; createdAt := now w; lastAccessedAt := now w; initialized := false |}.

(** [getSession]: refreshes [lastAccessedAt] of a session it finds. *)
Definition getSession (sessionId : option string) (w : World) (st : Server)
  : Server * option Session :=
  if negb (truthy_str sessionId) then (st, None)
  else match sessions st !! default "" sessionId with
       | Some session =>
           let session' := {| id := id session; createdAt := createdAt session;
                              lastAccessedAt := now w; initialized := initialized session |} in
           (set_sessions st (<[default "" sessionId := session']> (sessions st)), Some session')
       | None => (st, None)
       end.

(** [sendSSE(stream, data, eventId?)], the stream given by its response. *)
Definition sendSSE (stream : conn) (data : rpc_response) (eventId : option Z) (st : Server)
  : Server :=
  let '(id_, st1) :=
    match eventId with
    | Some e => (e, st)
    | None => (globalEventId st + 1, set_globalEventId st (globalEventId st + 1))
    end in
  let st2 := set_streamObjects st1
      (alter (fun s => {| res := res s; sessionId := sessionId s;
                          lastEventId := Some id_; requestId := requestId s |})
             stream (streamObjects st1)) in
  set_wire st2 (wire st2 ++ [(stream, WriteEventId id_); (stream, WriteEventData data)]).

Definition addSSEStream (sessionId : string) (stream : conn) (st : Server) : Server :=
  set_sseStreams st
    (<[sessionId := default [] (sseStreams st !! sessionId) ++ [stream]]> (sseStreams st)).

(** [streams.splice(streams.indexOf(stream), 1)]: drops the first occurrence. *)
Fixpoint remove_first (stream : conn) (streams : list conn) : list conn :=
  match streams with
  | [] => []
  | s :: rest => if Nat.eqb s stream then rest else s :: remove_first stream rest
  end.

Definition removeSSEStream (sessionId : string) (stream : conn) (st : Server) : Server :=
  match sseStreams st !! sessionId with
  | Some streams => set_sseStreams st (<[sessionId := remove_first stream streams]> (sseStreams st))
  | None => st
  end.

(** [handleInitialize(params, sessionId)]: the state, the result, the
    session id it reports. *)
Definition handleInitialize (params : option json) (sessionId : option string)
    (w : World) (st : Server) : Server * (rpc_result * string) :=
  let initialize (session : Session) : Session :=
    {| id := id session; createdAt := createdAt session;
       lastAccessedAt := lastAccessedAt session; initialized := true |} in
  match (if truthy_str sessionId then sessions st !! default "" sessionId else None) with
  | Some session =>
      (* the object the map holds under [sessionId] is updated in place *)
      (set_sessions st (<[default "" sessionId := initialize session]> (sessions st)),
       (InitializeResult, id session))
  | None =>
      let session := createSession w in
      (set_sessions st (<[id session := initialize session]> (sessions st)),
       (InitializeResult, id session))
  end.

Definition handleToolsList : rpc_result := ToolsListResult.

(** [handleToolCall(name, args)] *)
Definition handleToolCall (name args : option json) (w : World) (st : Server)
  : Server * list effect * outcome json :=
  let '(rl, checked) := RateLimit.checkLimit "default-client" (now w) (rateLimiter st) in
  let st1 := set_rateLimiter st rl in
  match checked with
  | Threw e => (st1, [EffCheckLimit "default-client"], Threw e)
  | Returned _ =>
      if is_str name "google_news_search" then
        let '(bm, effs, r) :=
          Backoff.withBackoff "google-cse" (collaborator w) (random w) (backoffManager st1) in
        (set_backoffManager st1 bm, EffCheckLimit "default-client" :: effs, r)
      else if is_str name "fetch_page" then
        match hostname w with
        | Threw e => (st1, [EffCheckLimit "default-client"], Threw e)
        | Returned host =>
            let '(bm, effs, r) :=
              Backoff.withBackoff ("fetch-" +:+ host) (collaborator w) (random w)
                (backoffManager st1) in
            (set_backoffManager st1 bm, EffCheckLimit "default-client" :: effs, r)
        end
      else (st1, [EffCheckLimit "default-client"],
            Threw (ThrownError "Error" ("Unknown tool: " +:+ js_string_opt name) None))
  end.

(** The object thrown for a wrong protocol tag (line 269). *)
Definition invalidRequest : thrown :=
  ThrownValue (Some (JObj [("code", JNum (-32600));
                           ("message", JStr "Invalid Request: jsonrpc must be '2.0'")])).

(** The object thrown for an unknown method (line 316). *)
Definition methodNotFound (method : option json) : thrown :=
  ThrownValue (Some (JObj [("code", JNum (-32601));
                           ("message", JStr ("Method not found: " +:+ js_string_opt method))])).

(** The [TypeError] of destructuring [null] or [undefined]. *)
Definition destructureError : thrown :=
  ThrownError "TypeError" "Cannot destructure property of null or undefined" None.

(** The [catch] of [processJsonRpcRequest]: a thrown value becomes the
    [error] member of the response. *)
Definition errorOfThrown (error : thrown) : rpc_error :=
  match error with
  | ThrownMCPErrorException _ message details => ErrorMCP message details
  | _ =>
      if (is_object error && bool_decide (is_Some (thrown_code error)))%bool
      then ErrorAsThrown error
      else ErrorInternal (thrown_string error)
  end.

(** [processJsonRpcRequest(message, sessionId)] *)
Definition processJsonRpcRequest (message : json) (sessionId : option string)
    (w : World) (st : Server)
  : Server * list effect * outcome (rpc_response * option string) :=
  match message with
  | JNull => (st, [], Threw destructureError)
  | _ =>
      let jsonrpc := get_prop message "jsonrpc" in
      let id_ := get_prop message "id" in
      let method_ := get_prop message "method" in
      let params := get_prop message "params" in
      if negb (is_str jsonrpc "2.0") then (st, [], Threw invalidRequest)
      else
        (* the try block *)
        let '(st1, effs, r) :=
          if is_str method_ "initialize" then
            let '(st1, (result, newSessionId)) := handleInitialize params sessionId w st in
            (st1, [], Returned (result, Some newSessionId))
          else if is_str method_ "tools/list" then
            (st, [], Returned (handleToolsList, None))
          else if is_str method_ "tools/call" then
            match params with
            | None | Some JNull => (st, [], Threw destructureError)
            | Some p =>
                let '(st1, effs, r) :=
                  handleToolCall (get_prop p "name") (get_prop p "arguments") w st in
                (st1, effs,
                 match r with
                 | Returned result => Returned (ToolCallResult result, None)
                 | Threw e => Threw e
                 end)
            end
          else if is_str method_ "ping" then
            (st, [], Returned (PingResult, None))
          else (st, [], Threw (methodNotFound method_)) in
        (* the catch block *)
        match r with
        | Returned (result, newSessionId) =>
            (st1, effs,
             Returned ({| rpc_id := id_; rpc_payload_of := RpcResult result |}, newSessionId))
        | Threw error =>
            (st1, effs,
             Returned ({| rpc_id := id_; rpc_payload_of := RpcError (errorOfThrown error) |}, None))
        end
  end.

Definition sessionHeader (newSessionId : option string) : list (string * string) :=
  if truthy_str newSessionId then [("Mcp-Session-Id", default "" newSessionId)] else [].

(** [a || b] on optional strings. *)
Definition or_str (a b : option string) : option string :=
  if truthy_str a then a else b.

Definition emit (res : conn) (outs : list output) (st : Server) : Server :=
  set_wire st (wire st ++ map (fun o => (res, o)) outs).

(** [handlePost(req, res)], up to the point where it resolves.  What the
    100 ms timer of the SSE branch does later is [postStreamTimeout]. *)
Definition handlePost (req : Request) (res : conn) (w : World) (st : Server)
  : Server * list effect :=
  let sessionId := mcp_session_id req in
  let acceptHeader := default "" (or_str (accept req) (Some "")) in
  let supportsSSE := includes acceptHeader "text/event-stream" in
  let parseError (e : thrown) (st : Server) (effs : list effect) :=
    (emit res [WriteHead 400 [("Content-Type", "application/json")];
               End (Some (BodyParseError (thrown_string e)))] st, effs) in
  match parsed_body req with
  | Threw e => parseError e st []
  | Returned message =>
      match processJsonRpcRequest message sessionId w st with
      | (st1, effs, Threw e) => parseError e st1 effs
      | (st1, effs, Returned (response, newSessionId)) =>
          if negb (truthy (get_prop message "id")) then
            (emit res [WriteHead 202 []; End None] st1, effs)
          else if supportsSSE then
            let st2 := emit res [WriteHead 200 ([("Content-Type", "text/event-stream");
                                                 ("Cache-Control", "no-cache");
                                                 ("Connection", "keep-alive")]
                                                ++ sessionHeader newSessionId)] st1 in
            let key := or_str newSessionId sessionId in
            let stream := {| Server.res := res;
                             sessionId := default "" (or_str key (Some "default"));
                             lastEventId := Some 0;
                             requestId := get_prop message "id" |} in
            let st3 := set_streamObjects st2 (<[res := stream]> (streamObjects st2)) in
            let st4 := if truthy_str key then addSSEStream (default "" key) res st3 else st3 in
            (sendSSE res response None st4, effs)
          else
            (emit res [WriteHead 200 ([("Content-Type", "application/json")]
                                      ++ sessionHeader newSessionId);
                       End (Some (BodyRpc response))] st1, effs)
      end
  end.

(** The timer set at line 418: ends the response and unregisters the
    stream under the key [handlePost] registered it with. *)
Definition postStreamTimeout (res : conn) (key : option string) (st : Server) : Server :=
  let st1 := emit res [End None] st in
  if truthy_str key then removeSSEStream (default "" key) res st1 else st1.

(** The replay loop of lines 490-494. *)
Definition replay (stream : conn) (queue : list QueuedMessage) (lastId : option Z)
    (st : Server) : Server :=
  foldl (fun st msg =>
           match lastId with
           | Some n => if eventId msg >? n then sendSSE stream (data msg) (Some (eventId msg)) st
                       else st
           | None => st
           end)
        st queue.

(** [handleGet(req, res)]; keepalives and the close handler are
    [keepAlive] and [clientClose]. *)
Definition handleGet (req : Request) (res : conn) (st : Server) : Server :=
  let sessionId := mcp_session_id req in
  let lastEventId_ := last_event_id req in
  let acceptHeader := default "" (or_str (accept req) (Some "")) in
  if negb (includes acceptHeader "text/event-stream") then
    emit res [WriteHead 405 []; End None] st
  else if (truthy_str sessionId &&
           negb (bool_decide (is_Some (sessions st !! default "" sessionId))))%bool then
    emit res [WriteHead 404 [("Content-Type", "application/json")];
              End (Some (BodyError "Session not found"))] st
  else
    let st1 := emit res [WriteHead 200 [("Content-Type", "text/event-stream");
                                        ("Cache-Control", "no-cache");
                                        ("Connection", "keep-alive")]] st in
    let stream := {| Server.res := res;
                     sessionId := default "" (or_str sessionId (Some "default"));
                     lastEventId := if truthy_str lastEventId_
                                    then parseInt (default "" lastEventId_) else Some 0;
                     requestId := None |} in
    let st2 := set_streamObjects st1 (<[res := stream]> (streamObjects st1)) in
    if truthy_str sessionId then
      let st3 := addSSEStream (default "" sessionId) res st2 in
      if truthy_str lastEventId_ then
        let queue := default [] (messageQueues st3 !! default "" sessionId) in
        let lastId := parseInt (default "" lastEventId_) in
        replay res queue lastId st3
      else st3
    else st2.

Definition keepAlive (res : conn) (st : Server) : Server := emit res [WriteKeepalive] st.

(** The [close] handler of a GET stream. *)
Definition clientClose (res : conn) (sessionId : option string) (st : Server) : Server :=
  if truthy_str sessionId then removeSSEStream (default "" sessionId) res st else st.

(** [handleDelete(req, res)] *)
Definition handleDelete (req : Request) (res : conn) (st : Server) : Server :=
  let sessionId := mcp_session_id req in
  if negb (truthy_str sessionId) then
    emit res [WriteHead 400 [("Content-Type", "application/json")];
              End (Some (BodyError "Missing Mcp-Session-Id header"))] st
  else
    let sid := default "" sessionId in
    if bool_decide (is_Some (sessions st !! sid)) then
      emit res [WriteHead 200 []; End None]
        (set_messageQueues
           (set_sseStreams (set_sessions st (delete sid (sessions st)))
                           (delete sid (sseStreams st)))
           (delete sid (messageQueues st)))
    else emit res [WriteHead 404 []; End None] st.

(** The request listener of [createHttpServer] (the CORS headers, which
    every response carries alike, are left out). *)
Definition createHttpServer (req : Request) (res : conn) (w : World) (st : Server)
  : Server * list effect :=
  if negb (validateOrigin req) then
    (emit res [WriteHead 403 [("Content-Type", "application/json")];
               End (Some (BodyError "Invalid origin"))] st, [])
  else match method req with
  | OPTIONS => (emit res [WriteHead 200 []; End None] st, [])
  | m =>
      if (match m with GET => true | _ => false end && String.eqb (url req) "/health")%bool then
        (emit res [WriteHead 200 [("Content-Type", "application/json")];
                   End (Some (BodyHealth (size (sessions st))))] st, [])
      else if (String.eqb (url req) "/mcp" || String.eqb (url req) "/")%bool then
        match m with
        | POST => handlePost req res w st
        | GET => (handleGet req res st, [])
        | DELETE => (handleDelete req res st, [])
        | _ => (emit res [WriteHead 405 []; End None] st, [])
        end
      else (emit res [WriteHead 404 [("Content-Type", "application/json")];
                      End (Some (BodyError "Not found"))] st, [])
  end.

(** *** The server as a transition system *)

(** What can happen to a running server: a request arrives, or one of its
    timers or close handlers fires. *)
Inductive event : Type :=
| Incoming (req : Request) (res : conn) (w : World)
| SweepSessions (now : Z)
| SweepLimits (now : Z)
| PostStreamTimeout (res : conn) (key : option string)
| KeepAlive (res : conn)
| ClientClose (res : conn) (sessionId : option string).

Definition step (ev : event) (st : Server) : Server :=
  match ev with
  | Incoming req res w => (createHttpServer req res w st).1
  | SweepSessions now => cleanupSessions now st
  | SweepLimits now => set_rateLimiter st (RateLimit.cleanup now (rateLimiter st))
  | PostStreamTimeout res key => postStreamTimeout res key st
  | KeepAlive res => keepAlive res st
  | ClientClose res sessionId => clientClose res sessionId st
  end.

Definition run (evs : list event) (st : Server) : Server :=
  foldl (fun st ev => step ev st) st evs.

(** [randomUUID] never returns the empty string. *)
Definition event_ok (ev : event) : Prop :=
  match ev with
  | Incoming _ _ w => uuid w ≠ ""
  | _ => True
  end.

(** The states a server started with the given limits can be in. *)
Inductive Reachable (windowMs max : Z) : Server -> Prop :=
| reach_init : Reachable windowMs max (newServer windowMs max)
| reach_step st ev :
    Reachable windowMs max st -> event_ok ev -> Reachable windowMs max (step ev st).

(** What has been written to one response. *)
Definition written (res : conn) (st : Server) : list output :=
  omap (fun '(c, o) => if Nat.eqb c res then Some o else None) (wire st).

(** The events ([id], [data]) among the calls on a response. *)
Fixpoint eventsOf (outs : list output) : list (Z * rpc_response) :=
  match outs with
  | WriteEventId i :: WriteEventData d :: rest => (i, d) :: eventsOf rest
  | _ :: rest => eventsOf rest
  | [] => []
  end.

End Server.

(** ** Notions used to state the properties *)

(** Every stored backoff delay is at most the ceiling. *)
Definition delaysBounded (bm : Backoff.BackoffManager) : Prop :=
  forall k d, Backoff.delays bm !! k = Some d -> d <= Backoff.maxDelay.

(** Every session is filed under its own id, and no id is empty. *)
Definition sessionsKeyed (st : Server.Server) : Prop :=
  forall k s, Server.sessions st !! k = Some s -> Server.id s = k /\ k ≠ "".

Fixpoint remove_key {A : Type} (k : string) (l : list (string * A)) : list (string * A) :=
  match l with
  | [] => []
  | (k', v) :: rest =>
      if String.eqb k k' then remove_key k rest else (k', v) :: remove_key k rest
  end.

(** The same message sent as a notification: without its [id] member. *)
Definition without_id (message : json) : json :=
  match message with
  | JObj props => JObj (remove_key "id" props)
  | v => v
  end.

(** Fan-out as the design document words it: a send on a stream reaches
    every stream registered for the stream's session. *)
Definition sendReachesAllStreams (st : Server.Server) (stream : Server.conn)
    (data : Server.rpc_response) : Prop :=
  forall s c,
    Server.streamObjects st !! stream = Some s ->
    c ∈ default [] (Server.sseStreams st !! Server.sessionId s) ->
    Server.written c (Server.sendSSE stream data None st)
      = Server.written c st ++ [Server.WriteEventId (Server.globalEventId st + 1);
                                Server.WriteEventData data].

(** The same request with another body. *)
Definition with_body (req : Server.Request) (b : outcome json) : Server.Request :=
  {| Server.method := Server.method req; Server.url := Server.url req;
     Server.origin := Server.origin req;
     Server.mcp_session_id := Server.mcp_session_id req;
     Server.accept := Server.accept req;
     Server.last_event_id := Server.last_event_id req;
     Server.parsed_body := b |}.

(** The 202 acknowledgement: a status line and nothing else. *)
Definition accepted (res : Server.conn) : list (Server.conn * Server.output) :=
  [(res, Server.WriteHead 202 []); (res, Server.End None)].

(** ** Concrete traffic *)

Module Scenario.
Import Server.

Definition world (t : Z) (u : string) : World :=
  {| now := t; uuid := u; random := 1 # 2;
     hostname := Returned "example.com";
     collaborator := Returned (JObj [("results", JArr [])]) |}.

Definition envelope (i : option json) (m : string) (params : option json) : json :=
  JObj ([("jsonrpc", JStr "2.0")]
        ++ match i with Some i => [("id", i)] | None => [] end
        ++ [("method", JStr m)]
        ++ match params with Some p => [("params", p)] | None => [] end).

Definition post (session : option string) (acc : string) (message : json) : Request :=
  {| method := POST; url := "/mcp"; origin := None; mcp_session_id := session;
     accept := Some acc; last_event_id := None; parsed_body := Returned message |}.

Definition get (session : option string) (lastEventId : option string) : Request :=
  {| method := GET; url := "/mcp"; origin := None; mcp_session_id := session;
     accept := Some "text/event-stream"; last_event_id := lastEventId;
     parsed_body := Returned JNull |}.

Definition json_only : string := "application/json".
Definition json_or_sse : string := "application/json, text/event-stream".

Definition initialize_ : json := envelope (Some (JNum 1)) "initialize" (Some (JObj [])).
Definition toolsList : json := envelope (Some (JNum 2)) "tools/list" None.
Definition searchCall : json :=
  envelope (Some (JNum 7)) "tools/call"
    (Some (JObj [("name", JStr "google_news_search");
                 ("arguments", JObj [("topic", JStr "rocq")])])).

Definition server0 : Server := newServer 60000 120.

(** A client initializes over SSE (event 1 is delivered on its stream for
    the new session "s1"), the stream is closed, and the client comes
    back with Last-Event-ID: 0. *)
Definition resume : list event :=
  [Incoming (post None json_or_sse initialize_) 1%nat (world 1000 "s1");
   PostStreamTimeout 1%nat (Some "s1");
   Incoming (get (Some "s1") (Some "0")) 2%nat (world 2000 "u2")].

(** A session "s1" with two listening streams, 2 and 3. *)
Definition twoListeners : list event :=
  [Incoming (post None json_only initialize_) 1%nat (world 1000 "s1");
   Incoming (get (Some "s1") None) 2%nat (world 2000 "u2");
   Incoming (get (Some "s1") None) 3%nat (world 3000 "u3")].

(** A session created at t = 1000, used again at t = 3600000, and the
    hourly sweep one second after the hour. *)
Definition keptBusy : list event :=
  [Incoming (post None json_only initialize_) 1%nat (world 1000 "s1");
   Incoming (post (Some "s1") json_only toolsList) 2%nat (world 3600000 "u2")].

Definition pingResponse : rpc_response :=
  {| rpc_id := Some (JNum 9); rpc_payload_of := RpcResult PingResult |}.

End Scenario.

(** ** errors.ts *)

(** [MCPErrorException.toMCPError()], on the fields of the exception. *)
Definition toMCPError (code message : string) (details : option json) : json :=
  JObj ([("code", JStr code); ("message", JStr message)]
        ++ match details with Some d => [("details", d)] | None => [] end).

(** [handleGoogleCSEError(status, statusText)] *)
Definition handleGoogleCSEError (status : Z) (statusText : string) : json :=
  if status =? 429 then
    createMCPError "RATE_LIMITED" "Upstream rate limit from Google CSE."
      (Some (JObj [("retryAfterMs", JNum 4000); ("upstreamStatus", JNum status)]))
  else if status =? 403 then
    createMCPError "AUTH_FAILED" "Google CSE authentication failed. Check your API key and CX."
      (Some (JObj [("upstreamStatus", JNum status)]))
  else if status =? 400 then
    createMCPError "INVALID_INPUT" "Invalid request parameters for Google CSE."
      (Some (JObj [("upstreamStatus", JNum status)]))
  else
    createMCPError "UPSTREAM_ERROR"
      ("Google CSE error: " +:+ pretty status +:+ " " +:+ statusText)
      (Some (JObj [("upstreamStatus", JNum status)])).




(** ** Further notions for the rate governor and the server *)

(** The effects of a series of wrapped calls, in order. *)
Fixpoint runEffects {T : Type} (calls : list (Backoff.call T)) (bm : Backoff.BackoffManager)
  : list effect :=
  match calls with
  | [] => []
  | c :: rest =>
      let '(bm', effs, _) :=
        Backoff.withBackoff (Backoff.call_key c) (Backoff.call_outcome c)
          (Backoff.call_random c) bm in
      effs ++ runEffects rest bm'
  end.

(** [n] failures in a row for one key. *)
Definition failing {T : Type} (key : string) (error : thrown) (randoms : list Q)
  : list (Backoff.call T) :=
  map (fun r => {| Backoff.call_key := key; Backoff.call_outcome := Threw error;
                   Backoff.call_random := r |}) randoms.

(** The event ids written to any response, oldest first. *)
Definition wireEventIds (w : list (Server.conn * Server.output)) : list Z :=
  omap (fun '(_, o) => match o with Server.WriteEventId i => Some i | _ => None end) w.

Definition isHead (o : Server.output) : bool :=
  match o with Server.WriteHead _ _ => true | _ => false end.

(** A session the sweep at [now] takes for idle. *)
Definition idle (now : Z) (s : Server.Session) : Prop :=
  now - Server.lastAccessedAt s > Server.sessionTimeout.

(** The keys the sweep at [now] deletes, read off a snapshot of the
    session map the way the loop of [cleanupSessions] tests them. *)
Definition sweptKeys (now : Z) (l : list (string * Server.Session)) : list string :=
  omap (fun '(k, s) =>
          if now - Server.lastAccessedAt s >? Server.sessionTimeout then Some k else None) l.

(** A request was answered on [res]: one response head, with one of the
    statuses the server uses, then calls that are not heads, all on [res]. *)
Definition answeredOn (res : Server.conn) (before after : list (Server.conn * Server.output))
  : Prop :=
  exists status headers rest,
    after = before ++ (res, Server.WriteHead status headers) :: map (fun o => (res, o)) rest /\
    In status [200; 202; 400; 404; 405] /\
    Forall (fun o => isHead o = false) rest.

(** ** utils.ts, googleNewsSearch.ts, config.ts *)

(** Library functions whose meaning lies in Unicode tables, regular
    expressions or the URL parser are taken from the platform. *)
Record Platform : Type := {
  toLowerCase : string -> string;        (* s.toLowerCase() *)
  trim : string -> string;               (* s.trim() *)
  stripNonWord : string -> string;       (* s.replace(/[^\w\s]/g, "") *)
  collapseSpaces : string -> string;     (* s.replace(/\s+/g, " ") *)
  urlHostname : string -> option string  (* new URL(url).hostname; None when it throws *)
}.

(** [s.endsWith(suffix)] *)
Fixpoint endsWith (s suffix : string) : bool :=
  String.eqb s suffix ||
  match s with
  | String _ rest => endsWith rest suffix
  | EmptyString => false
  end.

(** [s.replace(/^www\./, "")] *)
Definition stripWww (s : string) : string :=
  if String.prefix "www." s then String.substring 4 (String.length s - 4) s else s.

Module News.

Record Signals : Type := {
  hasNewsSchema : bool;
  hasPublishedTime : bool;
  opinionLikely : bool;
  blockedReason : option string
}.

Record NewsSearchResult : Type := {
  title : string;
  snippet : string;
  url : string;
  source : string;
  date : option string;
  lang : option string;
  signals : Signals
}.

Record Pagemap : Type := {
  metatags : option (list (list (string * string)));
  newsarticle : option (list json)
}.

Record GoogleCSEItem : Type := {
  item_title : string;
  item_snippet : string;
  link : string;
  displayLink : string;
  pagemap : option Pagemap
}.

(** The members of [ServerConfig] that the filters read. *)
Record ServerConfig : Type := {
  allowOpinion : bool;
  allowedDomains : list string;
  blockedDomains : list string
}.

Record EnvironmentConfig : Type := {
  GOOGLE_CSE_KEY : string;
  GOOGLE_CSE_CX : string;
  NEWS_DEFAULT_GL : string;
  NEWS_DEFAULT_HL : string;
  NEWS_DEFAULT_LR : string;
  NEWS_DEFAULT_DATE_RESTRICT : string;
  FETCH_TIMEOUT_MS : option Z;       (* [None] is NaN *)
  FETCH_MAX_CHARS : option Z;
  USER_AGENT : string
}.

(** An input of the shape the tool's input schema declares: [None] is an
    absent member, and [num] is an integer. *)
Record GoogleNewsSearchInput : Type := {
  topic : string;
  dateRestrict : option string;
  gl : option string;
  hl : option string;
  lr : option string;
  num : option Z;
  primaryOnly : option bool
}.

(** What [fetch] resolved to, as far as [search] looks at it; [items] is
    [data.items] of the body once [response.json()] has parsed it. *)
Record FetchResponse : Type := {
  ok : bool;
  status : Z;
  statusText : string;
  items : outcome (option (list GoogleCSEItem))
}.

Section WithPlatform.
Variable P : Platform.

Definition normalizeTitle (title : string) : string :=
  trim P (collapseSpaces P (stripNonWord P (toLowerCase P title))).

Definition extractDomain (url : string) : string :=
  match urlHostname P url with
  | Some hostname => stripWww hostname
  | None => ""
  end.

(** [domain === entry || domain.endsWith("." + entry)] *)
Definition domainMatches (domain entry : string) : bool :=
  String.eqb domain entry || endsWith domain ("." +:+ entry).

Definition isBlockedDomain (url : string) (config : ServerConfig) : bool :=
  let domain := extractDomain url in
  if (0 <? length (allowedDomains config))%nat
  then negb (existsb (domainMatches domain) (allowedDomains config))
  else existsb (domainMatches domain) (blockedDomains config).

Definition opinionKeywords : list string :=
  ["opinion"; "editorial"; "commentary"; "analysis"; "perspective"; "viewpoint";
   "think"; "believe"; "should"; "must"; "op-ed"].

Definition isOpinionContent (title snippet : string) : bool :=
  let content := toLowerCase P (title +:+ " " +:+ snippet) in
  existsb (fun keyword => includes content keyword) opinionKeywords.

(** [item.pagemap?.metatags?.[0]?.[key]] *)
Definition firstMetatag (item : GoogleCSEItem) (key : string) : option string :=
  match pagemap item with
  | Some pm =>
      match metatags pm with
      | Some (first :: _) => assoc key first
      | _ => None
      end
  | None => None
  end.

Definition mapGoogleCSEItem (item : GoogleCSEItem) : NewsSearchResult :=
  let signals :=
    {| hasNewsSchema :=
         match pagemap item with
         | Some pm => bool_decide (is_Some (newsarticle pm))
         | None => false
         end;
       hasPublishedTime := truthy_str (firstMetatag item "article:published_time");
       opinionLikely := isOpinionContent (item_title item) (item_snippet item);
       blockedReason := None |} in
  {| title := item_title item;
     snippet := item_snippet item;
     url := link item;
     source := displayLink item;
     date := Server.or_str (firstMetatag item "article:published_time") None;
     lang := Server.or_str (Some (String.substring 0 2
                             (default "" (Server.or_str (firstMetatag item "og:locale") (Some "")))))
                    None;
     signals := signals |}.

Definition nonArticleKeywords : list string :=
  ["podcast"; "video"; "watch"; "listen"; "homepage"; "index"; "directory";
   "app store"; "download"].

(** The callback of [items.filter] in [applyPrimaryFilters]: whether the
    item is kept.  (A rejected item also gets its blockedReason set; it is
    not part of the result.) *)
Definition keepItem (config : ServerConfig) (item : NewsSearchResult) : bool :=
  if isBlockedDomain (url item) config then false
  else if (negb (allowOpinion config) && opinionLikely (signals item))%bool then false
  else
    let hasGoodMetadata :=
      (hasNewsSchema (signals item) || hasPublishedTime (signals item))%bool in
    let title_ := toLowerCase P (title item) in
    let isNonArticle := existsb (fun keyword => includes title_ keyword) nonArticleKeywords in
    if isNonArticle then false
    else (hasGoodMetadata || bool_decide (is_Some (date item)))%bool.

Definition applyPrimaryFilters (items : list NewsSearchResult) (config : ServerConfig)
  : list NewsSearchResult :=
  List.filter (keepItem config) items.

(** The key of an item in [dedupeByTitleDomain]. *)
Definition dedupeKey (item : NewsSearchResult) : string :=
  normalizeTitle (title item) +:+ "_" +:+ extractDomain (url item).

Definition metadataScore (item : NewsSearchResult) : Z :=
  (if hasNewsSchema (signals item) then 2 else 0)
  + (if hasPublishedTime (signals item) then 1 else 0).

(** [seen.set(key, item)] on a [Map], which iterates in insertion order:
    an existing key keeps its place. *)
Fixpoint mapSet {A : Type} (key : string) (v : A) (seen : list (string * A))
  : list (string * A) :=
  match seen with
  | [] => [(key, v)]
  | (k, x) :: rest =>
      if String.eqb key k then (k, v) :: rest else (k, x) :: mapSet key v rest
  end.

(** One turn of the loop of [dedupeByTitleDomain]. *)
Definition dedupeStep (seen : list (string * NewsSearchResult)) (item : NewsSearchResult)
  : list (string * NewsSearchResult) :=
  let key := dedupeKey item in
  match assoc key seen with
  | None => mapSet key item seen
  | Some existing =>
      if metadataScore item >? metadataScore existing
      then mapSet key item seen
      else seen
  end.

Definition dedupeByTitleDomain (items : list NewsSearchResult) : list NewsSearchResult :=
  map snd (foldl dedupeStep [] items).

(** The [catch] of [search]: errors with a code pass, others are wrapped. *)
Definition searchCatch (error : thrown) : thrown :=
  if (is_object error && bool_decide (is_Some (thrown_code error)))%bool then error
  else ThrownValue (Some (createMCPError "UPSTREAM_ERROR"
         ("Failed to search Google CSE: " +:+ thrown_string error) None)).

(** [GoogleNewsSearchTool.search(input)].  [fetched] is how the call of
    [fetch] ends, if it is made.  Returns the query parameters of the
    request, when one is sent, and how [search] ends. *)
Definition search (env : EnvironmentConfig) (server : ServerConfig)
    (input : GoogleNewsSearchInput) (fetched : outcome FetchResponse)
  : option (list (string * string)) * outcome (list NewsSearchResult) :=
  let dateRestrict_ := default (NEWS_DEFAULT_DATE_RESTRICT env) (dateRestrict input) in
  let gl_ := default (NEWS_DEFAULT_GL env) (gl input) in
  let hl_ := default (NEWS_DEFAULT_HL env) (hl input) in
  let lr_ := default (NEWS_DEFAULT_LR env) (lr input) in
  let num_ := default 8 (num input) in
  let primaryOnly_ := default true (primaryOnly input) in
  if (String.eqb (topic input) "" || (String.length (trim P (topic input)) =? 0)%nat)%bool then
    (None, Threw (ThrownValue (Some (createMCPError "INVALID_INPUT"
                    "Topic is required and cannot be empty" None))))
  else if ((num_ <? 1) || (num_ >? 10))%bool then
    (None, Threw (ThrownValue (Some (createMCPError "INVALID_INPUT"
                    "Number of results must be between 1 and 10" None))))
  else
    let query := [("key", GOOGLE_CSE_KEY env); ("cx", GOOGLE_CSE_CX env);
                  ("q", topic input); ("num", pretty (Z.min num_ 10));
                  ("gl", gl_); ("hl", hl_); ("lr", lr_);
                  ("dateRestrict", dateRestrict_)] in
    (Some query,
     match fetched with
     | Threw error => Threw (searchCatch error)
     | Returned response =>
         if negb (ok response) then
           Threw (searchCatch (ThrownValue (Some
                    (handleGoogleCSEError (status response) (statusText response)))))
         else
           match items response with
           | Threw error => Threw (searchCatch error)
           | Returned None => Returned []
           | Returned (Some []) => Returned []
           | Returned (Some its) =>
               let mapped := map mapGoogleCSEItem its in
               let mapped' := if primaryOnly_ then applyPrimaryFilters mapped server
                              else mapped in
               let deduped := dedupeByTitleDomain mapped' in
               Returned (take (Z.to_nat num_) deduped)
           end
     end).

End WithPlatform.

(** [process.env[key] || fallback] *)
Definition envOr (env : gmap string string) (key fallback : string) : string :=
  default fallback (Server.or_str (env !! key) (Some fallback)).

(** [Config.loadEnvironmentConfig()], [process.env] being [env]. *)
Definition loadEnvironmentConfig (env : gmap string string) : outcome EnvironmentConfig :=
  let required := ["GOOGLE_CSE_KEY"; "GOOGLE_CSE_CX"] in
  let missing := List.filter (fun key => negb (truthy_str (env !! key))) required in
  if (0 <? length missing)%nat then
    Threw (ThrownError "Error"
             ("Missing required environment variables: " +:+ String.concat ", " missing) None)
  else
    Returned {|
      GOOGLE_CSE_KEY := default "" (env !! "GOOGLE_CSE_KEY");
      GOOGLE_CSE_CX := default "" (env !! "GOOGLE_CSE_CX");
      NEWS_DEFAULT_GL := envOr env "NEWS_DEFAULT_GL" "us";
      NEWS_DEFAULT_HL := envOr env "NEWS_DEFAULT_HL" "en";
      NEWS_DEFAULT_LR := envOr env "NEWS_DEFAULT_LR" "lang_en";
      NEWS_DEFAULT_DATE_RESTRICT := envOr env "NEWS_DEFAULT_DATE_RESTRICT" "d3";
      FETCH_TIMEOUT_MS := parseInt (envOr env "FETCH_TIMEOUT_MS" "12000");
      FETCH_MAX_CHARS := parseInt (envOr env "FETCH_MAX_CHARS" "12000");
      USER_AGENT := envOr env "USER_AGENT"
        "Mozilla/5.0 (Windows NT 10.0; Win64; x64) AppleWebKit/537.36 (KHTML, like Gecko) Chrome/91.0.4472.124 Safari/537.36"
    |}.

(** A platform for examples, adequate for ASCII text and for plain
    http(s) URLs. *)
Definition lowerAscii (a : ascii) : ascii :=
  let n := nat_of_ascii a in
  if (Nat.leb 65 n && Nat.leb n 90)%bool then ascii_of_nat (n + 32) else a.

Fixpoint mapChars (f : ascii -> ascii) (s : string) : string :=
  match s with
  | String a rest => String (f a) (mapChars f rest)
  | EmptyString => EmptyString
  end.

Definition isWordChar (a : ascii) : bool :=
  let n := nat_of_ascii a in
  ((Nat.leb 48 n && Nat.leb n 57) || (Nat.leb 65 n && Nat.leb n 90)
   || (Nat.leb 97 n && Nat.leb n 122) || Nat.eqb n 95)%bool.

Fixpoint filterChars (f : ascii -> bool) (s : string) : string :=
  match s with
  | String a rest => if f a then String a (filterChars f rest) else filterChars f rest
  | EmptyString => EmptyString
  end.

Fixpoint collapseAscii (s : string) : string :=
  match s with
  | String a rest =>
      if is_space a then String " "%char (collapseAscii (skip_spaces rest))
      else String a (collapseAscii rest)
  | EmptyString => EmptyString
  end.

Fixpoint dropTrailingSpaces (s : string) : string :=
  match s with
  | String a rest =>
      match dropTrailingSpaces rest with
      | EmptyString => if is_space a then EmptyString else String a EmptyString
      | rest' => String a rest'
      end
  | EmptyString => EmptyString
  end.

Fixpoint upToSlash (s : string) : string :=
  match s with
  | String a rest => if Ascii.eqb a "/"%char then EmptyString else String a (upToSlash rest)
  | EmptyString => EmptyString
  end.

Definition hostOf (url : string) : option string :=
  if String.prefix "https://" url
  then Some (upToSlash (String.substring 8 (String.length url - 8) url))
  else if String.prefix "http://" url
  then Some (upToSlash (String.substring 7 (String.length url - 7) url))
  else None.

Definition asciiPlatform : Platform :=
  {| toLowerCase := mapChars lowerAscii;
     trim := fun s => dropTrailingSpaces (skip_spaces s);
     stripNonWord := filterChars (fun a => (isWordChar a || is_space a)%bool);
     collapseSpaces := collapseAscii;
     urlHostname := hostOf |}.

End News.

(** * Properties *)

(** ** The rate limiter *)

Section RateLimitFacts.
Import RateLimit.

Lemma with_limits_same rl : with_limits rl (limits rl) = rl.
Proof. by destruct rl. Qed.

(** While a window is running the call works on the stored entry. *)
Lemma currentEntry_live k now rl e :
  limits rl !! k = Some e -> now < resetTime e -> currentEntry k now rl = e.
Proof.
  intros Hk Hlt. unfold currentEntry. rewrite Hk.
  destruct (Z.geb_spec now (resetTime e)); [lia | done].
Qed.

(** With no window running the call opens one, counted from zero. *)
Lemma currentEntry_closed k now rl :
  windowClosed k now rl ->
  currentEntry k now rl = {| count := 0; resetTime := now + windowMs rl |}.
Proof.
  unfold windowClosed, currentEntry. destruct (limits rl !! k) as [e|]; [|done].
  intros Hle. destruct (Z.geb_spec now (resetTime e)); [done | lia].
Qed.

(** An admitted call stores the entry it worked on, counted once more. *)
Lemma checkLimit_admit k now rl :
  count (currentEntry k now rl) < maxRequests rl ->
  checkLimit k now rl =
    (with_limits rl (<[k := {| count := count (currentEntry k now rl) + 1;
                               resetTime := resetTime (currentEntry k now rl) |}]> (limits rl)),
     Returned tt).
Proof.
  unfold checkLimit, currentEntry. destruct (limits rl !! k) as [e|] eqn:Hk.
  - destruct (Z.geb_spec now (resetTime e)); simpl; intros Hc.
    + destruct (Z.geb_spec 0 (maxRequests rl)); [lia|]. by rewrite insert_insert_eq.
    + destruct (Z.geb_spec (count e) (maxRequests rl)); [lia | done].
  - simpl. intros Hc.
    destruct (Z.geb_spec 0 (maxRequests rl)); [lia|]. by rewrite insert_insert_eq.
Qed.

(** A rejected call stores the entry it worked on as it is. *)
Lemma checkLimit_reject k now rl :
  maxRequests rl <= count (currentEntry k now rl) ->
  (checkLimit k now rl).2 =
    Threw (rateLimitedError (resetTime (currentEntry k now rl) - now)
             (maxRequests rl) (windowMs rl)) /\
  limits (checkLimit k now rl).1 !! k = Some (currentEntry k now rl) /\
  (forall e, limits rl !! k = Some e -> now < resetTime e -> (checkLimit k now rl).1 = rl).
Proof.
  unfold checkLimit, currentEntry. destruct (limits rl !! k) as [e|] eqn:Hk.
  - destruct (Z.geb_spec now (resetTime e)); simpl; intros Hc.
    + destruct (Z.geb_spec 0 (maxRequests rl)); [|lia]. simpl.
      rewrite lookup_insert_eq. split_and!; [done..|]. intros e' [= <-]. lia.
    + destruct (Z.geb_spec (count e) (maxRequests rl)); [|lia]. simpl.
      split_and!; [done..|]. intros. apply with_limits_same.
  - simpl. intros Hc. destruct (Z.geb_spec 0 (maxRequests rl)); [|lia]. simpl.
    rewrite lookup_insert_eq. split_and!; [done..|]. intros e' [=].
Qed.

Lemma checkLimit_params k now rl :
  windowMs (checkLimit k now rl).1 = windowMs rl /\
  maxRequests (checkLimit k now rl).1 = maxRequests rl.
Proof. unfold checkLimit. repeat case_match; simplify_eq; done. Qed.

(** A run inside one running window admits calls until the counter
    reaches the maximum and none after. *)
Lemma checkLimits_live k ts : forall rl e,
  limits rl !! k = Some e ->
  Forall (fun t => t < resetTime e) ts ->
  let '(rl', rs) := checkLimits k ts rl in
  let n := Z.min (Z.of_nat (length ts)) (Z.max 0 (maxRequests rl - count e)) in
  admitted rs = n /\
  length rs = length ts /\
  (Z.of_nat (length ts) <= maxRequests rl - count e -> Forall (fun r => r = Returned tt) rs) /\
  limits rl' !! k = Some {| count := count e + n; resetTime := resetTime e |} /\
  windowMs rl' = windowMs rl /\ maxRequests rl' = maxRequests rl.
Proof.
  induction ts as [|t ts IH]; intros rl e Hk Hts.
  - simpl. split_and!; try done; [lia|].
    rewrite Hk. f_equal. destruct e; simpl; f_equal; lia.
  - apply Forall_cons in Hts as [Ht Hts]. simpl.
    pose proof (currentEntry_live k t rl e Hk Ht) as Hcur.
    destruct (Z.lt_ge_cases (count e) (maxRequests rl)) as [Hlt|Hge].
    + rewrite checkLimit_admit by (rewrite Hcur; done). rewrite Hcur.
      set (e1 := {| count := count e + 1; resetTime := resetTime e |}).
      set (rl1 := with_limits rl (<[k:=e1]> (limits rl))).
      specialize (IH rl1 e1). destruct (checkLimits k ts rl1) as [rl' rs].
      destruct IH as (Ha & Hl & Hall & Hfin & Hw & Hm).
      { subst rl1; simpl. apply lookup_insert_eq. }
      { done. }
      subst rl1 e1; simpl in *. split_and!; try done.
      * rewrite Ha. lia.
      * by rewrite Hl.
      * intros Hn. constructor; [done|]. apply Hall. lia.
      * rewrite Hfin. f_equal. f_equal. lia.
    + destruct (checkLimit_reject k t rl) as (Hr & _ & Hsame); [rewrite Hcur; lia|].
      specialize (Hsame e Hk Ht). destruct (checkLimit k t rl) as [rl1 r]. simpl in Hr, Hsame. subst rl1 r.
      specialize (IH rl e Hk Hts). destruct (checkLimits k ts rl) as [rl' rs].
      destruct IH as (Ha & Hl & Hall & Hfin & Hw & Hm). simpl.
      split_and!; try done.
      * rewrite Ha. lia.
      * by rewrite Hl.
      * intros Hn. lia.
      * rewrite Hfin. f_equal. f_equal. lia.
Qed.

(** A call is rejected only when the counter of its entry has reached the
    maximum. *)
Lemma checkLimit_rejected_full k now rl :
  is_returned (checkLimit k now rl).2 = false ->
  maxRequests rl <= count (currentEntry k now rl).
Proof.
  intros Hrej. destruct (Z.lt_ge_cases (count (currentEntry k now rl)) (maxRequests rl)); [|done].
  rewrite checkLimit_admit in Hrej by done. done.
Qed.

(** C5. Configured with windowMs = 60000 and max = 120, for any client key:
    the 120 calls of a window (the one that opens it and 119 more before it
    ends) all succeed; a 121st call inside the window is rejected with
    RATE_LIMITED and retryAfterMs = resetTime - now; a call made once the
    window has elapsed finds the counter reset to zero and succeeds. *)
Theorem rate_governor_window (k : string) (rl : RateLimiter) (t0 : Z) (ts : list Z)
    (t121 tnext : Z) :
  windowMs rl = 60000 -> maxRequests rl = 120 ->
  windowClosed k t0 rl ->
  length ts = 119%nat ->
  Forall (fun t => t < t0 + 60000) ts ->
  t121 < t0 + 60000 -> t0 + 60000 <= tnext ->
  let '(rl1, first120) := checkLimits k (t0 :: ts) rl in
  let '(rl2, r121) := checkLimit k t121 rl1 in
  let '(rl3, rnext) := checkLimit k tnext rl2 in
  length first120 = 120%nat /\
  Forall (fun r => r = Returned tt) first120 /\
  r121 = Threw (rateLimitedError (t0 + 60000 - t121) 120 60000) /\
  limits rl2 !! k = Some {| count := 120; resetTime := t0 + 60000 |} /\
  currentEntry k tnext rl2 = {| count := 0; resetTime := tnext + 60000 |} /\
  rnext = Returned tt /\
  limits rl3 !! k = Some {| count := 1; resetTime := tnext + 60000 |}.
Proof.
  intros Hw Hm Hclosed Hlen Hts H121 Hnext. simpl.
  pose proof (currentEntry_closed k t0 rl Hclosed) as Hcur0.
  rewrite checkLimit_admit by (rewrite Hcur0, Hm; simpl; lia).
  rewrite Hcur0, Hw. simpl.
  set (e1 := {| count := 0 + 1; resetTime := t0 + 60000 |}).
  set (rla := with_limits rl (<[k:=e1]> (limits rl))).
  pose proof (checkLimits_live k ts rla e1) as Hrun.
  destruct (checkLimits k ts rla) as [rl1 rs].
  destruct Hrun as (_ & Hl & Hall & Hfin & Hw1 & Hm1);
    [apply lookup_insert_eq | done |].
  subst rla e1. simpl in *. rewrite Hm, Hlen in *.
  replace (0 + 1 + Z.of_nat 119 `min` (0 `max` (120 - (0 + 1)))) with 120 in Hfin by lia.
  set (e := {| count := 120; resetTime := t0 + 60000 |}) in *.
  pose proof (currentEntry_live k t121 rl1 e Hfin H121) as Hcur1.
  destruct (checkLimit_reject k t121 rl1) as (Hr & _ & Hsame);
    [rewrite Hcur1, Hm1; simpl; lia|].
  specialize (Hsame e Hfin H121).
  destruct (checkLimit k t121 rl1) as [rl2 r121]. simpl in Hr, Hsame. subst rl2 r121.
  assert (windowClosed k tnext rl1) as Hclosed1.
  { unfold windowClosed. rewrite Hfin. simpl. lia. }
  pose proof (currentEntry_closed k tnext rl1 Hclosed1) as Hcur2.
  rewrite checkLimit_admit by (rewrite Hcur2, Hm1; simpl; lia).
  rewrite Hcur1, Hcur2, Hw1, Hm1, Hw. simpl.
  split_and!; try done.
  - by rewrite Hl.
  - constructor; [done|]. apply Hall. lia.
  - apply lookup_insert_eq.
Qed.

Lemma rate_governor_window_witness :
  let rl := newRateLimiter 60000 120 in
  let '(rl1, first120) := checkLimits "default-client" (0 :: replicate 119 1) rl in
  let '(rl2, r121) := checkLimit "default-client" 59999 rl1 in
  let '(rl3, rnext) := checkLimit "default-client" 60000 rl2 in
  length first120 = 120%nat /\
  Forall (fun r => r = Returned tt) first120 /\
  r121 = Threw (rateLimitedError (0 + 60000 - 59999) 120 60000) /\
  limits rl2 !! "default-client" = Some {| count := 120; resetTime := 0 + 60000 |} /\
  currentEntry "default-client" 60000 rl2 = {| count := 0; resetTime := 60000 + 60000 |} /\
  rnext = Returned tt /\
  limits rl3 !! "default-client" = Some {| count := 1; resetTime := 60000 + 60000 |}.
Proof.
  apply (rate_governor_window "default-client" (newRateLimiter 60000 120) 0
           (replicate 119 1) 59999 60000).
  - reflexivity.
  - reflexivity.
  - exact I.
  - reflexivity.
  - apply Forall_replicate. lia.
  - lia.
  - lia.
Defined.

(** C10. A rejected call leaves the counter of the client's window as it
    was (the stored entry is the one the call worked on, and a running
    window's limiter is unchanged altogether), so rejected attempts consume
    no capacity: for a maximum that is not negative, of the calls made
    within one window exactly max are admitted once at least max were made,
    the number admitted being min(calls, max). *)
Theorem rejected_calls_consume_nothing (k : string) (rl : RateLimiter) (t0 : Z) (ts : list Z) :
  0 <= maxRequests rl ->
  windowClosed k t0 rl ->
  Forall (fun t => t < t0 + windowMs rl) ts ->
  (forall now rl0,
     is_returned (checkLimit k now rl0).2 = false ->
     limits (checkLimit k now rl0).1 !! k = Some (currentEntry k now rl0) /\
     (forall e, limits rl0 !! k = Some e -> now < resetTime e ->
                (checkLimit k now rl0).1 = rl0)) /\
  admitted (checkLimits k (t0 :: ts) rl).2
    = Z.min (Z.of_nat (length (t0 :: ts))) (maxRequests rl).
Proof.
  intros Hmax Hclosed Hts. split.
  - intros now rl0 Hrej. apply checkLimit_rejected_full in Hrej.
    destruct (checkLimit_reject k now rl0 Hrej) as (_ & Hstored & Hsame). done.
  - simpl. pose proof (currentEntry_closed k t0 rl Hclosed) as Hcur0.
    destruct (Z.lt_ge_cases 0 (maxRequests rl)) as [Hpos|Hzero].
    + rewrite checkLimit_admit by (rewrite Hcur0; simpl; lia). rewrite Hcur0. simpl.
      set (e1 := {| count := 0 + 1; resetTime := t0 + windowMs rl |}).
      set (rla := with_limits rl (<[k:=e1]> (limits rl))).
      pose proof (checkLimits_live k ts rla e1) as Hrun.
      destruct (checkLimits k ts rla) as [rl1 rs].
      destruct Hrun as (Ha & _); [apply lookup_insert_eq | done |].
      subst rla e1. simpl in *. rewrite Ha. lia.
    + destruct (checkLimit_reject k t0 rl) as (Hr & Hstored & _);
        [rewrite Hcur0; simpl; lia|].
      pose proof (checkLimit_params k t0 rl) as [Hw1 Hm1].
      destruct (checkLimit k t0 rl) as [rl1 r]. simpl in *. subst r.
      rewrite Hcur0 in Hstored.
      pose proof (checkLimits_live k ts rl1 _ Hstored) as Hrun.
      destruct (checkLimits k ts rl1) as [rl2 rs].
      destruct Hrun as (Ha & _); [done|].
      simpl in *. rewrite Ha, Hm1. lia.
Qed.

Lemma rejected_calls_consume_nothing_witness :
  (forall now rl0,
     is_returned (checkLimit "default-client" now rl0).2 = false ->
     limits (checkLimit "default-client" now rl0).1 !! "default-client"
       = Some (currentEntry "default-client" now rl0) /\
     (forall e, limits rl0 !! "default-client" = Some e -> now < resetTime e ->
                (checkLimit "default-client" now rl0).1 = rl0)) /\
  admitted (checkLimits "default-client" (0 :: [10; 20; 30; 40]) (newRateLimiter 60000 3)).2
    = Z.min (Z.of_nat (length (0 :: [10; 20; 30; 40])))
            (maxRequests (newRateLimiter 60000 3)).
Proof.
  apply (rejected_calls_consume_nothing "default-client" (newRateLimiter 60000 3) 0
           [10; 20; 30; 40]).
  - simpl. lia.
  - exact I.
  - repeat constructor; simpl; lia.
Defined.

End RateLimitFacts.

(** ** The backoff manager *)

Section BackoffFacts.
Import Backoff.

(** The jittered sleep stays within a quarter of the current delay. *)
Lemma delayWithJitter_bounds (currentDelay : Z) (random : Q) :
  400 <= currentDelay ->
  (0 <= random)%Q -> (random < 1)%Q ->
  (inject_Z currentDelay * (3 # 4) <= delayWithJitter currentDelay random)%Q /\
  (delayWithJitter currentDelay random <= inject_Z currentDelay * (5 # 4))%Q.
Proof.
  intros Hcd Hr0 Hr1. unfold delayWithJitter.
  assert (400 <= inject_Z currentDelay)%Q as Hc.
  { change 400%Q with (inject_Z 400). rewrite <- Zle_Qle. done. }
  set (c := inject_Z currentDelay) in *.
  assert (c * (3 # 4) <= c + c * (1 # 4) * (random * 2 - 1))%Q as Hlo by nra.
  assert (c + c * (1 # 4) * (random * 2 - 1) <= c * (5 # 4))%Q as Hhi by nra.
  split.
  - eapply Qle_trans; [exact Hlo|]. apply Q.le_max_r.
  - apply Q.max_lub; [nra | exact Hhi].
Qed.

Lemma withBackoff_bounded {T : Type} key (operation : outcome T) random bm :
  delaysBounded bm -> delaysBounded (withBackoff key operation random bm).1.1.
Proof.
  intros Hb k d. unfold withBackoff. destruct operation as [v|error]; simpl.
  - intros [_ Hd]%lookup_delete_Some. by eapply Hb.
  - destruct (isRateLimited error); simpl; [|by apply Hb].
    intros [[_ <-]|[_ Hd]]%lookup_insert_Some; [lia | by eapply Hb].
Qed.

Lemma run_bounded {T : Type} (calls : list (call T)) : forall bm,
  delaysBounded bm -> delaysBounded (run calls bm).
Proof.
  induction calls as [|c calls IH]; intros bm Hb; simpl; [done|].
  apply IH. by apply withBackoff_bounded.
Qed.

(** [withBackoff] ends the way the operation ended. *)
Lemma withBackoff_outcome {T : Type} key (operation : outcome T) random bm :
  (withBackoff key operation random bm).2 = operation.
Proof. unfold withBackoff. destruct operation; [done|]. by destruct (isRateLimited _). Qed.

(** A rate-limited failure: what is slept and what is stored. *)
Lemma withBackoff_rate_limited {T : Type} key error random bm :
  isRateLimited error = true ->
  withBackoff (T := T) key (Threw error) random bm =
    ({| delays := <[key := Z.min (currentDelayOf key bm * 2) maxDelay]> (delays bm) |},
     [EffOperation key; EffSleep (delayWithJitter (currentDelayOf key bm) random)],
     Threw error).
Proof. intros H. unfold withBackoff. by rewrite H. Qed.

(** C6. Three consecutive RATE_LIMITED failures of the collaborator for a
    key with no stored delay make withBackoff sleep about 1s, 2s and 4s
    (each within 25% of it); no stored delay ever exceeds 32000 ms, whatever
    calls came before; a success after them deletes the key's delay; and
    withBackoff ends with the very failure the operation ended with, rate
    limited or not. *)
Theorem backoff_contract {T : Type} (key : string) (error other : thrown) (result : T)
    (history : list (call T)) (r1 r2 r3 r4 : Q) :
  let bm := run history newBackoffManager in
  isRateLimited error = true ->
  delays bm !! key = None ->
  (0 <= r1)%Q /\ (r1 < 1)%Q -> (0 <= r2)%Q /\ (r2 < 1)%Q -> (0 <= r3)%Q /\ (r3 < 1)%Q ->
  let '(bm1, eff1, out1) := withBackoff (T := T) key (Threw error) r1 bm in
  let '(bm2, eff2, out2) := withBackoff (T := T) key (Threw error) r2 bm1 in
  let '(bm3, eff3, out3) := withBackoff (T := T) key (Threw error) r3 bm2 in
  let '(bm4, eff4, out4) := withBackoff key (Returned result) r4 bm3 in
  (exists s1 s2 s3,
     sleeps eff1 = [s1] /\ sleeps eff2 = [s2] /\ sleeps eff3 = [s3] /\
     (750 <= s1)%Q /\ (s1 <= 1250)%Q /\
     (1500 <= s2)%Q /\ (s2 <= 2500)%Q /\
     (3000 <= s3)%Q /\ (s3 <= 5000)%Q) /\
  (out1 = Threw error /\ out2 = Threw error /\ out3 = Threw error) /\
  (delays bm1 !! key = Some 2000 /\ delays bm2 !! key = Some 4000 /\
   delays bm3 !! key = Some 8000) /\
  (forall k d, d ∈ [delays bm !! k; delays bm1 !! k; delays bm2 !! k;
                    delays bm3 !! k; delays bm4 !! k] -> forall x, d = Some x -> x <= 32000) /\
  (out4 = Returned result /\ sleeps eff4 = [] /\ delays bm4 !! key = None) /\
  (withBackoff (T := T) key (Threw other) r4 bm3).2 = Threw other.
Proof.
  intros bm Hrl Hnone [Hr1 Hr1'] [Hr2 Hr2'] [Hr3 Hr3'].
  assert (delaysBounded bm) as Hb0.
  { apply run_bounded. intros k d. unfold newBackoffManager. simpl. by rewrite lookup_empty. }
  pose proof (withBackoff_bounded key (Threw error : outcome T) r1 bm Hb0) as Hb1.
  rewrite withBackoff_rate_limited in * by done.
  assert (currentDelayOf key bm = 1000) as Hc0.
  { unfold currentDelayOf. by rewrite Hnone. }
  rewrite Hc0 in *. simpl in Hb1.
  set (bm1 := {| delays := <[key:=Z.min (1000 * 2) maxDelay]> (delays bm) |}) in *.
  pose proof (withBackoff_bounded key (Threw error : outcome T) r2 bm1 Hb1) as Hb2.
  rewrite withBackoff_rate_limited in * by done.
  assert (currentDelayOf key bm1 = 2000) as Hc1.
  { unfold currentDelayOf, bm1. simpl. by rewrite lookup_insert_eq. }
  rewrite Hc1 in *. simpl in Hb2.
  set (bm2 := {| delays := <[key:=Z.min (2000 * 2) maxDelay]> (delays bm1) |}) in *.
  pose proof (withBackoff_bounded key (Threw error : outcome T) r3 bm2 Hb2) as Hb3.
  rewrite withBackoff_rate_limited in * by done.
  assert (currentDelayOf key bm2 = 4000) as Hc2.
  { unfold currentDelayOf, bm2. simpl. by rewrite lookup_insert_eq. }
  rewrite Hc2 in *. simpl in Hb3.
  set (bm3 := {| delays := <[key:=Z.min (4000 * 2) maxDelay]> (delays bm2) |}) in *.
  pose proof (withBackoff_bounded key (Returned result) r4 bm3 Hb3) as Hb4.
  pose proof (withBackoff_outcome (T := T) key (Threw other) r4 bm3) as Hother.
  simpl in Hb4 |- *.
  destruct (delayWithJitter_bounds 1000 r1) as [L1 U1]; [lia | done..|].
  destruct (delayWithJitter_bounds 2000 r2) as [L2 U2]; [lia | done..|].
  destruct (delayWithJitter_bounds 4000 r3) as [L3 U3]; [lia | done..|].
  split_and!.
  - exists (delayWithJitter 1000 r1), (delayWithJitter 2000 r2), (delayWithJitter 4000 r3).
    split_and!; try reflexivity.
    + eapply Qle_trans; [|exact L1]. by vm_compute.
    + eapply Qle_trans; [exact U1|]. by vm_compute.
    + eapply Qle_trans; [|exact L2]. by vm_compute.
    + eapply Qle_trans; [exact U2|]. by vm_compute.
    + eapply Qle_trans; [|exact L3]. by vm_compute.
    + eapply Qle_trans; [exact U3|]. by vm_compute.
  - done.
  - done.
  - done.
  - apply lookup_insert_eq.
  - subst bm2. simpl. apply lookup_insert_eq.
  - subst bm3. simpl. apply lookup_insert_eq.
  - intros k d Hd x ->. unfold maxDelay, delaysBounded in *.
    rewrite !elem_of_cons, elem_of_nil in Hd.
    destruct Hd as [Hd|[Hd|[Hd|[Hd|[Hd|[]]]]]]; symmetry in Hd.
    + by eapply Hb0.
    + by eapply Hb1.
    + by eapply Hb2.
    + by eapply Hb3.
    + by eapply Hb4.
  - done.
  - done.
  - apply lookup_delete_eq.
  - exact Hother.
Qed.

Lemma backoff_contract_witness :
  let key := "google-cse" in
  let error := ThrownValue (Some (createMCPError "RATE_LIMITED"
                 "Upstream rate limit from Google CSE." None)) in
  let other := ThrownError "TypeError" "fetch failed" None in
  let bm := run (T := json) [] newBackoffManager in
  let '(bm1, eff1, out1) := withBackoff (T := json) key (Threw error) 0 bm in
  let '(bm2, eff2, out2) := withBackoff (T := json) key (Threw error) (1 # 2) bm1 in
  let '(bm3, eff3, out3) := withBackoff (T := json) key (Threw error) (3 # 4) bm2 in
  let '(bm4, eff4, out4) := withBackoff key (Returned JNull) 0 bm3 in
  (exists s1 s2 s3,
     sleeps eff1 = [s1] /\ sleeps eff2 = [s2] /\ sleeps eff3 = [s3] /\
     (750 <= s1)%Q /\ (s1 <= 1250)%Q /\
     (1500 <= s2)%Q /\ (s2 <= 2500)%Q /\
     (3000 <= s3)%Q /\ (s3 <= 5000)%Q) /\
  (out1 = Threw error /\ out2 = Threw error /\ out3 = Threw error) /\
  (delays bm1 !! key = Some 2000 /\ delays bm2 !! key = Some 4000 /\
   delays bm3 !! key = Some 8000) /\
  (forall k d, d ∈ [delays bm !! k; delays bm1 !! k; delays bm2 !! k;
                    delays bm3 !! k; delays bm4 !! k] -> forall x, d = Some x -> x <= 32000) /\
  (out4 = Returned JNull /\ sleeps eff4 = [] /\ delays bm4 !! key = None) /\
  (withBackoff (T := json) key (Threw other) 0 bm3).2 = Threw other.
Proof.
  apply (backoff_contract (T := json) "google-cse"
           (ThrownValue (Some (createMCPError "RATE_LIMITED"
              "Upstream rate limit from Google CSE." None)))
           (ThrownError "TypeError" "fetch failed" None) JNull [] 0 (1 # 2) (3 # 4) 0).
  - reflexivity.
  - reflexivity.
  - split; lra.
  - split; lra.
  - split; lra.
Defined.

End BackoffFacts.

(** ** The server *)

Section ServerFacts.
Import Server.

(** *** What each operation leaves alone *)

Lemma sendSSE_fields stream data eventId st :
  sessions (sendSSE stream data eventId st) = sessions st /\
  messageQueues (sendSSE stream data eventId st) = messageQueues st /\
  sseStreams (sendSSE stream data eventId st) = sseStreams st.
Proof. unfold sendSSE. by destruct eventId. Qed.

Lemma removeSSEStream_fields sid stream st :
  sessions (removeSSEStream sid stream st) = sessions st /\
  messageQueues (removeSSEStream sid stream st) = messageQueues st /\
  wire (removeSSEStream sid stream st) = wire st.
Proof. unfold removeSSEStream. by destruct (sseStreams st !! sid). Qed.

Lemma handleToolCall_fields name args w st :
  sessions (handleToolCall name args w st).1.1 = sessions st /\
  messageQueues (handleToolCall name args w st).1.1 = messageQueues st /\
  wire (handleToolCall name args w st).1.1 = wire st.
Proof. unfold handleToolCall. repeat case_match; simplify_eq; done. Qed.

Lemma handleInitialize_fields params sid w st :
  messageQueues (handleInitialize params sid w st).1 = messageQueues st /\
  wire (handleInitialize params sid w st).1 = wire st.
Proof. unfold handleInitialize. repeat case_match; simplify_eq; done. Qed.

Lemma processJsonRpcRequest_fields message sid w st :
  messageQueues (processJsonRpcRequest message sid w st).1.1 = messageQueues st /\
  wire (processJsonRpcRequest message sid w st).1.1 = wire st.
Proof.
  unfold processJsonRpcRequest.
  pose proof (handleInitialize_fields (get_prop message "params") sid w st) as Hi.
  repeat case_match; simplify_eq; simpl; try done;
    match goal with
    | H : handleToolCall ?n ?a ?w ?st = _ |- _ =>
        pose proof (handleToolCall_fields n a w st) as Ht; rewrite H in Ht; simpl in Ht;
        by destruct Ht as (_ & ? & ?)
    | H : handleInitialize _ _ _ _ = _ |- _ => by rewrite H in Hi
    end.
Qed.

Lemma replay_fields stream queue lastId : forall st,
  sessions (replay stream queue lastId st) = sessions st /\
  messageQueues (replay stream queue lastId st) = messageQueues st /\
  sseStreams (replay stream queue lastId st) = sseStreams st.
Proof.
  unfold replay. induction queue as [|msg queue IH]; intros st; simpl; [done|].
  destruct (IH (match lastId with
                | Some n => if eventId msg >? n
                            then sendSSE stream (data msg) (Some (eventId msg)) st else st
                | None => st
                end)) as (-> & -> & ->).
  repeat case_match; done || apply sendSSE_fields.
Qed.

Lemma handlePost_fields req res w st :
  messageQueues (handlePost req res w st).1 = messageQueues st /\
  sessions (handlePost req res w st).1
    = match parsed_body req with
      | Returned message =>
          sessions (processJsonRpcRequest message (mcp_session_id req) w st).1.1
      | Threw _ => sessions st
      end.
Proof.
  unfold handlePost. destruct (parsed_body req) as [message|e]; [|done].
  pose proof (processJsonRpcRequest_fields message (mcp_session_id req) w st) as [Hq _].
  destruct (processJsonRpcRequest message (mcp_session_id req) w st) as [[st1 effs] r].
  simpl in *. destruct r as [[response newSessionId]|e]; [|done].
  repeat case_match; simpl; try done.
Qed.

Lemma handleGet_fields req res st :
  messageQueues (handleGet req res st) = messageQueues st /\
  sessions (handleGet req res st) = sessions st.
Proof.
  unfold handleGet. repeat case_match; simpl; try done.
  match goal with
  | |- context [replay ?a ?b ?c ?d] => by destruct (replay_fields a b c d) as (-> & -> & _)
  end.
Qed.

(** The sweep only ever forgets sessions, with their streams and queues. *)
Lemma cleanupSessions_ind (P : Server -> Prop) now st :
  (forall st k, P st ->
     P (set_messageQueues
          (set_sseStreams (set_sessions st (delete k (sessions st)))
                          (delete k (sseStreams st)))
          (delete k (messageQueues st)))) ->
  P st -> P (cleanupSessions now st).
Proof.
  intros Hdel HP. unfold cleanupSessions.
  induction (map_to_list (sessions st)) as [|[k s] l IH]; simpl; [done|].
  case_match; [by apply Hdel | done].
Qed.

Lemma sessionsKeyed_delete st k x y :
  sessionsKeyed st ->
  sessionsKeyed (set_messageQueues
                   (set_sseStreams (set_sessions st (delete k (sessions st))) x) y).
Proof. intros Hwf k' s. simpl. intros [_ Hs]%lookup_delete_Some. by apply Hwf. Qed.

Lemma handleInitialize_sessionsKeyed params sid w st :
  sessionsKeyed st -> uuid w ≠ "" ->
  sessionsKeyed (handleInitialize params sid w st).1.
Proof.
  intros Hwf Hu. unfold handleInitialize.
  destruct (if truthy_str sid then sessions st !! default "" sid else None) as [s|] eqn:Hs;
    simpl; intros k s'; simpl; intros [[<- <-]|[_ Hk]]%lookup_insert_Some; simpl;
    try by apply Hwf.
  - destruct (truthy_str sid); [|done]. by apply Hwf.
  - done.
Qed.

Lemma processJsonRpcRequest_sessions message sid w st :
  sessions (processJsonRpcRequest message sid w st).1.1 = sessions st \/
  sessions (processJsonRpcRequest message sid w st).1.1
    = sessions (handleInitialize (get_prop message "params") sid w st).1.
Proof.
  unfold processJsonRpcRequest.
  repeat case_match; simplify_eq; simpl; auto;
    match goal with
    | H : handleToolCall ?n ?a ?w ?st = _ |- _ =>
        pose proof (handleToolCall_fields n a w st) as Ht; rewrite H in Ht; simpl in Ht;
        destruct Ht as (? & _); by left
    | H : handleInitialize _ _ _ _ = _ |- _ => right; by rewrite H
    end.
Qed.

(** The listener either answers on its own or hands over to one handler. *)
Lemma createHttpServer_cases req res w st :
  (createHttpServer req res w st).1 = (handlePost req res w st).1 \/
  (createHttpServer req res w st).1 = handleGet req res st \/
  (createHttpServer req res w st).1 = handleDelete req res st \/
  exists outs, (createHttpServer req res w st).1 = emit res outs st.
Proof. unfold createHttpServer. repeat case_match; eauto. Qed.

Lemma step_sessionsKeyed ev st :
  sessionsKeyed st -> event_ok ev -> sessionsKeyed (step ev st).
Proof.
  intros Hwf Hok. destruct ev as [req res w|now|now|res key|res|res sid]; simpl.
  - destruct (createHttpServer_cases req res w st) as [-> | [-> | [-> | [outs ->]]]].
    + unfold sessionsKeyed. rewrite (proj2 (handlePost_fields req res w st)).
      destruct (parsed_body req) as [message|e]; [|done].
      destruct (processJsonRpcRequest_sessions message (mcp_session_id req) w st) as [->| ->];
        [done|]. by apply handleInitialize_sessionsKeyed.
    + unfold sessionsKeyed. by rewrite (proj2 (handleGet_fields req res st)).
    + unfold handleDelete. repeat case_match; try done.
      by apply (sessionsKeyed_delete st).
    + done.
  - apply cleanupSessions_ind; [|done]. intros st' k H. by apply sessionsKeyed_delete.
  - done.
  - unfold postStreamTimeout, sessionsKeyed. case_match; [|done].
    by rewrite (proj1 (removeSSEStream_fields _ _ _)).
  - done.
  - unfold clientClose, sessionsKeyed. case_match; [|done].
    by rewrite (proj1 (removeSSEStream_fields _ _ _)).
Qed.

Lemma step_no_queue ev st :
  messageQueues st = ∅ -> messageQueues (step ev st) = ∅.
Proof.
  intros Hq. destruct ev as [req res w|now|now|res key|res|res sid]; simpl.
  - destruct (createHttpServer_cases req res w st) as [-> | [-> | [-> | [outs ->]]]].
    + by rewrite (proj1 (handlePost_fields req res w st)).
    + by rewrite (proj1 (handleGet_fields req res st)).
    + unfold handleDelete. repeat case_match; simpl; try done.
      rewrite Hq. apply delete_empty.
    + done.
  - apply cleanupSessions_ind; [|done]. intros st' k H. simpl. rewrite H. apply delete_empty.
  - done.
  - unfold postStreamTimeout. case_match; [|done].
    by rewrite (proj1 (proj2 (removeSSEStream_fields _ _ _))).
  - done.
  - unfold clientClose. case_match; [|done].
    by rewrite (proj1 (proj2 (removeSSEStream_fields _ _ _))).
Qed.

(** In every state the server can reach, sessions are filed under their
    own, non-empty ids. *)
Lemma reachable_sessionsKeyed windowMs max st :
  Reachable windowMs max st -> sessionsKeyed st.
Proof.
  induction 1 as [|st ev _ IH Hok]; [|by apply step_sessionsKeyed].
  intros k s. unfold newServer; simpl. by rewrite lookup_empty.
Qed.

(** Nothing the server does ever puts a message into a replay queue. *)
Lemma reachable_no_queue windowMs max st :
  Reachable windowMs max st -> messageQueues st = ∅.
Proof. induction 1 as [|st ev _ IH Hok]; [done | by apply step_no_queue]. Qed.

(** *** The dispatcher *)

(** A message with the right protocol tag always gets a response object,
    carrying the message's [id]; failures of the handler are inside it. *)
Lemma processJsonRpcRequest_responds message sid w st :
  is_str (get_prop message "jsonrpc") "2.0" = true ->
  exists st1 effs payload newSessionId,
    processJsonRpcRequest message sid w st =
      (st1, effs, Returned ({| rpc_id := get_prop message "id";
                               rpc_payload_of := payload |}, newSessionId)).
Proof.
  intros Htag. unfold processJsonRpcRequest.
  destruct message; try (simpl in Htag; discriminate). rewrite Htag. simpl.
  repeat case_match; simplify_eq; eauto.
Qed.

Lemma assoc_remove_key_ne {A : Type} k k' (l : list (string * A)) :
  k ≠ k' -> assoc k (remove_key k' l) = assoc k l.
Proof.
  intros Hne. induction l as [|[k0 v] l IH]; simpl; [done|].
  destruct (String.eqb_spec k' k0) as [->|Hk0]; simpl.
  - destruct (String.eqb_spec k k0); [done | exact IH].
  - destruct (String.eqb_spec k k0); [done | exact IH].
Qed.

Lemma assoc_remove_key_eq {A : Type} k (l : list (string * A)) :
  assoc k (remove_key k l) = None.
Proof.
  induction l as [|[k0 v] l IH]; simpl; [done|].
  destruct (String.eqb_spec k k0) as [->|Hk0]; simpl; [exact IH|].
  destruct (String.eqb_spec k k0); [done | exact IH].
Qed.

(** The [id] of a message goes into the response and nowhere else. *)
Lemma processJsonRpcRequest_without_id message sid w st :
  processJsonRpcRequest (without_id message) sid w st =
    let '(st1, effs, r) := processJsonRpcRequest message sid w st in
    (st1, effs,
     match r with
     | Returned (response, newSessionId) =>
         Returned ({| rpc_id := None; rpc_payload_of := rpc_payload_of response |},
                   newSessionId)
     | Threw e => Threw e
     end).
Proof.
  destruct message as [| | | | |props]; try reflexivity.
  unfold processJsonRpcRequest, without_id, get_prop.
  rewrite !assoc_remove_key_ne by done. rewrite assoc_remove_key_eq.
  repeat case_match; simplify_eq; reflexivity.
Qed.

(** What [handlePost] does with a message it takes for a notification. *)
Lemma handlePost_notification req res w st message :
  parsed_body req = Returned message ->
  is_str (get_prop message "jsonrpc") "2.0" = true ->
  truthy (get_prop message "id") = false ->
  handlePost req res w st =
    (emit res [WriteHead 202 []; End None]
       (processJsonRpcRequest message (mcp_session_id req) w st).1.1,
     (processJsonRpcRequest message (mcp_session_id req) w st).1.2).
Proof.
  intros Hbody Htag Hid. unfold handlePost. rewrite Hbody.
  destruct (processJsonRpcRequest_responds message (mcp_session_id req) w st Htag)
    as (st1 & effs & payload & newSessionId & ->).
  by rewrite Hid.
Qed.

Lemma createHttpServer_post req res w st :
  method req = POST -> url req = "/mcp" \/ url req = "/" ->
  createHttpServer req res w st = handlePost req res w st.
Proof.
  intros Hm Hu. unfold createHttpServer. rewrite Hm.
  replace (validateOrigin req) with true by (unfold validateOrigin; repeat case_match; done).
  simpl. by destruct Hu as [-> | ->].
Qed.

(** *** Sessions *)

(** C7. In any state the server can reach, an [initialize] message that
    carries the id of a live session creates no session (the session map
    keeps its keys and its size, the session is only marked initialized) and
    the response reports that same id, which is also what goes into the
    Mcp-Session-Id response header. *)
Theorem initialize_idempotent (windowMs max : Z) (st : Server) (sid : string) (s : Session)
    (message : json) (w : World) :
  Reachable windowMs max st ->
  sessions st !! sid = Some s ->
  is_str (get_prop message "jsonrpc") "2.0" = true ->
  is_str (get_prop message "method") "initialize" = true ->
  let '(st', effs, r) := processJsonRpcRequest message (Some sid) w st in
  dom (sessions st') = dom (sessions st) /\
  size (sessions st') = size (sessions st) /\
  sessions st' !! sid = Some {| id := sid; createdAt := createdAt s;
                                lastAccessedAt := lastAccessedAt s; initialized := true |} /\
  r = Returned ({| rpc_id := get_prop message "id";
                   rpc_payload_of := RpcResult InitializeResult |}, Some sid) /\
  sessionHeader (Some sid) = [("Mcp-Session-Id", sid)].
Proof.
  intros Hreach Hs Htag Hinit.
  destruct (reachable_sessionsKeyed _ _ _ Hreach sid s Hs) as [Hid Hne].
  assert (truthy_str (Some sid) = true) as Htruthy.
  { simpl. by destruct (String.eqb_spec sid ""). }
  unfold processJsonRpcRequest.
  destruct message; try (simpl in Htag; discriminate).
  rewrite Htag, Hinit. simpl negb. cbv iota.
  unfold handleInitialize. rewrite Htruthy. simpl default. rewrite Hs. simpl.
  rewrite Hid. split_and!.
  - apply dom_insert_lookup_L. by exists s.
  - rewrite <- !size_dom. f_equal. apply dom_insert_lookup_L. by exists s.
  - apply lookup_insert_eq.
  - done.
  - unfold sessionHeader. by rewrite Htruthy.
Qed.

Lemma initialize_idempotent_witness :
  let st := run [Incoming (Scenario.post None Scenario.json_only Scenario.initialize_) 1%nat
                   (Scenario.world 1000 "s1")] Scenario.server0 in
  let '(st', effs, r) :=
    processJsonRpcRequest Scenario.initialize_ (Some "s1") (Scenario.world 2000 "u2") st in
  dom (sessions st') = dom (sessions st) /\
  size (sessions st') = size (sessions st) /\
  sessions st' !! "s1" = Some {| id := "s1"; createdAt := 1000;
                                 lastAccessedAt := 1000; initialized := true |} /\
  r = Returned ({| rpc_id := get_prop Scenario.initialize_ "id";
                   rpc_payload_of := RpcResult InitializeResult |}, Some "s1") /\
  sessionHeader (Some "s1") = [("Mcp-Session-Id", "s1")].
Proof.
  apply (initialize_idempotent 60000 120
           (run [Incoming (Scenario.post None Scenario.json_only Scenario.initialize_) 1%nat
                   (Scenario.world 1000 "s1")] Scenario.server0)
           "s1" {| id := "s1"; createdAt := 1000; lastAccessedAt := 1000; initialized := true |}
           Scenario.initialize_ (Scenario.world 2000 "u2")).
  - apply (reach_step 60000 120 _
             (Incoming (Scenario.post None Scenario.json_only Scenario.initialize_) 1%nat
                (Scenario.world 1000 "s1"))).
    + apply reach_init.
    + simpl. discriminate.
  - vm_compute. reflexivity.
  - reflexivity.
  - reflexivity.
Defined.

(** *** Notifications *)

(** C8, as the code has it. A POST to /mcp whose body parses to a message
    with the protocol tag "2.0", a method and no id is answered with status
    202 and an empty body, whatever the handler did and however the
    collaborator call ended: these two calls are all that is written, so no
    JSON-RPC response body goes out. *)
Theorem notification_acknowledged (req : Request) (res : conn) (w : World) (st : Server)
    (message m : json) :
  method req = POST -> url req = "/mcp" \/ url req = "/" ->
  parsed_body req = Returned message ->
  is_str (get_prop message "jsonrpc") "2.0" = true ->
  get_prop message "method" = Some m ->
  get_prop message "id" = None ->
  wire (createHttpServer req res w st).1 = wire st ++ accepted res.
Proof.
  intros Hm Hu Hbody Htag _ Hid.
  rewrite createHttpServer_post by done.
  rewrite (handlePost_notification req res w st message) by (by rewrite ?Hid).
  simpl. by rewrite (proj2 (processJsonRpcRequest_fields _ _ _ _)).
Qed.

Lemma notification_acknowledged_witness :
  wire (createHttpServer
          (Scenario.post None Scenario.json_only
             (Scenario.envelope None "tools/call" None)) 5%nat
          (Scenario.world 0 "u") Scenario.server0).1
  = wire Scenario.server0 ++ accepted 5%nat.
Proof.
  apply (notification_acknowledged
           (Scenario.post None Scenario.json_only (Scenario.envelope None "tools/call" None))
           5%nat (Scenario.world 0 "u") Scenario.server0
           (Scenario.envelope None "tools/call" None) (JStr "tools/call")).
  - reflexivity.
  - left. reflexivity.
  - reflexivity.
  - reflexivity.
  - reflexivity.
  - reflexivity.
Defined.

(** C8 as the design document words it fails: a body that parses and has a
    method and no id, but not the protocol tag, is answered with status 400
    and a JSON-RPC error body. *)
Lemma notification_untagged_gets_400 :
  let message := JObj [("method", JStr "ping")] in
  let req := Scenario.post None Scenario.json_only message in
  parsed_body req = Returned message /\
  get_prop message "method" = Some (JStr "ping") /\
  get_prop message "id" = None /\
  wire (createHttpServer req 5%nat (Scenario.world 0 "u") Scenario.server0).1
    = [(5%nat, WriteHead 400 [("Content-Type", "application/json")]);
       (5%nat, End (Some (BodyParseError "[object Object]")))] /\
  wire (createHttpServer req 5%nat (Scenario.world 0 "u") Scenario.server0).1
    <> wire Scenario.server0 ++ accepted 5%nat.
Proof. vm_compute. split_and!; try reflexivity. discriminate. Qed.

(** C9. A POST to /mcp whose message has the protocol tag "2.0" and an id
    that is falsy (0, null, the empty string, false) is handled exactly like
    the same message without an id: the response object is computed, with
    that id in it, and dropped; status 202 and an empty body are all that is
    written; server state and effects are those of the notification. *)
Theorem falsy_id_treated_as_notification (req : Request) (res : conn) (w : World)
    (st : Server) (message v : json) :
  method req = POST -> url req = "/mcp" \/ url req = "/" ->
  parsed_body req = Returned message ->
  is_str (get_prop message "jsonrpc") "2.0" = true ->
  get_prop message "id" = Some v ->
  truthy (Some v) = false ->
  wire (createHttpServer req res w st).1 = wire st ++ accepted res /\
  (exists response newSessionId,
     (processJsonRpcRequest message (mcp_session_id req) w st).2
       = Returned (response, newSessionId) /\
     rpc_id response = Some v) /\
  createHttpServer req res w st
    = createHttpServer (with_body req (Returned (without_id message))) res w st.
Proof.
  intros Hm Hu Hbody Htag Hid Hfalsy.
  rewrite !createHttpServer_post by done.
  rewrite (handlePost_notification req res w st message) by (by rewrite ?Hid).
  split_and!.
  - simpl. by rewrite (proj2 (processJsonRpcRequest_fields _ _ _ _)).
  - destruct (processJsonRpcRequest_responds message (mcp_session_id req) w st Htag)
      as (st1 & effs & payload & newSessionId & ->).
    eexists _, _. split; [reflexivity|]. exact Hid.
  - assert (is_str (get_prop (without_id message) "jsonrpc") "2.0" = true) as Htag'.
    { destruct message; try (simpl in Htag; discriminate). simpl.
      by rewrite assoc_remove_key_ne. }
    assert (truthy (get_prop (without_id message) "id") = false) as Hid'.
    { destruct message; try (simpl in Htag; discriminate). simpl.
      by rewrite assoc_remove_key_eq. }
    rewrite (handlePost_notification (with_body req (Returned (without_id message)))
               res w st (without_id message)) by done.
    simpl. rewrite processJsonRpcRequest_without_id.
    by destruct (processJsonRpcRequest message (mcp_session_id req) w st) as [[st1 effs] r].
Qed.

Lemma falsy_id_treated_as_notification_witness :
  let message := Scenario.envelope (Some (JNum 0)) "tools/list" None in
  let req := Scenario.post None Scenario.json_or_sse message in
  wire (createHttpServer req 5%nat (Scenario.world 0 "u") Scenario.server0).1
    = wire Scenario.server0 ++ accepted 5%nat /\
  (exists response newSessionId,
     (processJsonRpcRequest message (mcp_session_id req) (Scenario.world 0 "u")
        Scenario.server0).2 = Returned (response, newSessionId) /\
     rpc_id response = Some (JNum 0)) /\
  createHttpServer req 5%nat (Scenario.world 0 "u") Scenario.server0
    = createHttpServer (with_body req (Returned (without_id message))) 5%nat
        (Scenario.world 0 "u") Scenario.server0.
Proof.
  apply (falsy_id_treated_as_notification
           (Scenario.post None Scenario.json_or_sse
              (Scenario.envelope (Some (JNum 0)) "tools/list" None))
           5%nat (Scenario.world 0 "u") Scenario.server0
           (Scenario.envelope (Some (JNum 0)) "tools/list" None) (JNum 0)).
  - reflexivity.
  - left. reflexivity.
  - reflexivity.
  - reflexivity.
  - reflexivity.
  - reflexivity.
Defined.

(** *** Streams *)

(** C2, as the code has it. A send without an explicit event id takes the
    next global event id, records it as the stream's lastEventId, and
    writes the event (the id, then the serialized payload) to the stream it
    was given and to no other: what has been written to any other response
    is unchanged, and so is the stream registry. *)
Theorem sendSSE_single_stream (st : Server) (stream : conn) (data : rpc_response) :
  let st' := sendSSE stream data None st in
  let event := [WriteEventId (globalEventId st + 1); WriteEventData data] in
  globalEventId st' = globalEventId st + 1 /\
  wire st' = wire st ++ map (fun o => (stream, o)) event /\
  written stream st' = written stream st ++ event /\
  (forall c, c ≠ stream -> written c st' = written c st) /\
  lastEventId <$> streamObjects st' !! stream
    = (fun _ => Some (globalEventId st + 1)) <$> streamObjects st !! stream /\
  sseStreams st' = sseStreams st.
Proof.
  unfold sendSSE. simpl. split_and!; try done.
  - unfold written. simpl. rewrite omap_app. simpl. by rewrite Nat.eqb_refl.
  - intros c Hc. unfold written. simpl. rewrite omap_app. simpl.
    destruct (Nat.eqb_spec stream c); [congruence|]. by rewrite app_nil_r.
  - rewrite lookup_alter_eq. by destruct (streamObjects st !! stream).
Qed.

Lemma sendSSE_single_stream_witness :
  let st := run Scenario.twoListeners Scenario.server0 in
  let st' := sendSSE 3%nat Scenario.pingResponse None st in
  let event := [WriteEventId (globalEventId st + 1); WriteEventData Scenario.pingResponse] in
  globalEventId st' = globalEventId st + 1 /\
  wire st' = wire st ++ map (fun o => (3%nat, o)) event /\
  written 3%nat st' = written 3%nat st ++ event /\
  (forall c, c ≠ 3%nat -> written c st' = written c st) /\
  lastEventId <$> streamObjects st' !! 3%nat
    = (fun _ => Some (globalEventId st + 1)) <$> streamObjects st !! 3%nat /\
  sseStreams st' = sseStreams st.
Proof.
  exact (sendSSE_single_stream (run Scenario.twoListeners Scenario.server0) 3%nat
           Scenario.pingResponse).
Defined.

(** C2 as the design document words it fails: with streams 2 and 3 both
    registered for session "s1", a send on stream 3 writes nothing to
    stream 2. *)
Lemma send_reaches_one_stream_only :
  ~ sendReachesAllStreams (run Scenario.twoListeners Scenario.server0) 3%nat
      Scenario.pingResponse.
Proof.
  intros Hall.
  specialize (Hall {| Server.res := 3%nat; sessionId := "s1"; lastEventId := Some 0;
                      requestId := None |} 2%nat).
  assert (written 2%nat (sendSSE 3%nat Scenario.pingResponse None
                           (run Scenario.twoListeners Scenario.server0))
          = [WriteHead 200 [("Content-Type", "text/event-stream");
                            ("Cache-Control", "no-cache");
                            ("Connection", "keep-alive")]]) as Hgot by (vm_compute; reflexivity).
  rewrite Hgot in Hall.
  assert (written 2%nat (run Scenario.twoListeners Scenario.server0)
          = [WriteHead 200 [("Content-Type", "text/event-stream");
                            ("Cache-Control", "no-cache");
                            ("Connection", "keep-alive")]]) as Hhad by (vm_compute; reflexivity).
  rewrite Hhad in Hall.
  assert ([WriteHead 200 [("Content-Type", "text/event-stream");
                          ("Cache-Control", "no-cache");
                          ("Connection", "keep-alive")]]
          = [WriteHead 200 [("Content-Type", "text/event-stream");
                            ("Cache-Control", "no-cache");
                            ("Connection", "keep-alive")]]
            ++ [WriteEventId (globalEventId (run Scenario.twoListeners Scenario.server0) + 1);
                WriteEventData Scenario.pingResponse]) as Habs.
  { apply Hall.
    - vm_compute. reflexivity.
    - vm_compute. apply list_elem_of_here. }
  discriminate Habs.
Qed.

(** In a state the server can reach, a GET that opens a stream writes the
    response head and no event, whatever Last-Event-ID it carries. *)
Lemma resume_never_replays windowMs max st req res :
  Reachable windowMs max st ->
  exists outs, wire (handleGet req res st) = wire st ++ map (fun o => (res, o)) outs /\
               eventsOf outs = [].
Proof.
  intros Hq%reachable_no_queue. unfold handleGet.
  repeat case_match; simpl; try (eexists [_; _]; split; [reflexivity|done]);
    try (eexists [_]; split; [reflexivity|done]).
  rewrite Hq, lookup_empty. simpl. eexists [_]. split; [reflexivity|done].
Qed.

(** C1, at a failing input. A client initializes over SSE, so that event 1
    is delivered for the new session "s1"; it then reopens the stream
    with Last-Event-ID: 0. The session is live and event 1 > 0 was delivered
    for it, yet the new stream gets the response head and no event. *)
Theorem resume_replays_nothing :
  let st := run Scenario.resume Scenario.server0 in
  sessions st !! "s1" = Some {| id := "s1"; createdAt := 1000; lastAccessedAt := 1000;
                                initialized := true |} /\
  eventsOf (written 1%nat st)
    = [(1, {| rpc_id := Some (JNum 1); rpc_payload_of := RpcResult InitializeResult |})] /\
  written 2%nat st = [WriteHead 200 [("Content-Type", "text/event-stream");
                                     ("Cache-Control", "no-cache");
                                     ("Connection", "keep-alive")]] /\
  eventsOf (written 2%nat st) = [] /\
  messageQueues st !! "s1" = None.
Proof. vm_compute. split_and!; reflexivity. Qed.

(** *** Tool calls *)

(** The limiter is consulted first; the collaborator runs, under
    [withBackoff], only after the limiter has admitted the call. *)
Lemma handleToolCall_limit_first name args w st :
  (handleToolCall name args w st).1.2 = [EffCheckLimit "default-client"] \/
  exists key,
    is_returned (RateLimit.checkLimit "default-client" (now w) (rateLimiter st)).2 = true /\
    (handleToolCall name args w st).1.2
      = EffCheckLimit "default-client"
        :: (Backoff.withBackoff key (collaborator w) (random w) (backoffManager st)).1.2.
Proof.
  unfold handleToolCall.
  destruct (RateLimit.checkLimit "default-client" (now w) (rateLimiter st)) as [rl [[]|e]];
    simpl; [|by left].
  repeat case_match; simplify_eq; simpl; try (by left); right;
    match goal with
    | H : Backoff.withBackoff ?k _ _ _ = _ |- _ => exists k; by rewrite H
    end.
Qed.

(** C3, at a failing input. A tools/call that carries no Mcp-Session-Id,
    sent to a server with no session at all, is admitted: the limiter is
    consulted, the search collaborator runs, and its result goes out with
    status 200. *)
Theorem tool_call_without_session :
  let req := Scenario.post None Scenario.json_only Scenario.searchCall in
  let '(st', effs) := createHttpServer req 1%nat (Scenario.world 1000 "u") Scenario.server0 in
  sessions Scenario.server0 = ∅ /\
  mcp_session_id req = None /\
  effs = [EffCheckLimit "default-client"; EffOperation "google-cse"] /\
  written 1%nat st'
    = [WriteHead 200 [("Content-Type", "application/json")];
       End (Some (BodyRpc {| rpc_id := Some (JNum 7);
                             rpc_payload_of :=
                               RpcResult (ToolCallResult (JObj [("results", JArr [])])) |}))].
Proof. vm_compute. split_and!; reflexivity. Qed.

(** *** The idle sweep *)

(** No request refreshes a session: whatever arrives, a session that is
    still there afterwards has the lastAccessedAt it had before. *)
Lemma request_keeps_lastAccessedAt req res w st k s s' :
  sessions st !! uuid w = None ->
  sessions st !! k = Some s ->
  sessions (createHttpServer req res w st).1 !! k = Some s' ->
  lastAccessedAt s' = lastAccessedAt s.
Proof.
  intros Hfresh Hk.
  destruct (createHttpServer_cases req res w st) as [-> | [-> | [-> | [outs ->]]]].
  - rewrite (proj2 (handlePost_fields req res w st)).
    destruct (parsed_body req) as [message|e]; [|congruence].
    destruct (processJsonRpcRequest_sessions message (mcp_session_id req) w st) as [->| ->];
      [congruence|].
    unfold handleInitialize.
    destruct (if truthy_str (mcp_session_id req)
              then sessions st !! default "" (mcp_session_id req) else None) as [s0|] eqn:Hs0;
      simpl; intros [[<- <-]|[_ Hk']]%lookup_insert_Some; simpl; try congruence.
    destruct (truthy_str (mcp_session_id req)); congruence.
  - rewrite (proj2 (handleGet_fields req res st)). congruence.
  - unfold handleDelete. repeat case_match; simpl; try congruence.
    intros [_ Hk']%lookup_delete_Some. congruence.
  - simpl. congruence.
Qed.

(** C4, at a failing input. A session created at t = 1000 receives a
    request bearing its id at t = 3600000; its lastAccessedAt stays 1000, and
    the sweep at t = 3601001 destroys it, one second after that request.
    Had the request gone through [getSession], the sweep would have kept
    it. *)
Theorem busy_session_swept :
  let st := run Scenario.keptBusy Scenario.server0 in
  sessions st !! "s1" = Some {| id := "s1"; createdAt := 1000; lastAccessedAt := 1000;
                                initialized := true |} /\
  written 2%nat st
    = [WriteHead 200 [("Content-Type", "application/json")];
       End (Some (BodyRpc {| rpc_id := Some (JNum 2);
                             rpc_payload_of := RpcResult ToolsListResult |}))] /\
  sessions (step (SweepSessions 3601001) st) !! "s1" = None /\
  sessions (step (SweepSessions 3601001)
              (getSession (Some "s1") (Scenario.world 3600000 "u2") st).1) !! "s1"
    = Some {| id := "s1"; createdAt := 1000; lastAccessedAt := 3600000;
              initialized := true |}.
Proof. vm_compute. split_and!; reflexivity. Qed.

End ServerFacts.

(** * Further properties of the code *)

(** ** rateLimit.ts: cleanup, reset, independence of clients *)

Section RateLimitMore.
Import RateLimit.

(** A call's outcome and the entry it stores are determined by the entry it
    works on and by the limiter's parameters. *)
Lemma checkLimit_by_entry k now rl1 rl2 :
  currentEntry k now rl1 = currentEntry k now rl2 ->
  windowMs rl1 = windowMs rl2 -> maxRequests rl1 = maxRequests rl2 ->
  (checkLimit k now rl1).2 = (checkLimit k now rl2).2 /\
  limits (checkLimit k now rl1).1 !! k = limits (checkLimit k now rl2).1 !! k.
Proof.
  intros He Hw Hm.
  destruct (Z.lt_ge_cases (count (currentEntry k now rl2)) (maxRequests rl2)) as [Hlt|Hge].
  - rewrite (checkLimit_admit k now rl1), (checkLimit_admit k now rl2) by (rewrite ?He, ?Hm; done).
    simpl. by rewrite !lookup_insert_eq, He.
  - destruct (checkLimit_reject k now rl1) as (-> & -> & _); [rewrite He, Hm; done|].
    destruct (checkLimit_reject k now rl2) as (-> & -> & _); [done|].
    by rewrite He, Hw, Hm.
Qed.

(** X1. The periodic cleanup removes exactly the entries whose window has
    ended, and it is invisible to callers: a later [checkLimit] gives the
    same verdict, and stores the same entry, as if no cleanup had run. *)
Theorem cleanup_transparent (k : string) (now' now : Z) (rl : RateLimiter) :
  now' <= now ->
  (forall k' e, limits (cleanup now' rl) !! k' = Some e <->
                limits rl !! k' = Some e /\ now' < resetTime e) /\
  (checkLimit k now (cleanup now' rl)).2 = (checkLimit k now rl).2 /\
  limits (checkLimit k now (cleanup now' rl)).1 !! k = limits (checkLimit k now rl).1 !! k.
Proof.
  intros Hle.
  assert (forall k' e, limits (cleanup now' rl) !! k' = Some e <->
                       limits rl !! k' = Some e /\ now' < resetTime e) as Hclean.
  { intros k' e. unfold cleanup. simpl. rewrite map_lookup_filter_Some. simpl. intuition lia. }
  split; [exact Hclean|].
  apply checkLimit_by_entry; try done.
  unfold currentEntry. simpl windowMs.
  destruct (limits rl !! k) as [e|] eqn:Hk.
  - destruct (Z.lt_ge_cases now' (resetTime e)) as [Hlive|Hdead].
    + by rewrite (proj2 (Hclean k e) (conj Hk Hlive)).
    + assert (limits (cleanup now' rl) !! k = None) as ->.
      { destruct (limits (cleanup now' rl) !! k) as [e'|] eqn:Hk'; [|done].
        apply Hclean in Hk' as [He' Hlt]. rewrite Hk in He'. simplify_eq. lia. }
      destruct (Z.geb_spec now (resetTime e)); [done | lia].
  - assert (limits (cleanup now' rl) !! k = None) as ->; [|done].
    destruct (limits (cleanup now' rl) !! k) as [e'|] eqn:Hk'; [|done].
    apply Hclean in Hk' as [He' _]. congruence.
Qed.

Lemma cleanup_transparent_witness :
  let rl := (checkLimits "a" [0; 10; 20] (newRateLimiter 60000 3)).1 in
  (forall k' e, limits (cleanup 60000 rl) !! k' = Some e <->
                limits rl !! k' = Some e /\ 60000 < resetTime e) /\
  (checkLimit "a" 60005 (cleanup 60000 rl)).2 = (checkLimit "a" 60005 rl).2 /\
  limits (checkLimit "a" 60005 (cleanup 60000 rl)).1 !! "a"
    = limits (checkLimit "a" 60005 rl).1 !! "a".
Proof.
  apply (cleanup_transparent "a" 60000 60005
           (checkLimits "a" [0; 10; 20] (newRateLimiter 60000 3)).1).
  lia.
Defined.

Lemma checkLimit_other k k' now rl :
  k ≠ k' -> limits (checkLimit k' now rl).1 !! k = limits rl !! k.
Proof.
  intros Hne. unfold checkLimit. repeat case_match; simplify_eq; simpl;
    rewrite ?lookup_insert_ne by done; done.
Qed.

(** X2. Clients are limited independently: a call for one client, admitted
    or not, leaves every other client's entry as it was, and so does not
    change the verdict the other client gets next. *)
Theorem clients_independent (k k' : string) (now now' : Z) (rl : RateLimiter) :
  k ≠ k' ->
  limits (checkLimit k' now' rl).1 !! k = limits rl !! k /\
  (checkLimit k now (checkLimit k' now' rl).1).2 = (checkLimit k now rl).2.
Proof.
  intros Hne. split; [by apply checkLimit_other|].
  destruct (checkLimit_params k' now' rl) as [Hw Hm].
  apply checkLimit_by_entry; try done.
  unfold currentEntry. by rewrite checkLimit_other, Hw.
Qed.

Lemma clients_independent_witness :
  let rl := (checkLimits "a" [0; 10] (newRateLimiter 60000 2)).1 in
  limits (checkLimit "b" 20 rl).1 !! "a" = limits rl !! "a" /\
  (checkLimit "a" 30 (checkLimit "b" 20 rl).1).2 = (checkLimit "a" 30 rl).2.
Proof.
  apply (clients_independent "a" "b" 30 20
           (checkLimits "a" [0; 10] (newRateLimiter 60000 2)).1).
  discriminate.
Defined.

(** X3. [reset(clientId)] forgets one client, whose next call is admitted
    whenever the maximum is positive, and leaves the others alone; called
    with no argument, or with the empty string, it forgets every client. *)
Theorem reset_forgets (k : string) (now : Z) (rl : RateLimiter) :
  k ≠ "" -> 0 < maxRequests rl ->
  (checkLimit k now (reset (Some k) rl)).2 = Returned tt /\
  (forall k', k' ≠ k -> limits (reset (Some k) rl) !! k' = limits rl !! k') /\
  limits (reset None rl) = ∅ /\
  limits (reset (Some "") rl) = ∅.
Proof.
  intros Hk Hmax.
  assert (truthy_str (Some k) = true) as Ht.
  { simpl. by destruct (String.eqb_spec k ""). }
  unfold reset. rewrite Ht. simpl default. split_and!; try done.
  - rewrite checkLimit_admit; [done|].
    unfold currentEntry. simpl. rewrite lookup_delete_eq. simpl. lia.
  - intros k' Hne. simpl. by rewrite lookup_delete_ne.
Qed.

Lemma reset_forgets_witness :
  let rl := (checkLimits "a" [0; 10] (newRateLimiter 60000 1)).1 in
  (checkLimit "a" 20 (reset (Some "a") rl)).2 = Returned tt /\
  (forall k', k' ≠ "a" -> limits (reset (Some "a") rl) !! k' = limits rl !! k') /\
  limits (reset None rl) = ∅ /\
  limits (reset (Some "") rl) = ∅.
Proof.
  apply (reset_forgets "a" 20 (checkLimits "a" [0; 10] (newRateLimiter 60000 1)).1).
  - discriminate.
  - vm_compute. reflexivity.
Defined.

End RateLimitMore.

(** ** rateLimit.ts: the backoff schedule *)

Section BackoffMore.
Import Backoff.

Lemma currentDelayOf_stored key bm d :
  delays bm !! key = Some d -> d ≠ 0 -> currentDelayOf key bm = d.
Proof.
  intros Hd Hne. unfold currentDelayOf. rewrite Hd.
  destruct (Z.eqb_spec d 0); [done | done].
Qed.

Lemma failing_schedule {T : Type} key error (randoms : list Q) : forall bm c,
  isRateLimited error = true ->
  currentDelayOf key bm = c -> 1000 <= c <= 32000 ->
  randoms ≠ [] ->
  delays (run (failing (T := T) key error randoms) bm) !! key
    = Some (Z.min (c * 2 ^ Z.of_nat (length randoms)) 32000).
Proof.
  induction randoms as [|r rs IH]; intros bm c Hrl Hc Hrange Hne; [done|].
  change (run (failing key error (r :: rs)) bm)
    with (run (failing (T := T) key error rs)
            (withBackoff (T := T) key (Threw error) r bm).1.1).
  rewrite withBackoff_rate_limited by done. cbn [fst]. rewrite Hc.
  set (bm1 := {| delays := <[key:=Z.min (c * 2) maxDelay]> (delays bm) |}).
  assert (delays bm1 !! key = Some (Z.min (c * 2) 32000)) as Hstored
    by apply lookup_insert_eq.
  destruct rs as [|r' rs'].
  - cbn [failing map run length]. rewrite Hstored. f_equal; lia.
  - rewrite (IH bm1 (Z.min (c * 2) 32000)); try done.
    + f_equal.
      replace (Z.of_nat (length (r :: r' :: rs')))
        with (Z.succ (Z.of_nat (length (r' :: rs')))) by (simpl length; lia).
      rewrite Z.pow_succ_r by lia.
      assert (0 < 2 ^ Z.of_nat (length (r' :: rs'))) by (apply Z.pow_pos_nonneg; lia).
      destruct (Z.le_gt_cases (c * 2) 32000).
      * rewrite (Z.min_l (c * 2)) by lia. f_equal. lia.
      * rewrite (Z.min_r (c * 2)) by lia. rewrite !Z.min_r by nia. done.
    + apply currentDelayOf_stored; [done | lia].
    + lia.
Qed.

(** X4. The schedule of stored delays: after n >= 1 RATE_LIMITED failures in
    a row for a key that had no delay, the stored delay is
    min(1000 * 2^n, 32000): it doubles from 2 s and stays at 32 s from the
    fifth failure on. *)
Theorem backoff_schedule {T : Type} (key : string) (error : thrown) (randoms : list Q)
    (bm : BackoffManager) :
  isRateLimited error = true ->
  delays bm !! key = None ->
  randoms ≠ [] ->
  delays (run (failing (T := T) key error randoms) bm) !! key
    = Some (Z.min (1000 * 2 ^ Z.of_nat (length randoms)) 32000).
Proof.
  intros Hrl Hnone Hne.
  apply (failing_schedule key error randoms bm 1000 Hrl); [|lia|done].
  unfold currentDelayOf. by rewrite Hnone.
Qed.

Lemma backoff_schedule_witness :
  delays (run (failing (T := json) "google-cse"
                 (ThrownValue (Some (handleGoogleCSEError 429 "Too Many Requests")))
                 [0; 1 # 2; 0; 1 # 3; 0; 0; 1 # 2]%Q) newBackoffManager) !! "google-cse"
    = Some (Z.min (1000 * 2 ^ Z.of_nat (length [0; 1 # 2; 0; 1 # 3; 0; 0; 1 # 2]%Q)) 32000).
Proof.
  apply (backoff_schedule (T := json) "google-cse"
           (ThrownValue (Some (handleGoogleCSEError 429 "Too Many Requests")))
           [0; 1 # 2; 0; 1 # 3; 0; 0; 1 # 2]%Q newBackoffManager).
  - reflexivity.
  - reflexivity.
  - discriminate.
Defined.

(** Every stored delay lies between twice the base delay and the ceiling. *)
Lemma withBackoff_range {T : Type} key (operation : outcome T) random bm :
  (forall k d, delays bm !! k = Some d -> 2000 <= d <= 32000) ->
  forall k d, delays (withBackoff key operation random bm).1.1 !! k = Some d ->
              2000 <= d <= 32000.
Proof.
  intros Hb k d. unfold withBackoff. destruct operation as [v|error]; simpl.
  - intros [_ Hd]%lookup_delete_Some. by eapply Hb.
  - destruct (isRateLimited error); simpl; [|by apply Hb].
    intros [[_ <-]|[_ Hd]]%lookup_insert_Some; [|by eapply Hb].
    assert (1000 <= currentDelayOf key bm).
    { unfold currentDelayOf. destruct (delays bm !! key) as [d0|] eqn:Hd0; [|done].
      destruct (Z.eqb_spec d0 0); [done|]. apply Hb in Hd0. lia. }
    unfold maxDelay. lia.
Qed.

(** X5. Whatever calls are wrapped, starting from an empty manager, every
    sleep lasts between 750 ms and 40000 ms: the floor of 100 ms in the code
    is never reached, and a sleep may exceed the 32 s ceiling of the stored
    delay by the jitter, up to a quarter. *)
Theorem sleeps_bounded {T : Type} (calls : list (call T)) (s : Q) :
  Forall (fun c => (0 <= call_random c)%Q /\ (call_random c < 1)%Q) calls ->
  s ∈ sleeps (runEffects calls newBackoffManager) ->
  (750 <= s)%Q /\ (s <= 40000)%Q.
Proof.
  intros Hr.
  assert (forall k d, delays newBackoffManager !! k = Some d -> 2000 <= d <= 32000) as Hb
    by (intros k d; simpl; by rewrite lookup_empty).
  revert Hb. generalize newBackoffManager as bm.
  induction Hr as [|c calls [Hr0 Hr1] _ IH]; intros bm Hb; simpl.
  - by intros ?%elem_of_nil.
  - pose proof (withBackoff_range (call_key c) (call_outcome c) (call_random c) bm Hb) as Hb'.
    destruct (withBackoff (call_key c) (call_outcome c) (call_random c) bm)
      as [[bm' effs] o] eqn:Hwb.
    unfold sleeps. rewrite omap_app. intros [Hin|Hin]%elem_of_app; [|by apply (IH bm')].
    unfold withBackoff in Hwb.
    destruct (call_outcome c) as [v|error]; simplify_eq; simpl in Hin;
      [by apply elem_of_nil in Hin|].
    destruct (isRateLimited error); simplify_eq; simpl in Hin;
      [|by apply elem_of_nil in Hin].
    apply list_elem_of_singleton in Hin as ->.
    assert (1000 <= currentDelayOf (call_key c) bm <= 32000) as Hc.
    { unfold currentDelayOf. destruct (delays bm !! call_key c) as [d0|] eqn:Hd0;
        [|unfold baseDelay; lia].
      destruct (Z.eqb_spec d0 0); [unfold baseDelay; lia|]. apply Hb in Hd0. lia. }
    destruct (delayWithJitter_bounds (currentDelayOf (call_key c) bm) (call_random c))
      as [Hlo Hhi]; [lia | done..|].
    assert (1000 <= inject_Z (currentDelayOf (call_key c) bm))%Q as Hq1.
    { change 1000%Q with (inject_Z 1000). rewrite <- Zle_Qle. lia. }
    assert (inject_Z (currentDelayOf (call_key c) bm) <= 32000)%Q as Hq2.
    { change 32000%Q with (inject_Z 32000). rewrite <- Zle_Qle. lia. }
    split; lra.
Qed.

Lemma sleeps_bounded_witness :
  (750 <= delayWithJitter 1000 0)%Q /\ (delayWithJitter 1000 0 <= 40000)%Q.
Proof.
  apply (sleeps_bounded (T := json)
           (failing "google-cse"
              (ThrownValue (Some (handleGoogleCSEError 429 "Too Many Requests")))
              [0; 1 # 2; 9 # 10]%Q) (delayWithJitter 1000 0)).
  - repeat constructor; simpl; lra.
  - apply list_elem_of_here.
Defined.

Lemma withBackoff_same_key {T : Type} key (operation : outcome T) random bm1 bm2 :
  delays bm1 !! key = delays bm2 !! key ->
  delays (withBackoff key operation random bm1).1.1 !! key
    = delays (withBackoff key operation random bm2).1.1 !! key.
Proof.
  intros He. unfold withBackoff, currentDelayOf. rewrite He.
  destruct operation as [v|error]; simpl.
  - by rewrite !lookup_delete_eq.
  - destruct (isRateLimited error); simpl; [|done]. by rewrite !lookup_insert_eq.
Qed.

Lemma withBackoff_other_key {T : Type} key k (operation : outcome T) random bm :
  k ≠ key -> delays (withBackoff key operation random bm).1.1 !! k = delays bm !! k.
Proof.
  intros Hne. unfold withBackoff. destruct operation as [v|error]; simpl.
  - by rewrite lookup_delete_ne.
  - destruct (isRateLimited error); simpl; [|done]. by rewrite lookup_insert_ne.
Qed.

(** X6. Keys back off independently: the delay stored for a key after any
    series of wrapped calls is the one stored after only the calls made
    under that key; calls under other keys neither grow nor clear it. *)
Theorem backoff_per_key {T : Type} (key : string) (calls : list (call T))
    (bm : BackoffManager) :
  delays (run calls bm) !! key
    = delays (run (filter (fun c => call_key c = key) calls) bm) !! key.
Proof.
  assert (forall bm1 bm2, delays bm1 !! key = delays bm2 !! key ->
            delays (run calls bm1) !! key
            = delays (run (filter (fun c => call_key c = key) calls) bm2) !! key) as Hgen.
  { induction calls as [|c calls IH]; intros bm1 bm2 He; simpl; [done|].
    destruct (decide (call_key c = key)) as [Hk|Hk].
    - rewrite filter_cons_True by done. simpl. apply IH. rewrite Hk.
      by apply withBackoff_same_key.
    - rewrite filter_cons_False by done. apply IH.
      rewrite withBackoff_other_key by done. done. }
  by apply Hgen.
Qed.

End BackoffMore.

(** ** errors.ts *)

Section ErrorFacts.

(** X7. Of all upstream statuses of the search provider only 429 is mapped
    to RATE_LIMITED, so only 429 makes [withBackoff] sleep and grow its
    delay; every mapped error records the status as details.upstreamStatus
    and, being a plain object with a code, is handed to the client as it
    is. *)
Theorem google_error_mapping (status : Z) (statusText : string) :
  let e := handleGoogleCSEError status statusText in
  Backoff.isRateLimited (ThrownValue (Some e)) = (status =? 429) /\
  (exists d, get_prop e "details" = Some d /\ get_prop d "upstreamStatus" = Some (JNum status)) /\
  Server.errorOfThrown (ThrownValue (Some e)) = Server.ErrorAsThrown (ThrownValue (Some e)).
Proof.
  unfold handleGoogleCSEError.
  destruct (status =? 429); [|destruct (status =? 403); [|destruct (status =? 400)]];
    (split_and!; [reflexivity | eexists; split; reflexivity | reflexivity]).
Qed.


End ErrorFacts.

(** ** httpServer.ts: sessions, streams and the listener *)

Section ServerMore.
Import Server.

(** The dispatcher touches the limiter, the backoff manager and the
    sessions, and nothing of the streams. *)
Lemma processJsonRpcRequest_streams message sid w st :
  sseStreams (processJsonRpcRequest message sid w st).1.1 = sseStreams st /\
  streamObjects (processJsonRpcRequest message sid w st).1.1 = streamObjects st /\
  globalEventId (processJsonRpcRequest message sid w st).1.1 = globalEventId st.
Proof.
  unfold processJsonRpcRequest, handleInitialize, handleToolCall.
  repeat case_match; simplify_eq; done.
Qed.

Lemma sweep_fold now (l : list (string * Session)) st :
  let st' := foldr (fun '(sessionId, session) st =>
                      if now - lastAccessedAt session >? sessionTimeout
                      then set_messageQueues
                             (set_sseStreams
                                (set_sessions st (delete sessionId (sessions st)))
                                (delete sessionId (sseStreams st)))
                             (delete sessionId (messageQueues st))
                      else st) st l in
  sessions st' = foldr delete (sessions st) (sweptKeys now l) /\
  sseStreams st' = foldr delete (sseStreams st) (sweptKeys now l) /\
  messageQueues st' = foldr delete (messageQueues st) (sweptKeys now l) /\
  rateLimiter st' = rateLimiter st /\ backoffManager st' = backoffManager st /\
  streamObjects st' = streamObjects st /\ globalEventId st' = globalEventId st /\
  wire st' = wire st.
Proof.
  induction l as [|[k s] l IH]; simpl; [done|].
  destruct IH as (Hs & Hq & Hm & ? & ? & ? & ? & ?).
  destruct (now - lastAccessedAt s >? sessionTimeout); simpl; [|done].
  rewrite Hs, Hq, Hm. done.
Qed.

Lemma sweptKeys_spec now (m : gmap string Session) k :
  k ∈ sweptKeys now (map_to_list m) <-> exists s, m !! k = Some s /\ idle now s.
Proof.
  unfold sweptKeys, idle. rewrite list_elem_of_omap. split.
  - intros [[k' s] [Hin Hsome]]. apply elem_of_map_to_list in Hin.
    destruct (Z.gtb_spec (now - lastAccessedAt s) sessionTimeout); simplify_eq.
    exists s. split; [done | lia].
  - intros [s [Hk Hidle]]. exists (k, s). split; [by apply elem_of_map_to_list|].
    destruct (Z.gtb_spec (now - lastAccessedAt s) sessionTimeout); [done | lia].
Qed.

(** The sweep touches the three maps keyed by session id and nothing else. *)
Lemma cleanupSessions_frame now st :
  rateLimiter (cleanupSessions now st) = rateLimiter st /\
  backoffManager (cleanupSessions now st) = backoffManager st /\
  streamObjects (cleanupSessions now st) = streamObjects st /\
  globalEventId (cleanupSessions now st) = globalEventId st /\
  wire (cleanupSessions now st) = wire st.
Proof.
  unfold cleanupSessions.
  by destruct (sweep_fold now (map_to_list (sessions st)) st) as (_ & _ & _ & ? & ? & ? & ? & ?).
Qed.

(** X9. The sweep destroys exactly the sessions idle for more than an hour:
    a session survives iff it was there and is not idle; an idle session's
    stream list and queue go with it; the streams and queues filed under
    any other key, and everything else in the server, stay as they were. *)
Theorem sweep_exact (now : Z) (st : Server) :
  let st' := cleanupSessions now st in
  (forall k s, sessions st' !! k = Some s <-> sessions st !! k = Some s /\ ~ idle now s) /\
  (forall k s, sessions st !! k = Some s -> idle now s ->
     sseStreams st' !! k = None /\ messageQueues st' !! k = None) /\
  (forall k, ~ (exists s, sessions st !! k = Some s /\ idle now s) ->
     sseStreams st' !! k = sseStreams st !! k /\
     messageQueues st' !! k = messageQueues st !! k) /\
  rateLimiter st' = rateLimiter st /\ backoffManager st' = backoffManager st /\
  globalEventId st' = globalEventId st /\ wire st' = wire st.
Proof.
  unfold cleanupSessions.
  destruct (sweep_fold now (map_to_list (sessions st)) st) as (Hs & Hq & Hm & ? & ? & ? & ? & ?).
  cbv zeta. rewrite Hs, Hq, Hm. split_and!; try done.
  - intros k s. rewrite lookup_foldr_delete_Some, sweptKeys_spec. split.
    + intros [Hnot Hk]. split; [done|]. intros Hidle. apply Hnot. eauto.
    + intros [Hk Hnot]. split; [|done]. intros [s' [Hk' Hidle]]. congruence.
  - intros k s Hk Hidle.
    assert (k ∈ sweptKeys now (map_to_list (sessions st))) as Hin
      by (apply sweptKeys_spec; eauto).
    by rewrite !lookup_foldr_delete.
  - intros k Hnot. rewrite <- sweptKeys_spec in Hnot.
    by rewrite !lookup_foldr_delete_not_elem_of.
Qed.

Lemma sweep_exact_witness :
  let st := run Scenario.keptBusy Scenario.server0 in
  let st' := cleanupSessions 3601001 st in
  (forall k s, sessions st' !! k = Some s <->
               sessions st !! k = Some s /\ ~ idle 3601001 s) /\
  (forall k s, sessions st !! k = Some s -> idle 3601001 s ->
     sseStreams st' !! k = None /\ messageQueues st' !! k = None) /\
  (forall k, ~ (exists s, sessions st !! k = Some s /\ idle 3601001 s) ->
     sseStreams st' !! k = sseStreams st !! k /\
     messageQueues st' !! k = messageQueues st !! k) /\
  rateLimiter st' = rateLimiter st /\ backoffManager st' = backoffManager st /\
  globalEventId st' = globalEventId st /\ wire st' = wire st.
Proof. exact (sweep_exact 3601001 (run Scenario.keptBusy Scenario.server0)). Defined.

Lemma truthy_str_Some sid : sid ≠ "" -> truthy_str (Some sid) = true.
Proof. intros Hne. simpl. by destruct (String.eqb_spec sid ""). Qed.

(** X10. DELETE of a live session answers 200 with an empty body and
    removes the session with its stream list and its queue, leaving other
    sessions alone; a GET that then names the deleted session is refused
    with 404 "Session not found" and registers no stream. *)
Theorem delete_then_get_404 (req req' : Request) (res res' : conn) (st : Server)
    (sid : string) (s : Session) :
  mcp_session_id req = Some sid -> sid ≠ "" ->
  sessions st !! sid = Some s ->
  mcp_session_id req' = Some sid ->
  let st' := handleDelete req res st in
  let st'' := handleGet req' res' st' in
  wire st' = wire st ++ [(res, WriteHead 200 []); (res, End None)] /\
  sessions st' = delete sid (sessions st) /\
  sseStreams st' = delete sid (sseStreams st) /\
  messageQueues st' = delete sid (messageQueues st) /\
  (includes (default "" (or_str (accept req') (Some ""))) "text/event-stream" = true ->
   wire st'' = wire st' ++ [(res', WriteHead 404 [("Content-Type", "application/json")]);
                            (res', End (Some (BodyError "Session not found")))] /\
   sseStreams st'' = sseStreams st' /\ streamObjects st'' = streamObjects st').
Proof.
  intros Hreq Hne Hs Hreq' st'.
  assert (st' = emit res [WriteHead 200 []; End None]
                  (set_messageQueues
                     (set_sseStreams (set_sessions st (delete sid (sessions st)))
                                     (delete sid (sseStreams st)))
                     (delete sid (messageQueues st)))) as Hst'.
  { subst st'. unfold handleDelete. rewrite Hreq, (truthy_str_Some sid Hne). simpl.
    rewrite Hs. by rewrite bool_decide_eq_true_2. }
  rewrite Hst'. simpl. split_and!; try done.
  intros Hacc. unfold handleGet. rewrite Hacc, Hreq', (truthy_str_Some sid Hne). simpl.
  rewrite lookup_delete_eq. rewrite bool_decide_eq_false_2 by (by intros [? ?]). done.
Qed.

Lemma delete_then_get_404_witness :
  let st := run Scenario.twoListeners Scenario.server0 in
  let req := with_body (Scenario.get (Some "s1") None) (Returned JNull) in
  let req' := Scenario.get (Some "s1") (Some "0") in
  let st' := handleDelete req 4%nat st in
  let st'' := handleGet req' 5%nat st' in
  wire st' = wire st ++ [(4%nat, WriteHead 200 []); (4%nat, End None)] /\
  sessions st' = delete "s1" (sessions st) /\
  sseStreams st' = delete "s1" (sseStreams st) /\
  messageQueues st' = delete "s1" (messageQueues st) /\
  (includes (default "" (or_str (accept req') (Some ""))) "text/event-stream" = true ->
   wire st'' = wire st' ++ [(5%nat, WriteHead 404 [("Content-Type", "application/json")]);
                            (5%nat, End (Some (BodyError "Session not found")))] /\
   sseStreams st'' = sseStreams st' /\ streamObjects st'' = streamObjects st').
Proof.
  apply (delete_then_get_404
           (with_body (Scenario.get (Some "s1") None) (Returned JNull))
           (Scenario.get (Some "s1") (Some "0")) 4%nat 5%nat
           (run Scenario.twoListeners Scenario.server0) "s1"
           {| id := "s1"; createdAt := 1000; lastAccessedAt := 1000; initialized := true |}).
  - reflexivity.
  - discriminate.
  - vm_compute. reflexivity.
  - reflexivity.
Defined.

(** X11. A DELETE that names no session (no header, or an empty one) is
    answered 400, and one that names an unknown session 404; in both cases
    nothing but the response is written: sessions, streams and queues are
    untouched. *)
Theorem delete_refused (req : Request) (res : conn) (st : Server) :
  (truthy_str (mcp_session_id req) = false \/
   sessions st !! default "" (mcp_session_id req) = None) ->
  let st' := handleDelete req res st in
  wire st' = wire st ++
    (if truthy_str (mcp_session_id req)
     then [(res, WriteHead 404 []); (res, End None)]
     else [(res, WriteHead 400 [("Content-Type", "application/json")]);
           (res, End (Some (BodyError "Missing Mcp-Session-Id header")))]) /\
  sessions st' = sessions st /\ sseStreams st' = sseStreams st /\
  messageQueues st' = messageQueues st /\ streamObjects st' = streamObjects st.
Proof.
  intros Hcase. unfold handleDelete.
  destruct (truthy_str (mcp_session_id req)) eqn:Ht; simpl; [|done].
  destruct Hcase as [?|Hnone]; [done|].
  rewrite Hnone. rewrite bool_decide_eq_false_2 by (by intros [? ?]). done.
Qed.

Lemma delete_refused_witness :
  let req := with_body (Scenario.get (Some "ghost") None) (Returned JNull) in
  let st := run Scenario.twoListeners Scenario.server0 in
  let st' := handleDelete req 4%nat st in
  wire st' = wire st ++
    (if truthy_str (mcp_session_id req)
     then [(4%nat, WriteHead 404 []); (4%nat, End None)]
     else [(4%nat, WriteHead 400 [("Content-Type", "application/json")]);
           (4%nat, End (Some (BodyError "Missing Mcp-Session-Id header")))]) /\
  sessions st' = sessions st /\ sseStreams st' = sseStreams st /\
  messageQueues st' = messageQueues st /\ streamObjects st' = streamObjects st.
Proof.
  apply (delete_refused (with_body (Scenario.get (Some "ghost") None) (Returned JNull)) 4%nat
           (run Scenario.twoListeners Scenario.server0)).
  right. vm_compute. reflexivity.
Defined.

Lemma remove_first_app_fresh (c : conn) (l : list conn) :
  c ∉ l -> remove_first c (l ++ [c]) = l.
Proof.
  induction l as [|x l IH]; simpl; intros Hnot.
  - by rewrite Nat.eqb_refl.
  - apply not_elem_of_cons in Hnot as [Hne Hnot].
    destruct (Nat.eqb_spec x c); [congruence|]. by rewrite IH.
Qed.

(** X12. A GET that opens a stream for a live session appends that stream
    to the session's list, after the streams already there; when the client
    closes the connection the close handler takes it out again, and the
    list is what it was. The session itself is not touched by either. *)
Theorem get_registers_close_unregisters (req : Request) (res : conn) (st : Server)
    (sid : string) (s : Session) :
  mcp_session_id req = Some sid -> sid ≠ "" ->
  sessions st !! sid = Some s ->
  includes (default "" (or_str (accept req) (Some ""))) "text/event-stream" = true ->
  res ∉ default [] (sseStreams st !! sid) ->
  let st' := handleGet req res st in
  sseStreams st' !! sid = Some (default [] (sseStreams st !! sid) ++ [res]) /\
  (forall k, k ≠ sid -> sseStreams st' !! k = sseStreams st !! k) /\
  sseStreams (clientClose res (Some sid) st') !! sid = Some (default [] (sseStreams st !! sid)) /\
  sessions st' = sessions st /\
  sessions (clientClose res (Some sid) st') = sessions st.
Proof.
  intros Hreq Hne Hs Hacc Hfresh st'.
  assert (sseStreams st' = <[sid := default [] (sseStreams st !! sid) ++ [res]]> (sseStreams st))
    as Hstreams.
  { subst st'. unfold handleGet. rewrite Hacc, Hreq, (truthy_str_Some sid Hne). simpl.
    rewrite Hs. rewrite bool_decide_eq_true_2 by (by eexists). simpl.
    destruct (truthy_str (last_event_id req)); [|done].
    by rewrite (proj2 (proj2 (replay_fields _ _ _ _))). }
  assert (sessions st' = sessions st) as Hsess
    by (subst st'; apply handleGet_fields).
  split_and!; try done.
  - rewrite Hstreams. apply lookup_insert_eq.
  - intros k Hk. rewrite Hstreams. by apply lookup_insert_ne.
  - unfold clientClose, removeSSEStream. rewrite (truthy_str_Some sid Hne). simpl.
    rewrite Hstreams, lookup_insert_eq. simpl. rewrite lookup_insert_eq.
    by rewrite remove_first_app_fresh.
  - unfold clientClose. rewrite (truthy_str_Some sid Hne).
    by rewrite (proj1 (removeSSEStream_fields _ _ _)).
Qed.

Lemma get_registers_close_unregisters_witness :
  let st := run Scenario.twoListeners Scenario.server0 in
  let req := Scenario.get (Some "s1") None in
  let st' := handleGet req 9%nat st in
  sseStreams st' !! "s1" = Some (default [] (sseStreams st !! "s1") ++ [9%nat]) /\
  (forall k, k ≠ "s1" -> sseStreams st' !! k = sseStreams st !! k) /\
  sseStreams (clientClose 9%nat (Some "s1") st') !! "s1"
    = Some (default [] (sseStreams st !! "s1")) /\
  sessions st' = sessions st /\
  sessions (clientClose 9%nat (Some "s1") st') = sessions st.
Proof.
  apply (get_registers_close_unregisters (Scenario.get (Some "s1") None) 9%nat
           (run Scenario.twoListeners Scenario.server0) "s1"
           {| id := "s1"; createdAt := 1000; lastAccessedAt := 1000; initialized := true |}).
  - reflexivity.
  - discriminate.
  - vm_compute. reflexivity.
  - reflexivity.
  - vm_compute. intros Hin.
    apply elem_of_cons in Hin as [Hin|Hin]; [discriminate|].
    apply elem_of_cons in Hin as [Hin|Hin]; [discriminate|].
    by apply elem_of_nil in Hin.
Defined.

(** X13. A GET without session id (or with an empty one) that accepts
    text/event-stream is answered 200, but its stream is registered under no
    session: the registry and the sessions are unchanged, nothing is
    replayed and no event id is used. Without text/event-stream in Accept
    it is refused with 405. *)
Theorem get_without_session (req : Request) (res : conn) (st : Server) :
  truthy_str (mcp_session_id req) = false ->
  let st' := handleGet req res st in
  sseStreams st' = sseStreams st /\ sessions st' = sessions st /\
  globalEventId st' = globalEventId st /\
  wire st' = wire st ++
    (if includes (default "" (or_str (accept req) (Some ""))) "text/event-stream"
     then [(res, WriteHead 200 [("Content-Type", "text/event-stream");
                                ("Cache-Control", "no-cache");
                                ("Connection", "keep-alive")])]
     else [(res, WriteHead 405 []); (res, End None)]).
Proof.
  intros Hno. unfold handleGet. rewrite Hno.
  destruct (includes (default "" (or_str (accept req) (Some ""))) "text/event-stream");
    simpl; done.
Qed.

Lemma get_without_session_witness :
  let req := Scenario.get None (Some "3") in
  let st := run Scenario.twoListeners Scenario.server0 in
  let st' := handleGet req 9%nat st in
  sseStreams st' = sseStreams st /\ sessions st' = sessions st /\
  globalEventId st' = globalEventId st /\
  wire st' = wire st ++
    (if includes (default "" (or_str (accept req) (Some ""))) "text/event-stream"
     then [(9%nat, WriteHead 200 [("Content-Type", "text/event-stream");
                                  ("Cache-Control", "no-cache");
                                  ("Connection", "keep-alive")])]
     else [(9%nat, WriteHead 405 []); (9%nat, End None)]).
Proof.
  apply (get_without_session (Scenario.get None (Some "3")) 9%nat
           (run Scenario.twoListeners Scenario.server0)).
  reflexivity.
Defined.

(** *** Every request is answered, and event ids *)

Lemma replay_wire res queue lastId : forall st,
  exists evs,
    wire (replay res queue lastId st) = wire st ++ map (fun o => (res, o)) evs /\
    Forall (fun o => isHead o = false) evs /\
    globalEventId (replay res queue lastId st) = globalEventId st.
Proof.
  unfold replay. induction queue as [|msg queue IH]; intros st; simpl.
  - exists []. by rewrite app_nil_r.
  - destruct lastId as [n|]; [destruct (eventId msg >? n)|].
    + destruct (IH (sendSSE res (data msg) (Some (eventId msg)) st)) as (evs & -> & Hall & ->).
      exists (WriteEventId (eventId msg) :: WriteEventData (data msg) :: evs).
      simpl. rewrite <- app_assoc. split; [done|]. split; [|done].
      by repeat constructor.
    + apply IH.
    + apply IH.
Qed.

Lemma answeredOn_intro res before status headers rest :
  In status [200; 202; 400; 404; 405] ->
  Forall (fun o => isHead o = false) rest ->
  answeredOn res before (before ++ map (fun o => (res, o)) (WriteHead status headers :: rest)).
Proof. intros. by exists status, headers, rest. Qed.

Lemma handlePost_answers req res w st :
  answeredOn res (wire st) (wire (handlePost req res w st).1).
Proof.
  unfold handlePost. destruct (parsed_body req) as [message|e].
  2: { apply (answeredOn_intro res (wire st) 400 _ [_]); [simpl; tauto | by repeat constructor]. }
  pose proof (processJsonRpcRequest_fields message (mcp_session_id req) w st) as [_ Hw].
  destruct (processJsonRpcRequest message (mcp_session_id req) w st) as [[st1 effs] r].
  simpl in Hw. destruct r as [[response newSessionId]|e].
  2: { simpl. rewrite Hw.
       apply (answeredOn_intro res (wire st) 400 _ [_]); [simpl; tauto | by repeat constructor]. }
  destruct (negb (truthy (get_prop message "id"))).
  { simpl. rewrite Hw.
    apply (answeredOn_intro res (wire st) 202 _ [_]); [simpl; tauto | by repeat constructor]. }
  destruct (includes _ _).
  - destruct (truthy_str (or_str newSessionId (mcp_session_id req))); simpl;
      rewrite Hw, <- app_assoc;
      apply (answeredOn_intro res (wire st) 200 _ [_; _]); (simpl; tauto) || by repeat constructor.
  - simpl. rewrite Hw.
    apply (answeredOn_intro res (wire st) 200 _ [_]); [simpl; tauto | by repeat constructor].
Qed.

Lemma handleGet_answers req res st :
  answeredOn res (wire st) (wire (handleGet req res st)).
Proof.
  unfold handleGet. repeat case_match; simpl;
    try (match goal with
         | |- context [replay ?a ?b ?c ?d] =>
             destruct (replay_wire a b c d) as (evs & -> & Hall & _); simpl;
             rewrite <- app_assoc;
             apply (answeredOn_intro res (wire st) 200 _ evs); [simpl; tauto | exact Hall]
         end);
    first [ apply (answeredOn_intro res (wire st) 405 _ [_])
          | apply (answeredOn_intro res (wire st) 404 _ [_])
          | apply (answeredOn_intro res (wire st) 200 _ []) ];
    (simpl; tauto) || by repeat constructor.
Qed.

(** X14. Whatever the request and whatever state the server is in, the
    listener answers it: exactly one response head is written, on the
    request's own response and before anything else written for it, with
    status 200, 202, 400, 404 or 405; nothing is written to any other
    response. In particular no request is ever refused for its Origin (403)
    and none ends in 500. *)
Theorem every_request_answered (req : Request) (res : conn) (w : World) (st : Server) :
  answeredOn res (wire st) (wire (createHttpServer req res w st).1) /\
  validateOrigin req = true.
Proof.
  assert (validateOrigin req = true) as Hv
    by (unfold validateOrigin; repeat case_match; done).
  split; [|done]. unfold createHttpServer. rewrite Hv. simpl.
  destruct (method req); simpl.
  - destruct (String.eqb (url req) "/health"); simpl.
    { apply (answeredOn_intro res (wire st) 200 _ [_]); [simpl; tauto | by repeat constructor]. }
    destruct (String.eqb (url req) "/mcp" || String.eqb (url req) "/")%bool; simpl.
    + apply handleGet_answers.
    + apply (answeredOn_intro res (wire st) 404 _ [_]); [simpl; tauto | by repeat constructor].
  - destruct (String.eqb (url req) "/mcp" || String.eqb (url req) "/")%bool; simpl.
    + apply handlePost_answers.
    + apply (answeredOn_intro res (wire st) 404 _ [_]); [simpl; tauto | by repeat constructor].
  - destruct (String.eqb (url req) "/mcp" || String.eqb (url req) "/")%bool; simpl.
    + unfold handleDelete. repeat case_match; simpl.
      * apply (answeredOn_intro res (wire st) 400 _ [_]); [simpl; tauto | by repeat constructor].
      * apply (answeredOn_intro res (wire st) 200 _ [_]); [simpl; tauto | by repeat constructor].
      * apply (answeredOn_intro res (wire st) 404 _ [_]); [simpl; tauto | by repeat constructor].
    + apply (answeredOn_intro res (wire st) 404 _ [_]); [simpl; tauto | by repeat constructor].
  - apply (answeredOn_intro res (wire st) 200 _ [_]); [simpl; tauto | by repeat constructor].
  - destruct (String.eqb (url req) "/mcp" || String.eqb (url req) "/")%bool; simpl.
    + apply (answeredOn_intro res (wire st) 405 _ [_]); [simpl; tauto | by repeat constructor].
    + apply (answeredOn_intro res (wire st) 404 _ [_]); [simpl; tauto | by repeat constructor].
Qed.

Lemma wireEventIds_app l1 l2 : wireEventIds (l1 ++ l2) = wireEventIds l1 ++ wireEventIds l2.
Proof. apply omap_app. Qed.

(** A request handled by [handlePost] puts no event id on the wire, or one:
    the counter's next value. *)
Lemma handlePost_events req res w st :
  (wireEventIds (wire (handlePost req res w st).1) = wireEventIds (wire st) /\
   globalEventId (handlePost req res w st).1 = globalEventId st) \/
  (wireEventIds (wire (handlePost req res w st).1)
     = wireEventIds (wire st) ++ [globalEventId st + 1] /\
   globalEventId (handlePost req res w st).1 = globalEventId st + 1).
Proof.
  unfold handlePost. destruct (parsed_body req) as [message|e].
  2: { left. simpl. by rewrite wireEventIds_app, app_nil_r. }
  pose proof (processJsonRpcRequest_fields message (mcp_session_id req) w st) as [_ Hw].
  pose proof (processJsonRpcRequest_streams message (mcp_session_id req) w st) as (_ & _ & Hg).
  destruct (processJsonRpcRequest message (mcp_session_id req) w st) as [[st1 effs] r].
  simpl in Hw, Hg. destruct r as [[response newSessionId]|e].
  2: { left. simpl. by rewrite Hw, Hg, wireEventIds_app, app_nil_r. }
  destruct (negb (truthy (get_prop message "id"))).
  { left. simpl. by rewrite Hw, Hg, wireEventIds_app, app_nil_r. }
  destruct (includes _ _).
  - right. destruct (truthy_str (or_str newSessionId (mcp_session_id req))); simpl;
      rewrite Hw, Hg, !wireEventIds_app; simpl; by rewrite app_nil_r.
  - left. simpl. by rewrite Hw, Hg, wireEventIds_app, app_nil_r.
Qed.

Lemma handleGet_events req res st :
  messageQueues st = ∅ ->
  wireEventIds (wire (handleGet req res st)) = wireEventIds (wire st) /\
  globalEventId (handleGet req res st) = globalEventId st.
Proof.
  intros Hq. unfold handleGet. repeat case_match; simpl;
    rewrite ?Hq, ?lookup_empty; simpl; rewrite ?wireEventIds_app; simpl;
    by rewrite ?app_nil_r.
Qed.

(** When the listener answers on its own, it writes a head and an end. *)
Lemma createHttpServer_direct req res w st :
  (createHttpServer req res w st).1 = (handlePost req res w st).1 \/
  (createHttpServer req res w st).1 = handleGet req res st \/
  (createHttpServer req res w st).1 = handleDelete req res st \/
  exists status headers body,
    (createHttpServer req res w st).1 = emit res [WriteHead status headers; End body] st.
Proof. unfold createHttpServer. repeat case_match; eauto 10. Qed.

Lemma step_events ev st :
  messageQueues st = ∅ ->
  (wireEventIds (wire (step ev st)) = wireEventIds (wire st) /\
   globalEventId (step ev st) = globalEventId st) \/
  (wireEventIds (wire (step ev st)) = wireEventIds (wire st) ++ [globalEventId st + 1] /\
   globalEventId (step ev st) = globalEventId st + 1).
Proof.
  intros Hq. destruct ev as [req res w|now|now|res key|res|res sid]; simpl.
  - destruct (createHttpServer_direct req res w st)
      as [-> | [-> | [-> | (status & headers & body & ->)]]].
    + apply handlePost_events.
    + left. by apply handleGet_events.
    + left. unfold handleDelete. repeat case_match; simpl;
        by rewrite wireEventIds_app, app_nil_r.
    + left. simpl. by rewrite wireEventIds_app, app_nil_r.
  - left. destruct (cleanupSessions_frame now st) as (_ & _ & _ & Hg & Hw). by rewrite Hg, Hw.
  - by left.
  - left. unfold postStreamTimeout, removeSSEStream. repeat case_match; simpl;
      by rewrite wireEventIds_app, app_nil_r.
  - left. simpl. by rewrite wireEventIds_app, app_nil_r.
  - left. unfold clientClose, removeSSEStream. repeat case_match; done.
Qed.

(** X15. In every state the server can reach, the event ids written so
    far, over all responses and all sessions and in the order they were
    written, are 1, 2, ..., globalEventId: strictly increasing, without
    repetition and without a gap. Keepalives, sweeps and refused requests
    use no id. *)
Theorem event_ids_sequential (windowMs max : Z) (st : Server) :
  Reachable windowMs max st ->
  wireEventIds (wire st) = seqZ 1 (globalEventId st) /\
  0 <= globalEventId st /\
  NoDup (wireEventIds (wire st)) /\
  (forall i j a b, wireEventIds (wire st) !! i = Some a -> wireEventIds (wire st) !! j = Some b ->
                   (i < j)%nat -> a < b).
Proof.
  intros Hreach.
  assert (wireEventIds (wire st) = seqZ 1 (globalEventId st) /\ 0 <= globalEventId st)
    as [Hseq Hpos].
  { induction Hreach as [|st ev Hreach [IH IHpos] Hok]; [done|].
    destruct (step_events ev st (reachable_no_queue _ _ _ Hreach)) as [[-> ->]|[-> ->]];
      [done|].
    split; [|lia]. rewrite IH, seqZ_app by lia.
    f_equal. rewrite seqZ_cons by lia. rewrite seqZ_nil by lia. f_equal. lia. }
  split_and!; try done.
  - rewrite Hseq. apply NoDup_seqZ.
  - rewrite Hseq. intros i j a b [-> _]%lookup_seqZ [-> _]%lookup_seqZ Hlt. lia.
Qed.

Lemma event_ids_sequential_witness :
  let st := run Scenario.resume Scenario.server0 in
  wireEventIds (wire st) = seqZ 1 (globalEventId st) /\
  0 <= globalEventId st /\
  NoDup (wireEventIds (wire st)) /\
  (forall i j a b, wireEventIds (wire st) !! i = Some a -> wireEventIds (wire st) !! j = Some b ->
                   (i < j)%nat -> a < b).
Proof.
  apply (event_ids_sequential 60000 120 (run Scenario.resume Scenario.server0)).
  unfold Scenario.resume. cbn [run foldl].
  do 3 (apply reach_step; [|first [exact I | simpl; discriminate]]).
  apply reach_init.
Defined.

(** *** The dispatcher, method by method *)

Lemma is_str_true v s : is_str v s = true -> v = Some (JStr s).
Proof.
  destruct v as [[]|]; simpl; try discriminate. by intros ->%String.eqb_eq.
Qed.

Lemma set_rateLimiter_same st : set_rateLimiter st (rateLimiter st) = st.
Proof. by destruct st. Qed.

(** X16. While the limiter's window is full, a tools/call is answered with
    the limiter's RATE_LIMITED object as the JSON-RPC error, retryAfterMs
    being the time left in the window; the collaborator is not invoked,
    whatever tool was named, and the server state does not change. *)
Theorem throttled_tool_call (message p : json) (sid : option string) (w : World)
    (st : Server) (e : RateLimit.RateLimitEntry) :
  is_str (get_prop message "jsonrpc") "2.0" = true ->
  is_str (get_prop message "method") "tools/call" = true ->
  get_prop message "params" = Some p -> p ≠ JNull ->
  RateLimit.limits (rateLimiter st) !! "default-client" = Some e ->
  now w < RateLimit.resetTime e ->
  RateLimit.maxRequests (rateLimiter st) <= RateLimit.count e ->
  processJsonRpcRequest message sid w st =
    (st, [EffCheckLimit "default-client"],
     Returned ({| rpc_id := get_prop message "id";
                  rpc_payload_of :=
                    RpcError (ErrorAsThrown
                      (RateLimit.rateLimitedError (RateLimit.resetTime e - now w)
                         (RateLimit.maxRequests (rateLimiter st))
                         (RateLimit.windowMs (rateLimiter st)))) |}, None)).
Proof.
  intros Htag Hm Hp Hnull He Hlive Hfull.
  pose proof (currentEntry_live _ _ _ _ He Hlive) as Hcur.
  destruct (checkLimit_reject "default-client" (now w) (rateLimiter st)) as (Hr & _ & Hsame);
    [by rewrite Hcur|].
  specialize (Hsame e He Hlive). rewrite Hcur in Hr.
  unfold processJsonRpcRequest.
  destruct message; try (simpl in Htag; discriminate).
  rewrite Htag, (is_str_true _ _ Hm), Hp. simpl.
  unfold handleToolCall.
  destruct (RateLimit.checkLimit "default-client" (now w) (rateLimiter st)) as [rl r].
  simpl in Hr, Hsame. subst rl r. rewrite set_rateLimiter_same.
  destruct p; done.
Qed.

Lemma throttled_tool_call_witness :
  let st := set_rateLimiter Scenario.server0
              (RateLimit.checkLimits "default-client" [0; 1; 2]
                 (RateLimit.newRateLimiter 60000 3)).1 in
  processJsonRpcRequest Scenario.searchCall None (Scenario.world 1000 "u") st =
    (st, [EffCheckLimit "default-client"],
     Returned ({| rpc_id := get_prop Scenario.searchCall "id";
                  rpc_payload_of :=
                    RpcError (ErrorAsThrown
                      (RateLimit.rateLimitedError
                         (RateLimit.resetTime {| RateLimit.count := 3;
                                                 RateLimit.resetTime := 60000 |} - 1000)
                         (RateLimit.maxRequests (rateLimiter st))
                         (RateLimit.windowMs (rateLimiter st)))) |}, None)).
Proof.
  apply (throttled_tool_call Scenario.searchCall
           (JObj [("name", JStr "google_news_search");
                  ("arguments", JObj [("topic", JStr "rocq")])])
           None (Scenario.world 1000 "u")
           (set_rateLimiter Scenario.server0
              (RateLimit.checkLimits "default-client" [0; 1; 2]
                 (RateLimit.newRateLimiter 60000 3)).1)
           {| RateLimit.count := 3; RateLimit.resetTime := 60000 |}).
  - reflexivity.
  - reflexivity.
  - reflexivity.
  - discriminate.
  - vm_compute. reflexivity.
  - vm_compute. reflexivity.
  - vm_compute. discriminate.
Defined.

(** X17. A tools/call that names neither tool still uses up one unit of
    the rate limit before it fails: the limiter's counter goes up by one,
    no collaborator runs, the backoff manager is untouched, and the failure
    is an Error "Unknown tool: ..." that the dispatcher reports with code
    -32603. *)
Theorem unknown_tool_consumes_capacity (name args : option json) (w : World) (st : Server) :
  is_str name "google_news_search" = false ->
  is_str name "fetch_page" = false ->
  let entry := RateLimit.currentEntry "default-client" (now w) (rateLimiter st) in
  RateLimit.count entry < RateLimit.maxRequests (rateLimiter st) ->
  let '(st', effs, r) := handleToolCall name args w st in
  RateLimit.limits (rateLimiter st') !! "default-client"
    = Some {| RateLimit.count := RateLimit.count entry + 1;
              RateLimit.resetTime := RateLimit.resetTime entry |} /\
  effs = [EffCheckLimit "default-client"] /\
  backoffManager st' = backoffManager st /\
  r = Threw (ThrownError "Error" ("Unknown tool: " +:+ js_string_opt name) None) /\
  errorOfThrown (ThrownError "Error" ("Unknown tool: " +:+ js_string_opt name) None)
    = ErrorInternal ("Error: Unknown tool: " +:+ js_string_opt name).
Proof.
  intros Hg Hf entry Hadm. unfold handleToolCall.
  rewrite checkLimit_admit by done. rewrite Hg, Hf. simpl.
  split_and!; try done. apply lookup_insert_eq.
Qed.

Lemma unknown_tool_consumes_capacity_witness :
  let name := Some (JStr "summarize") in
  let w := Scenario.world 1000 "u" in
  let entry := RateLimit.currentEntry "default-client" (now w) (rateLimiter Scenario.server0) in
  let '(st', effs, r) := handleToolCall name None w Scenario.server0 in
  RateLimit.limits (rateLimiter st') !! "default-client"
    = Some {| RateLimit.count := RateLimit.count entry + 1;
              RateLimit.resetTime := RateLimit.resetTime entry |} /\
  effs = [EffCheckLimit "default-client"] /\
  backoffManager st' = backoffManager Scenario.server0 /\
  r = Threw (ThrownError "Error" ("Unknown tool: " +:+ js_string_opt name) None) /\
  errorOfThrown (ThrownError "Error" ("Unknown tool: " +:+ js_string_opt name) None)
    = ErrorInternal ("Error: Unknown tool: " +:+ js_string_opt name).
Proof.
  apply (unknown_tool_consumes_capacity (Some (JStr "summarize")) None
           (Scenario.world 1000 "u") Scenario.server0).
  - reflexivity.
  - reflexivity.
  - vm_compute. reflexivity.
Defined.

(** X18. An admitted search call ends the way the collaborator ended: its
    result becomes the result of the response, its failure the error of the
    response (as mapped by the dispatcher's catch), never anything else;
    the collaborator runs exactly once, after the limiter, and a sleep
    follows only a RATE_LIMITED failure. A success clears the delay stored
    for "google-cse". *)
Theorem search_call_outcome (message p : json) (sid : option string) (w : World)
    (st : Server) :
  is_str (get_prop message "jsonrpc") "2.0" = true ->
  is_str (get_prop message "method") "tools/call" = true ->
  get_prop message "params" = Some p ->
  is_str (get_prop p "name") "google_news_search" = true ->
  RateLimit.count (RateLimit.currentEntry "default-client" (now w) (rateLimiter st))
    < RateLimit.maxRequests (rateLimiter st) ->
  let '(st', effs, r) := processJsonRpcRequest message sid w st in
  r = Returned ({| rpc_id := get_prop message "id";
                   rpc_payload_of :=
                     match collaborator w with
                     | Returned result => RpcResult (ToolCallResult result)
                     | Threw error => RpcError (errorOfThrown error)
                     end |}, None) /\
  effs = [EffCheckLimit "default-client"; EffOperation "google-cse"]
         ++ match collaborator w with
            | Threw error =>
                if Backoff.isRateLimited error
                then [EffSleep (Backoff.delayWithJitter
                                  (Backoff.currentDelayOf "google-cse" (backoffManager st))
                                  (random w))]
                else []
            | Returned _ => []
            end /\
  (is_returned (collaborator w) = true ->
   Backoff.delays (backoffManager st') !! "google-cse" = None) /\
  sessions st' = sessions st.
Proof.
  intros Htag Hm Hp Hname Hadm.
  unfold processJsonRpcRequest.
  destruct message; try (simpl in Htag; discriminate).
  rewrite Htag, (is_str_true _ _ Hm), Hp. simpl.
  assert (p ≠ JNull) as Hnull by (intros ->; simpl in Hname; discriminate).
  unfold handleToolCall. rewrite checkLimit_admit by done. rewrite Hname.
  unfold Backoff.withBackoff.
  destruct p; try done; simpl;
    destruct (collaborator w) as [result|error]; simpl;
    try destruct (Backoff.isRateLimited error); simpl;
    (split_and!; try done; intros; apply lookup_delete_eq).
Qed.

Lemma search_call_outcome_witness :
  let w := Scenario.world 1000 "u" in
  let '(st', effs, r) := processJsonRpcRequest Scenario.searchCall None w Scenario.server0 in
  r = Returned ({| rpc_id := get_prop Scenario.searchCall "id";
                   rpc_payload_of :=
                     match collaborator w with
                     | Returned result => RpcResult (ToolCallResult result)
                     | Threw error => RpcError (errorOfThrown error)
                     end |}, None) /\
  effs = [EffCheckLimit "default-client"; EffOperation "google-cse"]
         ++ match collaborator w with
            | Threw error =>
                if Backoff.isRateLimited error
                then [EffSleep (Backoff.delayWithJitter
                                  (Backoff.currentDelayOf "google-cse"
                                     (backoffManager Scenario.server0))
                                  (random w))]
                else []
            | Returned _ => []
            end /\
  (is_returned (collaborator w) = true ->
   Backoff.delays (backoffManager st') !! "google-cse" = None) /\
  sessions st' = sessions Scenario.server0.
Proof.
  apply (search_call_outcome Scenario.searchCall
           (JObj [("name", JStr "google_news_search");
                  ("arguments", JObj [("topic", JStr "rocq")])])
           None (Scenario.world 1000 "u") Scenario.server0).
  - reflexivity.
  - reflexivity.
  - reflexivity.
  - reflexivity.
  - vm_compute. reflexivity.
Defined.

(** X19. Requests that are neither initialize nor tools/call never touch
    the server: tools/list and ping are answered with their fixed results
    and an unknown method with the error object of code -32601, handed over
    as it is; the state is unchanged, the limiter is not consulted and no
    collaborator runs. *)
Theorem other_methods_change_nothing (message : json) (sid : option string) (w : World)
    (st : Server) :
  is_str (get_prop message "jsonrpc") "2.0" = true ->
  is_str (get_prop message "method") "initialize" = false ->
  is_str (get_prop message "method") "tools/call" = false ->
  processJsonRpcRequest message sid w st =
    (st, [],
     Returned ({| rpc_id := get_prop message "id";
                  rpc_payload_of :=
                    if is_str (get_prop message "method") "tools/list"
                    then RpcResult ToolsListResult
                    else if is_str (get_prop message "method") "ping"
                    then RpcResult PingResult
                    else RpcError (ErrorAsThrown (methodNotFound (get_prop message "method")))
               |}, None)).
Proof.
  intros Htag Hi Hc. unfold processJsonRpcRequest.
  destruct message; try (simpl in Htag; discriminate).
  rewrite Htag, Hi, Hc. simpl.
  destruct (is_str _ "tools/list"); [done|]. destruct (is_str _ "ping"); done.
Qed.

Lemma other_methods_change_nothing_witness :
  let message := Scenario.envelope (Some (JNum 3)) "resources/list" None in
  processJsonRpcRequest message None (Scenario.world 0 "u") Scenario.server0 =
    (Scenario.server0, [],
     Returned ({| rpc_id := get_prop message "id";
                  rpc_payload_of :=
                    if is_str (get_prop message "method") "tools/list"
                    then RpcResult ToolsListResult
                    else if is_str (get_prop message "method") "ping"
                    then RpcResult PingResult
                    else RpcError (ErrorAsThrown (methodNotFound (get_prop message "method")))
               |}, None)).
Proof.
  apply (other_methods_change_nothing
           (Scenario.envelope (Some (JNum 3)) "resources/list" None) None
           (Scenario.world 0 "u") Scenario.server0); reflexivity.
Defined.

(** *** Session ids and the short-lived stream of a POST *)




Lemma processJsonRpcRequest_no_new_session message sid w st :
  is_str (get_prop message "method") "initialize" = false ->
  forall st1 effs response newSessionId,
    processJsonRpcRequest message sid w st = (st1, effs, Returned (response, newSessionId)) ->
    newSessionId = None /\ rpc_id response = get_prop message "id".
Proof.
  intros Hm st1 effs response newSessionId. unfold processJsonRpcRequest.
  rewrite Hm. repeat case_match; intros; simplify_eq; done.
Qed.

(** X21. A request other than initialize that bears a session id and is
    answered over SSE gets the response head, then one event with the next
    global id carrying the response; meanwhile its stream is the last of the
    session's list, and when the 100 ms timer fires the response is ended
    and the stream is taken out again, so the list is what it was. This
    holds whether or not the id names a live session: for an unknown id the
    registry is left with an (empty) entry under that id. *)
Theorem post_stream_lifecycle (req : Request) (res : conn) (w : World) (st : Server)
    (message : json) (sid : string) :
  parsed_body req = Returned message ->
  is_str (get_prop message "jsonrpc") "2.0" = true ->
  is_str (get_prop message "method") "initialize" = false ->
  truthy (get_prop message "id") = true ->
  includes (default "" (or_str (accept req) (Some ""))) "text/event-stream" = true ->
  mcp_session_id req = Some sid -> sid ≠ "" ->
  res ∉ default [] (sseStreams st !! sid) ->
  let st' := (handlePost req res w st).1 in
  let st'' := postStreamTimeout res (Some sid) st' in
  (exists response,
     rpc_id response = get_prop message "id" /\
     wire st' = wire st ++
       [(res, WriteHead 200 [("Content-Type", "text/event-stream");
                             ("Cache-Control", "no-cache");
                             ("Connection", "keep-alive")]);
        (res, WriteEventId (globalEventId st + 1));
        (res, WriteEventData response)]) /\
  sseStreams st' !! sid = Some (default [] (sseStreams st !! sid) ++ [res]) /\
  wire st'' = wire st' ++ [(res, End None)] /\
  sseStreams st'' !! sid = Some (default [] (sseStreams st !! sid)) /\
  (forall k, k ≠ sid -> sseStreams st'' !! k = sseStreams st !! k).
Proof.
  intros Hbody Htag Hm Hid Hacc Hsid Hne Hfresh.
  pose proof (processJsonRpcRequest_fields message (Some sid) w st) as [_ Hw].
  pose proof (processJsonRpcRequest_streams message (Some sid) w st) as (Hs & _ & Hg).
  destruct (processJsonRpcRequest_responds message (Some sid) w st Htag)
    as (st1 & effs & payload & newSessionId & Hp).
  destruct (processJsonRpcRequest_no_new_session _ _ _ _ Hm _ _ _ _ Hp) as [-> _].
  rewrite Hp in Hw, Hs, Hg. simpl in Hw, Hs, Hg.
  assert ((handlePost req res w st).1
          = sendSSE res {| rpc_id := get_prop message "id"; rpc_payload_of := payload |} None
              (addSSEStream sid res
                 (set_streamObjects
                    (emit res [WriteHead 200 [("Content-Type", "text/event-stream");
                                              ("Cache-Control", "no-cache");
                                              ("Connection", "keep-alive")]] st1)
                    (<[res := {| Server.res := res; sessionId := sid; lastEventId := Some 0;
                                 requestId := get_prop message "id" |}]>
                       (streamObjects st1))))) as Hpost.
  { assert (String.eqb sid "" = false) as Heq by (by destruct (String.eqb_spec sid "")).
    unfold handlePost. rewrite Hbody, Hsid, Hp, Hid, Hacc. simpl.
    unfold or_str. simpl. rewrite !Heq. simpl. by rewrite ?Heq. }
  cbv zeta. rewrite Hpost. split_and!.
  - exists {| rpc_id := get_prop message "id"; rpc_payload_of := payload |}.
    split; [reflexivity|]. simpl. by rewrite Hw, Hg, <- app_assoc.
  - simpl. rewrite Hs. apply lookup_insert_eq.
  - unfold postStreamTimeout. rewrite (truthy_str_Some sid Hne).
    by rewrite (proj2 (proj2 (removeSSEStream_fields _ _ _))).
  - unfold postStreamTimeout, removeSSEStream. rewrite (truthy_str_Some sid Hne). simpl.
    rewrite Hs, lookup_insert_eq. simpl. rewrite lookup_insert_eq.
    by rewrite remove_first_app_fresh.
  - intros k Hk. unfold postStreamTimeout, removeSSEStream.
    rewrite (truthy_str_Some sid Hne). simpl.
    rewrite Hs, lookup_insert_eq. simpl. by rewrite !lookup_insert_ne.
Qed.

Lemma post_stream_lifecycle_witness :
  let req := Scenario.post (Some "ghost") Scenario.json_or_sse Scenario.toolsList in
  let w := Scenario.world 1000 "u" in
  let st := Scenario.server0 in
  let st' := (handlePost req 1%nat w st).1 in
  let st'' := postStreamTimeout 1%nat (Some "ghost") st' in
  (exists response,
     rpc_id response = get_prop Scenario.toolsList "id" /\
     wire st' = wire st ++
       [(1%nat, WriteHead 200 [("Content-Type", "text/event-stream");
                               ("Cache-Control", "no-cache");
                               ("Connection", "keep-alive")]);
        (1%nat, WriteEventId (globalEventId st + 1));
        (1%nat, WriteEventData response)]) /\
  sseStreams st' !! "ghost" = Some (default [] (sseStreams st !! "ghost") ++ [1%nat]) /\
  wire st'' = wire st' ++ [(1%nat, End None)] /\
  sseStreams st'' !! "ghost" = Some (default [] (sseStreams st !! "ghost")) /\
  (forall k, k ≠ "ghost" -> sseStreams st'' !! k = sseStreams st !! k).
Proof.
  apply (post_stream_lifecycle
           (Scenario.post (Some "ghost") Scenario.json_or_sse Scenario.toolsList)
           1%nat (Scenario.world 1000 "u") Scenario.server0 Scenario.toolsList "ghost").
  - reflexivity.
  - reflexivity.
  - reflexivity.
  - reflexivity.
  - reflexivity.
  - reflexivity.
  - discriminate.
  - vm_compute. by intros ?%elem_of_nil.
Defined.

End ServerMore.


(** ** utils.ts: domains, mapping and deduplication *)

Section NewsFacts.
Import News.

Lemma endsWith_refl s : endsWith s s = true.
Proof. destruct s; simpl; [done|]. by rewrite Ascii.eqb_refl, String.eqb_refl. Qed.

Lemma endsWith_app p s suffix :
  endsWith s suffix = true -> endsWith (p +:+ s) suffix = true.
Proof.
  intros H. induction p as [|a p IH]; simpl; [done|].
  rewrite IH. apply orb_true_r.
Qed.

Lemma domainMatches_subdomain domain entry sub :
  domainMatches domain entry = true ->
  domainMatches (sub +:+ "." +:+ domain) entry = true.
Proof.
  unfold domainMatches. intros [Heq|Hend]%orb_true_iff; apply orb_true_iff; right.
  - apply String.eqb_eq in Heq as ->. apply endsWith_app, endsWith_refl.
  - apply endsWith_app. by apply (endsWith_app ".").
Qed.

(** X22. Listing a domain covers its subdomains: if the domain of one URL
    is a subdomain of the domain of another, then under a blocklist the
    first is blocked whenever the second is, and under an allowlist the
    first is let through whenever the second is. *)
Theorem subdomains_follow_domain (P : Platform) (config : ServerConfig) (u1 u2 sub : string) :
  extractDomain P u2 = sub +:+ "." +:+ extractDomain P u1 ->
  (allowedDomains config = [] ->
   isBlockedDomain P u1 config = true -> isBlockedDomain P u2 config = true) /\
  (allowedDomains config ≠ [] ->
   isBlockedDomain P u1 config = false -> isBlockedDomain P u2 config = false).
Proof.
  intros Hsub. unfold isBlockedDomain. rewrite Hsub.
  assert (forall l, existsb (domainMatches (extractDomain P u1)) l = true ->
                    existsb (domainMatches (sub +:+ "." +:+ extractDomain P u1)) l = true)
    as Hmono.
  { intros l [e [Hin He]]%existsb_exists. apply existsb_exists. exists e.
    split; [done|]. by apply domainMatches_subdomain. }
  split.
  - intros ->. simpl. apply Hmono.
  - intros Hne. destruct (allowedDomains config) as [|a l] eqn:Ha; [done|].
    change (0 <? length (a :: l))%nat with true. cbv iota.
    intros H%negb_false_iff. apply negb_false_iff. by apply Hmono.
Qed.

Lemma subdomains_follow_domain_witness :
  let config := {| allowOpinion := false; allowedDomains := [];
                   blockedDomains := ["youtube.com"; "reddit.com"] |} in
  let u1 := "https://youtube.com/watch" in
  let u2 := "https://m.youtube.com/watch" in
  (allowedDomains config = [] ->
   isBlockedDomain asciiPlatform u1 config = true ->
   isBlockedDomain asciiPlatform u2 config = true) /\
  (allowedDomains config ≠ [] ->
   isBlockedDomain asciiPlatform u1 config = false ->
   isBlockedDomain asciiPlatform u2 config = false).
Proof.
  apply (subdomains_follow_domain asciiPlatform
           {| allowOpinion := false; allowedDomains := [];
              blockedDomains := ["youtube.com"; "reddit.com"] |}
           "https://youtube.com/watch" "https://m.youtube.com/watch" "m").
  reflexivity.
Defined.

Lemma domainMatches_empty entry : entry ≠ "" -> domainMatches "" entry = false.
Proof. intros Hne. unfold domainMatches. simpl. by destruct entry. Qed.

(** X23. An item whose URL does not parse has the empty domain: provided
    no list entry is itself empty, it is blocked under any allowlist and
    passes any blocklist. *)
Theorem unparsable_url_blocking (P : Platform) (config : ServerConfig) (url : string) :
  urlHostname P url = None ->
  Forall (fun entry => entry ≠ "") (allowedDomains config ++ blockedDomains config) ->
  isBlockedDomain P url config = bool_decide (allowedDomains config ≠ []).
Proof.
  intros Hnone [Ha Hb]%Forall_app. unfold isBlockedDomain, extractDomain. rewrite Hnone.
  assert (forall l, Forall (fun entry => entry ≠ "") l -> existsb (domainMatches "") l = false)
    as Hnever.
  { intros l Hl. induction Hl as [|e l He _ IH]; simpl; [done|].
    by rewrite domainMatches_empty, IH. }
  rewrite !Hnever by done. by destruct (allowedDomains config).
Qed.

Lemma unparsable_url_blocking_witness :
  let config := {| allowOpinion := false; allowedDomains := [];
                   blockedDomains := ["youtube.com"; "reddit.com"] |} in
  isBlockedDomain asciiPlatform "not a url" config
    = bool_decide (allowedDomains config ≠ []).
Proof.
  apply (unparsable_url_blocking asciiPlatform
           {| allowOpinion := false; allowedDomains := [];
              blockedDomains := ["youtube.com"; "reddit.com"] |} "not a url").
  - reflexivity.
  - repeat constructor; discriminate.
Defined.

Lemma substring_0_2_length s : (String.length (String.substring 0 2 s) <= 2)%nat.
Proof. destruct s as [|a [|b s]]; simpl; try lia. destruct s; simpl; lia. Qed.

(** X24. For an item made by [mapGoogleCSEItem], the date is present
    exactly when signals.hasPublishedTime is set, the language has one or
    two characters when present, and no blockedReason is set; so such an
    item passes the primary filters only if it has a news schema or a
    publication time. *)
Theorem mapped_item_metadata (P : Platform) (config : ServerConfig) (item : GoogleCSEItem) :
  let r := mapGoogleCSEItem P item in
  (is_Some (date r) <-> hasPublishedTime (signals r) = true) /\
  (forall l, lang r = Some l -> (1 <= String.length l <= 2)%nat) /\
  blockedReason (signals r) = None /\
  (keepItem P config r = true ->
   hasNewsSchema (signals r) = true \/ hasPublishedTime (signals r) = true).
Proof.
  cbv zeta.
  assert (is_Some (date (mapGoogleCSEItem P item))
          <-> hasPublishedTime (signals (mapGoogleCSEItem P item)) = true) as Hdate.
  { simpl. unfold Server.or_str.
    destruct (truthy_str (firstMetatag item "article:published_time")) eqn:Ht.
    - split; [done|]. intros _.
      destruct (firstMetatag item "article:published_time"); [by eexists | done].
    - split; [by intros [? ?] | done]. }
  split_and!; try done.
  - intros l. simpl. unfold Server.or_str.
    set (s := String.substring 0 2 _).
    pose proof (substring_0_2_length
                  (default "" (if truthy_str (firstMetatag item "og:locale")
                               then firstMetatag item "og:locale" else Some ""))) as Hlen.
    fold s in Hlen. simpl truthy_str.
    destruct (String.eqb_spec s ""); simpl; [done|].
    intros [= <-]. split; [|done]. destruct s; [done | simpl; lia].
  - unfold keepItem. repeat case_match; try done.
    intros [Hgood|Hd]%orb_true_iff.
    + by apply orb_true_iff in Hgood.
    + right. apply Hdate. by apply bool_decide_eq_true_1 in Hd.
Qed.

Lemma mapped_item_metadata_witness :
  let config := {| allowOpinion := false; allowedDomains := [];
                   blockedDomains := ["youtube.com"] |} in
  let item := {| item_title := "Rocq 9.3 released"; item_snippet := "The new release";
                 link := "https://rocq-prover.org/news"; displayLink := "rocq-prover.org";
                 pagemap := Some {| metatags := Some [[("og:locale", "en_US")]];
                                    newsarticle := None |} |} in
  let r := mapGoogleCSEItem asciiPlatform item in
  (is_Some (date r) <-> hasPublishedTime (signals r) = true) /\
  (forall l, lang r = Some l -> (1 <= String.length l <= 2)%nat) /\
  blockedReason (signals r) = None /\
  (keepItem asciiPlatform config r = true ->
   hasNewsSchema (signals r) = true \/ hasPublishedTime (signals r) = true).
Proof.
  exact (mapped_item_metadata asciiPlatform
           {| allowOpinion := false; allowedDomains := []; blockedDomains := ["youtube.com"] |}
           {| item_title := "Rocq 9.3 released"; item_snippet := "The new release";
              link := "https://rocq-prover.org/news"; displayLink := "rocq-prover.org";
              pagemap := Some {| metatags := Some [[("og:locale", "en_US")]];
                                 newsarticle := None |} |}).
Defined.

(** *** Deduplication *)

Lemma assoc_mapSet {A : Type} key k (v : A) seen :
  assoc k (mapSet key v seen) = if String.eqb k key then Some v else assoc k seen.
Proof.
  induction seen as [|[k0 x] seen IH]; simpl; [done|].
  destruct (String.eqb_spec key k0) as [->|Hne]; simpl.
  - by destruct (String.eqb_spec k k0).
  - rewrite IH. destruct (String.eqb_spec k k0) as [->|]; [|done].
    by destruct (String.eqb_spec k0 key).
Qed.

Lemma mapSet_keys {A : Type} key k (v : A) seen :
  k ∈ map fst (mapSet key v seen) <-> k = key \/ k ∈ map fst seen.
Proof.
  induction seen as [|[k0 x] seen IH]; simpl.
  - rewrite list_elem_of_singleton, elem_of_nil. tauto.
  - destruct (String.eqb_spec key k0) as [->|Hne]; simpl.
    + rewrite !elem_of_cons. tauto.
    + rewrite !elem_of_cons, IH. tauto.
Qed.

Lemma NoDup_mapSet {A : Type} key (v : A) seen :
  NoDup (map fst seen) -> NoDup (map fst (mapSet key v seen)).
Proof.
  induction seen as [|[k0 x] seen IH]; simpl; intros Hnd.
  - apply NoDup_singleton.
  - apply NoDup_cons in Hnd as [Hnot Hnd].
    destruct (String.eqb_spec key k0) as [->|Hne]; simpl.
    + by apply NoDup_cons.
    + apply NoDup_cons. split; [|by apply IH].
      rewrite mapSet_keys. intros [->|Hin]; done.
Qed.

Lemma assoc_notin {A : Type} k (seen : list (string * A)) :
  k ∉ map fst seen -> assoc k seen = None.
Proof.
  induction seen as [|[k0 x] seen IH]; simpl; [done|].
  intros [Hne Hnot]%not_elem_of_cons.
  destruct (String.eqb_spec k k0); [done | by apply IH].
Qed.

Lemma assoc_in_NoDup {A : Type} k (v : A) seen :
  NoDup (map fst seen) -> (k, v) ∈ seen -> assoc k seen = Some v.
Proof.
  induction seen as [|[k0 x] seen IH]; simpl; intros Hnd Hin.
  - by apply elem_of_nil in Hin.
  - apply NoDup_cons in Hnd as [Hnot Hnd].
    apply elem_of_cons in Hin as [[= <- <-]|Hin].
    + by rewrite String.eqb_refl.
    + destruct (String.eqb_spec k k0) as [->|]; [|by apply IH].
      exfalso. apply Hnot. change k0 with (fst (k0, v)).
      apply list_elem_of_fmap. by exists (k0, v).
Qed.

Lemma assoc_Some_in {A : Type} k (v : A) seen : assoc k seen = Some v -> (k, v) ∈ seen.
Proof.
  induction seen as [|[k0 x] seen IH]; simpl; [done|].
  destruct (String.eqb_spec k k0) as [->|].
  - intros [= ->]. apply list_elem_of_here.
  - intros H. apply list_elem_of_further. by apply IH.
Qed.

(** What the loop of [dedupeByTitleDomain] keeps true of [seen] once it has
    gone through [items]. *)
Lemma dedupe_loop (P : Platform) (items : list NewsSearchResult) :
  forall before seen,
  (NoDup (map fst seen) /\
   (forall k v, assoc k seen = Some v -> dedupeKey P v = k /\ v ∈ before) /\
   (forall x, x ∈ before ->
      exists y, assoc (dedupeKey P x) seen = Some y /\ metadataScore x <= metadataScore y)) ->
  let seen' := foldl (dedupeStep P) seen items in
  NoDup (map fst seen') /\
  (forall k v, assoc k seen' = Some v -> dedupeKey P v = k /\ v ∈ before ++ items) /\
  (forall x, x ∈ before ++ items ->
     exists y, assoc (dedupeKey P x) seen' = Some y /\ metadataScore x <= metadataScore y).
Proof.
  induction items as [|item items IH]; intros before seen (Hnd & Hsrc & Hrep); simpl.
  - by rewrite app_nil_r.
  - replace (before ++ item :: items) with ((before ++ [item]) ++ items)
      by (by rewrite <- app_assoc).
    apply IH. unfold dedupeStep.
    destruct (assoc (dedupeKey P item) seen) as [existing|] eqn:Hex;
      [destruct (Z.gtb_spec (metadataScore item) (metadataScore existing)) as [Hgt|Hle]|].
    + split_and!.
      * by apply NoDup_mapSet.
      * intros k v. rewrite assoc_mapSet.
        destruct (String.eqb_spec k (dedupeKey P item)) as [->|].
        -- intros [= <-]. split; [done|]. apply elem_of_app. right. apply list_elem_of_here.
        -- intros [? ?]%Hsrc. split; [done|]. apply elem_of_app. by left.
      * intros x [Hx|Hx%list_elem_of_singleton]%elem_of_app.
        -- destruct (Hrep x Hx) as (y & Hy & Hscore). rewrite assoc_mapSet.
           destruct (String.eqb_spec (dedupeKey P x) (dedupeKey P item)) as [Heq|].
           ++ exists item. split; [done|]. rewrite Heq, Hex in Hy. simplify_eq. lia.
           ++ by exists y.
        -- subst x. exists item. rewrite assoc_mapSet, String.eqb_refl. split; [done | lia].
    + split_and!; [done|..].
      * intros k v [? ?]%Hsrc. split; [done|]. apply elem_of_app. by left.
      * intros x [Hx|Hx%list_elem_of_singleton]%elem_of_app; [by apply Hrep|].
        subst x. exists existing. split; [done | lia].
    + split_and!.
      * by apply NoDup_mapSet.
      * intros k v. rewrite assoc_mapSet.
        destruct (String.eqb_spec k (dedupeKey P item)) as [->|].
        -- intros [= <-]. split; [done|]. apply elem_of_app. right. apply list_elem_of_here.
        -- intros [? ?]%Hsrc. split; [done|]. apply elem_of_app. by left.
      * intros x [Hx|Hx%list_elem_of_singleton]%elem_of_app.
        -- destruct (Hrep x Hx) as (y & Hy & Hscore). rewrite assoc_mapSet.
           destruct (String.eqb_spec (dedupeKey P x) (dedupeKey P item)) as [Heq|].
           ++ rewrite Heq, Hex in Hy. done.
           ++ by exists y.
        -- subst x. exists item. rewrite assoc_mapSet, String.eqb_refl. split; [done | lia].
Qed.

(** What the loop has collected when it ends: each value filed under its
    own key, and taken from the given items. *)
Lemma dedupe_seen (P : Platform) (items : list NewsSearchResult) :
  let seen := foldl (dedupeStep P) [] items in
  NoDup (map fst seen) /\
  (forall k v, (k, v) ∈ seen -> dedupeKey P v = k /\ v ∈ items) /\
  (forall x, x ∈ items ->
     exists y, assoc (dedupeKey P x) seen = Some y /\ metadataScore x <= metadataScore y).
Proof.
  destruct (dedupe_loop P items [] []) as (Hnd & Hsrc & Hrep).
  { split_and!; [apply NoDup_nil_2 | done | by intros x ?%elem_of_nil]. }
  simpl in Hnd, Hsrc, Hrep. cbv zeta. split_and!; [done| |done].
  intros k v Hin. apply Hsrc. by apply assoc_in_NoDup.
Qed.

(** The result of deduplication has pairwise distinct keys and holds given
    items only. *)
Lemma dedupe_result (P : Platform) (items : list NewsSearchResult) :
  NoDup (map (dedupeKey P) (dedupeByTitleDomain P items)) /\
  (forall y, y ∈ dedupeByTitleDomain P items -> y ∈ items).
Proof.
  destruct (dedupe_seen P items) as (Hnd & Hmem & _). unfold dedupeByTitleDomain.
  set (seen := foldl (dedupeStep P) [] items) in *. split.
  - replace (map (dedupeKey P) (map snd seen)) with (map fst seen); [done|].
    clear -Hmem. induction seen as [|[k v] seen IH]; simpl; [done|].
    f_equal.
    + symmetry. apply (Hmem k v). apply list_elem_of_here.
    + apply IH. intros k' v' Hin. apply Hmem. by apply list_elem_of_further.
  - intros y Hy. change (map snd seen) with (snd <$> seen) in Hy.
    apply list_elem_of_fmap in Hy as [[k v] [-> Hin]]. by apply (Hmem k v).
Qed.

(** X25. Deduplication keeps one item per key (normalized title and
    domain): the keys of the result are pairwise distinct, every item of the
    result is one of the given items, and every given item is represented
    by an item of the result with the same key and a metadata score at
    least as high. *)
Theorem dedupe_one_per_key (P : Platform) (items : list NewsSearchResult) :
  let result := dedupeByTitleDomain P items in
  NoDup (map (dedupeKey P) result) /\
  (forall y, y ∈ result -> y ∈ items) /\
  (forall x, x ∈ items ->
     exists y, y ∈ result /\ dedupeKey P y = dedupeKey P x /\
               metadataScore x <= metadataScore y).
Proof.
  cbv zeta. destruct (dedupe_result P items) as [Hnd Hsub].
  split_and!; [done | done |].
  destruct (dedupe_seen P items) as (_ & Hmem & Hrep).
  intros x Hx. destruct (Hrep x Hx) as (y & Hy & Hscore).
  apply assoc_Some_in in Hy. exists y. split_and!; [|by apply (Hmem _ _ Hy)|done].
  unfold dedupeByTitleDomain. change (map snd ?l) with (snd <$> l).
  apply list_elem_of_fmap. by exists (dedupeKey P x, y).
Qed.

Lemma mapSet_fresh {A : Type} key (v : A) seen :
  key ∉ map fst seen -> mapSet key v seen = seen ++ [(key, v)].
Proof.
  induction seen as [|[k0 x] seen IH]; simpl; [done|].
  intros [Hne Hnot]%not_elem_of_cons.
  destruct (String.eqb_spec key k0); [done|]. by rewrite IH.
Qed.

Lemma dedupe_fresh (P : Platform) (items : list NewsSearchResult) : forall seen,
  NoDup (map fst seen ++ map (dedupeKey P) items) ->
  foldl (dedupeStep P) seen items = seen ++ map (fun x => (dedupeKey P x, x)) items.
Proof.
  induction items as [|item items IH]; intros seen Hnd; simpl.
  - by rewrite app_nil_r.
  - simpl in Hnd. apply NoDup_app in Hnd as (Hs & Hdisj & Hi).
    apply NoDup_cons in Hi as [Hnot Hi].
    assert (dedupeKey P item ∉ map fst seen) as Hfresh.
    { intros Hin. apply (Hdisj _ Hin). apply list_elem_of_here. }
    unfold dedupeStep at 2. rewrite assoc_notin, mapSet_fresh by done.
    rewrite IH.
    + by rewrite <- app_assoc.
    + change (map fst (seen ++ [(dedupeKey P item, item)]))
        with (fst <$> (seen ++ [(dedupeKey P item, item)])).
      rewrite fmap_app. simpl. rewrite <- app_assoc. simpl.
      apply NoDup_app. split_and!; [done| |by apply NoDup_cons].
      intros k Hk [->|Hin]%elem_of_cons; [done|].
      apply (Hdisj k Hk). by apply list_elem_of_further.
Qed.

(** X26. A list in which no two items share a key comes back from
    deduplication unchanged, in the same order; in particular deduplicating
    twice is the same as deduplicating once. *)
Theorem dedupe_idempotent (P : Platform) (items : list NewsSearchResult) :
  (NoDup (map (dedupeKey P) items) -> dedupeByTitleDomain P items = items) /\
  dedupeByTitleDomain P (dedupeByTitleDomain P items) = dedupeByTitleDomain P items.
Proof.
  assert (forall l, NoDup (map (dedupeKey P) l) -> dedupeByTitleDomain P l = l) as Hfix.
  { intros l Hnd. unfold dedupeByTitleDomain. rewrite dedupe_fresh by done. simpl.
    clear. induction l as [|x l IH]; simpl; [done | by rewrite IH]. }
  split; [apply Hfix|]. apply Hfix. apply dedupe_result.
Qed.

Lemma dedupe_one_per_key_witness :
  let a := mapGoogleCSEItem asciiPlatform
             {| item_title := "rocq released"; item_snippet := "";
                link := "https://a.example/1"; displayLink := "a.example"; pagemap := None |} in
  let b := mapGoogleCSEItem asciiPlatform
             {| item_title := "Rocq released!"; item_snippet := "";
                link := "https://a.example/2"; displayLink := "a.example";
                pagemap := Some {| metatags := None; newsarticle := Some [] |} |} in
  let result := dedupeByTitleDomain asciiPlatform [a; b] in
  NoDup (map (dedupeKey asciiPlatform) result) /\
  (forall y, y ∈ result -> y ∈ [a; b]) /\
  (forall x, x ∈ [a; b] ->
     exists y, y ∈ result /\ dedupeKey asciiPlatform y = dedupeKey asciiPlatform x /\
               metadataScore x <= metadataScore y).
Proof.
  exact (dedupe_one_per_key asciiPlatform
           [mapGoogleCSEItem asciiPlatform
              {| item_title := "rocq released"; item_snippet := "";
                 link := "https://a.example/1"; displayLink := "a.example"; pagemap := None |};
            mapGoogleCSEItem asciiPlatform
              {| item_title := "Rocq released!"; item_snippet := "";
                 link := "https://a.example/2"; displayLink := "a.example";
                 pagemap := Some {| metatags := None; newsarticle := Some [] |} |}]).
Defined.

Lemma dedupe_idempotent_witness :
  let a := mapGoogleCSEItem asciiPlatform
             {| item_title := "rocq released"; item_snippet := "";
                link := "https://a.example/1"; displayLink := "a.example"; pagemap := None |} in
  let b := mapGoogleCSEItem asciiPlatform
             {| item_title := "Rocq released!"; item_snippet := "";
                link := "https://a.example/2"; displayLink := "a.example";
                pagemap := Some {| metatags := None; newsarticle := Some [] |} |} in
  (NoDup (map (dedupeKey asciiPlatform) [a; b]) ->
   dedupeByTitleDomain asciiPlatform [a; b] = [a; b]) /\
  dedupeByTitleDomain asciiPlatform (dedupeByTitleDomain asciiPlatform [a; b])
    = dedupeByTitleDomain asciiPlatform [a; b].
Proof.
  exact (dedupe_idempotent asciiPlatform
           [mapGoogleCSEItem asciiPlatform
              {| item_title := "rocq released"; item_snippet := "";
                 link := "https://a.example/1"; displayLink := "a.example"; pagemap := None |};
            mapGoogleCSEItem asciiPlatform
              {| item_title := "Rocq released!"; item_snippet := "";
                 link := "https://a.example/2"; displayLink := "a.example";
                 pagemap := Some {| metatags := None; newsarticle := Some [] |} |}]).
Defined.

(** ** googleNewsSearch.ts *)


(** X27. [search] checks its input before it talks to the provider: the
    topic must be non-empty, also after trimming, and num (8 when absent)
    must lie between 1 and 10. Exactly when a check fails no request is
    sent, and the failure is an INVALID_INPUT object, which does not trigger
    backoff. *)
Theorem search_validates_first (P : Platform) (env : EnvironmentConfig)
    (server : ServerConfig) (input : GoogleNewsSearchInput) (fetched : outcome FetchResponse) :
  let invalid := topic input = "" \/ String.length (trim P (topic input)) = 0%nat \/
                 default 8 (num input) < 1 \/ 10 < default 8 (num input) in
  ((search P env server input fetched).1 = None <-> invalid) /\
  (invalid ->
   exists message,
     (search P env server input fetched).2
       = Threw (ThrownValue (Some (createMCPError "INVALID_INPUT" message None))) /\
     Backoff.isRateLimited (ThrownValue (Some (createMCPError "INVALID_INPUT" message None)))
       = false).
Proof.
  cbv zeta. unfold search.
  destruct (String.eqb_spec (topic input) "") as [Ht|Ht]; simpl.
  { split; [tauto|]. intros _. by eexists. }
  destruct (Nat.eqb_spec (String.length (trim P (topic input))) 0) as [Hl|Hl]; simpl.
  { split; [tauto|]. intros _. by eexists. }
  destruct (Z.ltb_spec (default 8 (num input)) 1) as [Hlo|Hlo]; simpl.
  { split; [tauto|]. intros _. by eexists. }
  destruct (Z.gtb_spec (default 8 (num input)) 10) as [Hhi|Hhi]; simpl.
  { split; [tauto|]. intros _. by eexists. }
  split.
  - split; [done|]. intros [?|[?|[?|?]]]; (done || lia).
  - intros [?|[?|[?|?]]]; (done || lia).
Qed.

Lemma search_validates_first_witness :
  let input := {| topic := "   "; dateRestrict := None; gl := None; hl := None; lr := None;
                  num := None; primaryOnly := None |} in
  let env := {| GOOGLE_CSE_KEY := "k"; GOOGLE_CSE_CX := "c"; NEWS_DEFAULT_GL := "us";
                NEWS_DEFAULT_HL := "en"; NEWS_DEFAULT_LR := "lang_en";
                NEWS_DEFAULT_DATE_RESTRICT := "d3"; FETCH_TIMEOUT_MS := Some 12000;
                FETCH_MAX_CHARS := Some 12000; USER_AGENT := "ua" |} in
  let server := {| allowOpinion := false; allowedDomains := []; blockedDomains := [] |} in
  let fetched := Threw (ThrownError "TypeError" "fetch failed" None) in
  let invalid := topic input = "" \/ String.length (trim asciiPlatform (topic input)) = 0%nat \/
                 default 8 (num input) < 1 \/ 10 < default 8 (num input) in
  ((search asciiPlatform env server input fetched).1 = None <-> invalid) /\
  (invalid ->
   exists message,
     (search asciiPlatform env server input fetched).2
       = Threw (ThrownValue (Some (createMCPError "INVALID_INPUT" message None))) /\
     Backoff.isRateLimited (ThrownValue (Some (createMCPError "INVALID_INPUT" message None)))
       = false).
Proof.
  exact (search_validates_first asciiPlatform
           {| GOOGLE_CSE_KEY := "k"; GOOGLE_CSE_CX := "c"; NEWS_DEFAULT_GL := "us";
              NEWS_DEFAULT_HL := "en"; NEWS_DEFAULT_LR := "lang_en";
              NEWS_DEFAULT_DATE_RESTRICT := "d3"; FETCH_TIMEOUT_MS := Some 12000;
              FETCH_MAX_CHARS := Some 12000; USER_AGENT := "ua" |}
           {| allowOpinion := false; allowedDomains := []; blockedDomains := [] |}
           {| topic := "   "; dateRestrict := None; gl := None; hl := None; lr := None;
              num := None; primaryOnly := None |}
           (Threw (ThrownError "TypeError" "fetch failed" None))).
Defined.

(** X28. What [search] returns is bounded and clean: at most num items, so
    never more than 10; no two with the same key; each one mapped from an
    item of the provider's response; and, unless primaryOnly was switched
    off, each one passing the primary filters. *)
Theorem search_results_bounded (P : Platform) (env : EnvironmentConfig)
    (server : ServerConfig) (input : GoogleNewsSearchInput) (fetched : outcome FetchResponse)
    (result : list NewsSearchResult) :
  (search P env server input fetched).2 = Returned result ->
  Z.of_nat (length result) <= default 8 (num input) /\
  (length result <= 10)%nat /\
  NoDup (map (dedupeKey P) result) /\
  (primaryOnly input ≠ Some false -> Forall (fun x => keepItem P server x = true) result) /\
  (forall x, x ∈ result ->
     exists response raws raw,
       fetched = Returned response /\ items response = Returned (Some raws) /\
       raw ∈ raws /\ x = mapGoogleCSEItem P raw).
Proof.
  unfold search.
  destruct (String.eqb (topic input) "" || _)%bool; [done|].
  destruct (Z.ltb_spec (default 8 (num input)) 1) as [Hlo|Hlo]; [done|].
  destruct (Z.gtb_spec (default 8 (num input)) 10) as [Hhi|Hhi]; [done|].
  simpl. destruct fetched as [response|e]; [|done].
  destruct (negb (ok response)); [done|].
  destruct (items response) as [[raws|]|e] eqn:Hitems; [| |done].
  2: { intros [= <-]. simpl. split_and!; [lia | lia | apply NoDup_nil_2 | done |].
       by intros x ?%elem_of_nil. }
  destruct raws as [|raw0 raws].
  { intros [= <-]. simpl. split_and!; [lia | lia | apply NoDup_nil_2 | done |].
    by intros x ?%elem_of_nil. }
  set (raws' := raw0 :: raws) in *.
  set (mapped' := if default true (primaryOnly input)
                  then applyPrimaryFilters P (map (mapGoogleCSEItem P) raws') server
                  else map (mapGoogleCSEItem P) raws').
  intros [= <-].
  destruct (dedupe_result P mapped') as (Hnd & Hsrc).
  set (n := Z.to_nat (default 8 (num input))).
  assert (length (take n (dedupeByTitleDomain P mapped')) <= n)%nat as Hlen
    by (rewrite length_take; lia).
  assert (forall x, x ∈ mapped' -> x ∈ map (mapGoogleCSEItem P) raws' /\
            (primaryOnly input ≠ Some false -> keepItem P server x = true)) as Hmapped.
  { intros x Hx. subst mapped'.
    destruct (primaryOnly input) as [[]|]; cbn [default] in Hx;
      try (unfold applyPrimaryFilters in Hx;
           apply list_elem_of_In, filter_In in Hx as [Hin Hk];
           split; [by apply list_elem_of_In | done]).
    done. }
  split_and!.
  - lia.
  - lia.
  - change (map (dedupeKey P) ?l) with (dedupeKey P <$> l). rewrite fmap_take.
    eapply sublist_NoDup; [exact Hnd | apply sublist_take].
  - intros Hp. apply Forall_forall. intros x Hx. apply (subseteq_take _ _ x) in Hx.
    destruct (Hmapped x (Hsrc x Hx)) as [_ Hk]. by apply Hk.
  - intros x Hx. apply (subseteq_take _ _ x) in Hx. apply Hsrc, Hmapped in Hx as [Hx _].
    change (map ?f ?l) with (f <$> l) in Hx.
    apply list_elem_of_fmap in Hx as [raw [-> Hraw]]. by exists response, raws', raw.
Qed.

Lemma search_results_bounded_witness :
  let env := {| GOOGLE_CSE_KEY := "k"; GOOGLE_CSE_CX := "c"; NEWS_DEFAULT_GL := "us";
                NEWS_DEFAULT_HL := "en"; NEWS_DEFAULT_LR := "lang_en";
                NEWS_DEFAULT_DATE_RESTRICT := "d3"; FETCH_TIMEOUT_MS := Some 12000;
                FETCH_MAX_CHARS := Some 12000; USER_AGENT := "ua" |} in
  let server := {| allowOpinion := false; allowedDomains := [];
                   blockedDomains := ["youtube.com"] |} in
  let input := {| topic := "rocq"; dateRestrict := None; gl := None; hl := None; lr := None;
                  num := Some 1; primaryOnly := None |} in
  let raw := {| item_title := "rocq released"; item_snippet := "";
                link := "https://a.example/1"; displayLink := "a.example";
                pagemap := Some {| metatags := None; newsarticle := Some [] |} |} in
  let fetched := Returned {| ok := true; status := 200; statusText := "OK";
                             items := Returned (Some [raw; raw]) |} in
  let result := [mapGoogleCSEItem asciiPlatform raw] in
  Z.of_nat (length result) <= default 8 (num input) /\
  (length result <= 10)%nat /\
  NoDup (map (dedupeKey asciiPlatform) result) /\
  (primaryOnly input ≠ Some false ->
   Forall (fun x => keepItem asciiPlatform server x = true) result) /\
  (forall x, x ∈ result ->
     exists response raws raw,
       fetched = Returned response /\ items response = Returned (Some raws) /\
       raw ∈ raws /\ x = mapGoogleCSEItem asciiPlatform raw).
Proof.
  apply (search_results_bounded asciiPlatform
           {| GOOGLE_CSE_KEY := "k"; GOOGLE_CSE_CX := "c"; NEWS_DEFAULT_GL := "us";
              NEWS_DEFAULT_HL := "en"; NEWS_DEFAULT_LR := "lang_en";
              NEWS_DEFAULT_DATE_RESTRICT := "d3"; FETCH_TIMEOUT_MS := Some 12000;
              FETCH_MAX_CHARS := Some 12000; USER_AGENT := "ua" |}).
  vm_compute. reflexivity.
Defined.




(** ** config.ts *)

Lemma envOr_nonempty env key fallback : fallback ≠ "" -> envOr env key fallback ≠ "".
Proof.
  intros Hf. unfold envOr, Server.or_str.
  destruct (env !! key) as [v|]; simpl; [|done].
  destruct (String.eqb_spec v ""); simpl; done.
Qed.

(** X30. The environment is accepted exactly when GOOGLE_CSE_KEY and
    GOOGLE_CSE_CX are both set and not empty. A loaded configuration has no
    empty string in it: a variable that is unset or empty takes its
    default. The two numeric settings are whatever [parseInt] makes of the
    variable, which is NaN for text without leading digits, and 12000 only
    when the variable is unset or empty. *)
Theorem environment_config_loading (env : gmap string string) :
  (is_returned (loadEnvironmentConfig env) = true <->
   truthy_str (env !! "GOOGLE_CSE_KEY") = true /\ truthy_str (env !! "GOOGLE_CSE_CX") = true) /\
  (forall cfg, loadEnvironmentConfig env = Returned cfg ->
     Forall (fun s => s ≠ "")
       [GOOGLE_CSE_KEY cfg; GOOGLE_CSE_CX cfg; NEWS_DEFAULT_GL cfg; NEWS_DEFAULT_HL cfg;
        NEWS_DEFAULT_LR cfg; NEWS_DEFAULT_DATE_RESTRICT cfg; USER_AGENT cfg] /\
     (truthy_str (env !! "FETCH_TIMEOUT_MS") = false -> FETCH_TIMEOUT_MS cfg = Some 12000) /\
     (forall v, env !! "FETCH_TIMEOUT_MS" = Some v -> v ≠ "" ->
                FETCH_TIMEOUT_MS cfg = parseInt v) /\
     (truthy_str (env !! "FETCH_MAX_CHARS") = false -> FETCH_MAX_CHARS cfg = Some 12000) /\
     (forall v, env !! "FETCH_MAX_CHARS" = Some v -> v ≠ "" ->
                FETCH_MAX_CHARS cfg = parseInt v)).
Proof.
  unfold loadEnvironmentConfig. simpl List.filter.
  destruct (truthy_str (env !! "GOOGLE_CSE_KEY")) eqn:Hk;
    destruct (truthy_str (env !! "GOOGLE_CSE_CX")) eqn:Hc; simpl.
  2-4: split; [split; [done | by intros [? ?]] | done].
  split; [done|]. intros cfg [= <-]. simpl.
  assert (forall key, truthy_str (env !! key) = true -> default "" (env !! key) ≠ "") as Hset.
  { intros key. destruct (env !! key) as [v|]; simpl; [|done].
    by destruct (String.eqb_spec v ""). }
  assert (forall key fallback, truthy_str (env !! key) = false ->
            envOr env key fallback = fallback) as Hunset.
  { intros key fallback H. unfold envOr, Server.or_str. by rewrite H. }
  assert (forall key fallback v, env !! key = Some v -> v ≠ "" ->
            envOr env key fallback = v) as Hgiven.
  { intros key fallback v H Hv. unfold envOr, Server.or_str. rewrite H. simpl.
    by destruct (String.eqb_spec v ""). }
  split_and!.
  - repeat constructor; try by apply Hset. all: by apply envOr_nonempty.
  - intros H. by rewrite Hunset.
  - intros v H Hv. by rewrite (Hgiven _ _ v).
  - intros H. by rewrite Hunset.
  - intros v H Hv. by rewrite (Hgiven _ _ v).
Qed.

Lemma environment_config_loading_witness :
  let env : gmap string string :=
    {[ "GOOGLE_CSE_KEY" := "k"; "GOOGLE_CSE_CX" := "c"; "FETCH_TIMEOUT_MS" := "fast" ]} in
  (is_returned (loadEnvironmentConfig env) = true <->
   truthy_str (env !! "GOOGLE_CSE_KEY") = true /\ truthy_str (env !! "GOOGLE_CSE_CX") = true) /\
  (forall cfg, loadEnvironmentConfig env = Returned cfg ->
     Forall (fun s => s ≠ "")
       [GOOGLE_CSE_KEY cfg; GOOGLE_CSE_CX cfg; NEWS_DEFAULT_GL cfg; NEWS_DEFAULT_HL cfg;
        NEWS_DEFAULT_LR cfg; NEWS_DEFAULT_DATE_RESTRICT cfg; USER_AGENT cfg] /\
     (truthy_str (env !! "FETCH_TIMEOUT_MS") = false -> FETCH_TIMEOUT_MS cfg = Some 12000) /\
     (forall v, env !! "FETCH_TIMEOUT_MS" = Some v -> v ≠ "" ->
                FETCH_TIMEOUT_MS cfg = parseInt v) /\
     (truthy_str (env !! "FETCH_MAX_CHARS") = false -> FETCH_MAX_CHARS cfg = Some 12000) /\
     (forall v, env !! "FETCH_MAX_CHARS" = Some v -> v ≠ "" ->
                FETCH_MAX_CHARS cfg = parseInt v)).
Proof.
  exact (environment_config_loading
           {[ "GOOGLE_CSE_KEY" := "k"; "GOOGLE_CSE_CX" := "c"; "FETCH_TIMEOUT_MS" := "fast" ]}).
Defined.

End NewsFacts.
